(** * Scene validation toolkit: a shallow embedding and its checked properties

    The development follows the four Python modules of the scene validator
    ([validator.py], [gemini_integration.py], [trigger.py], [api.py]).

    - Python values are the JSON-shaped values the program handles; a [dict]
      is an association list in insertion order, a [str] a list of code
      points.
    - Exceptions are explicit ([result]); the clock, the log, the
      environment, the file system and the network live in a [world] that is
      threaded through every effectful call (monad [M]).
    - What the interpreter provides and the program only uses (floats,
      [repr] of a [str], [str.lower]) is the interface [PyPrim].
    - Left out: the command-line entry points ([main]), [start_api], and
      [run_continuous_watch], an unbounded loop around [watch_directories]
      and [process_scene_file] with [time.sleep] and an interrupt from
      outside. *)

From Stdlib Require Import String Ascii.
From Stdlib Require Import ZArith NArith Bool Lia DecimalZ List.
Import ListNotations.
Open Scope string_scope.
Open Scope list_scope.
Set Warnings "-register-all".

(** ** Text *)

(** A Python [str]: the sequence of its Unicode code points. *)
Definition str := list N.

(** A Rocq string literal read as ASCII text. *)
Definition lit (s : string) : list N := map N_of_ascii (list_ascii_of_string s).
Coercion lit : string >-> list.

(** The double quote character, code point 34. *)
Definition dq : str := [34%N].

Fixpoint str_eqb (a b : str) : bool :=
  match a, b with
  | [], [] => true
  | x :: a', y :: b' => N.eqb x y && str_eqb a' b'
  | _, _ => false
  end.

Fixpoint prefixb (p s : str) : bool :=
  match p, s with
  | [], _ => true
  | x :: p', y :: s' => N.eqb x y && prefixb p' s'
  | _ :: _, [] => false
  end.

(** [s.find(sub)]: the lowest index at which [sub] occurs in [s], or -1. *)
Fixpoint find_from (sub s : str) (i : Z) : Z :=
  if prefixb sub s then i
  else match s with
       | [] => (-1)%Z
       | _ :: s' => find_from sub s' (i + 1)%Z
       end.

Definition str_find (s sub : str) : Z := find_from sub s 0%Z.

(** [s.rfind(sub)]: the highest index at which [sub] occurs in [s], or -1. *)
Fixpoint rfind_from (sub s : str) (i : Z) : Z :=
  match s with
  | [] => if prefixb sub [] then i else (-1)%Z
  | _ :: s' =>
      let r := rfind_from sub s' (i + 1)%Z in
      if (0 <=? r)%Z then r else if prefixb sub s then i else (-1)%Z
  end.

Definition str_rfind (s sub : str) : Z := rfind_from sub s 0%Z.

(** [s[a:b]] for any two integers, negative ones counted from the end. *)
Definition clamp_index (n i : Z) : Z :=
  if (i <? 0)%Z then Z.max 0 (n + i) else Z.min i n.

Definition slice {A : Type} (s : list A) (a b : Z) : list A :=
  let n := Z.of_nat (length s) in
  let a' := clamp_index n a in
  let b' := clamp_index n b in
  firstn (Z.to_nat (b' - a')) (skipn (Z.to_nat a') s).

(** [sep.join(parts)]. *)
Fixpoint str_join (sep : str) (parts : list str) : str :=
  match parts with
  | [] => []
  | [p] => p
  | p :: rest => p ++ sep ++ str_join sep rest
  end.

(** ** Decimal numerals *)

Fixpoint digits_of_uint (u : Decimal.uint) : str :=
  match u with
  | Decimal.Nil => []
  | Decimal.D0 u' => 48%N :: digits_of_uint u'
  | Decimal.D1 u' => 49%N :: digits_of_uint u'
  | Decimal.D2 u' => 50%N :: digits_of_uint u'
  | Decimal.D3 u' => 51%N :: digits_of_uint u'
  | Decimal.D4 u' => 52%N :: digits_of_uint u'
  | Decimal.D5 u' => 53%N :: digits_of_uint u'
  | Decimal.D6 u' => 54%N :: digits_of_uint u'
  | Decimal.D7 u' => 55%N :: digits_of_uint u'
  | Decimal.D8 u' => 56%N :: digits_of_uint u'
  | Decimal.D9 u' => 57%N :: digits_of_uint u'
  end.

(** [int.__repr__]. *)
Definition str_of_Z (z : Z) : str :=
  match Z.to_int z with
  | Decimal.Pos u => digits_of_uint u
  | Decimal.Neg u => 45%N :: digits_of_uint u
  end.

Definition str_of_N (n : N) : str := str_of_Z (Z.of_N n).

(** ["%0<w>d" % n] for a natural number. *)
Definition zero_pad (w : nat) (n : N) : str :=
  let d := str_of_N n in
  repeat 48%N (w - length d) ++ d.

Definition is_digit (c : N) : bool := (48 <=? c)%N && (c <=? 57)%N.

Definition digit_cons (c : N) (u : Decimal.uint) : Decimal.uint :=
  match (c - 48)%N with
  | 0%N => Decimal.D0 u
  | 1%N => Decimal.D1 u
  | 2%N => Decimal.D2 u
  | 3%N => Decimal.D3 u
  | 4%N => Decimal.D4 u
  | 5%N => Decimal.D5 u
  | 6%N => Decimal.D6 u
  | 7%N => Decimal.D7 u
  | 8%N => Decimal.D8 u
  | _ => Decimal.D9 u
  end.

Fixpoint uint_of_digits (s : str) : Decimal.uint :=
  match s with
  | [] => Decimal.Nil
  | c :: s' => digit_cons c (uint_of_digits s')
  end.

(** [int(s)] on a JSON integer token ([-] then decimal digits). *)
Definition Z_of_str (s : str) : Z :=
  match s with
  | 45%N :: ds => Z.of_int (Decimal.Neg (uint_of_digits ds))
  | _ => Z.of_int (Decimal.Pos (uint_of_digits s))
  end.

(** ** Calendar time *)

(** A naive [datetime.datetime]. *)
Record datetime := mkDatetime {
  year : N; month : N; day : N;
  hour : N; minute : N; second : N; microsecond : N }.

(** [datetime.isoformat()]: the fraction is printed only when it is not 0. *)
Definition isoformat (d : datetime) : str :=
  zero_pad 4 (year d) ++ "-" ++ zero_pad 2 (month d) ++ "-" ++ zero_pad 2 (day d)
  ++ "T" ++ zero_pad 2 (hour d) ++ ":" ++ zero_pad 2 (minute d) ++ ":"
  ++ zero_pad 2 (second d)
  ++ (if (microsecond d =? 0)%N then [] else "." ++ zero_pad 6 (microsecond d)).

(** [datetime.strftime("%Y%m%d_%H%M%S")]. *)
Definition strftime_compact (d : datetime) : str :=
  zero_pad 4 (year d) ++ zero_pad 2 (month d) ++ zero_pad 2 (day d) ++ "_"
  ++ zero_pad 2 (hour d) ++ zero_pad 2 (minute d) ++ zero_pad 2 (second d).

Definition dt_fields (d : datetime) : list N :=
  [year d; month d; day d; hour d; minute d; second d; microsecond d].

Fixpoint lex_ltb (a b : list N) : bool :=
  match a, b with
  | x :: a', y :: b' => (x <? y)%N || ((x =? y)%N && lex_ltb a' b')
  | _, _ => false
  end.

(** [a < b] on naive datetimes: field by field, most significant first. *)
Definition dt_ltb (a b : datetime) : bool := lex_ltb (dt_fields a) (dt_fields b).

(** [a > b]. *)
Definition dt_gtb (a b : datetime) : bool := dt_ltb b a.

Module Py.

(** ** Exceptions *)

Inductive exn_class :=
| AttributeError | KeyError | IndexError | TypeError | ValueError
| JSONDecodeError | RequestException | FileNotFoundError | OSError.

(** An exception: its class and [str(e)]. *)
Record exn := mkExn { exn_cls : exn_class; exn_msg : str }.

Inductive result (A : Type) : Type :=
| Ok (a : A)
| Raise (e : exn).
Arguments Ok {A} a.
Arguments Raise {A} e.

Definition rbind {A B} (r : result A) (k : A -> result B) : result B :=
  match r with
  | Ok a => k a
  | Raise e => Raise e
  end.

(** ** What the interpreter provides *)

Inductive float_class := FNan | FPosInf | FNegInf | FFinite.

(** Floats and the Unicode-table functions are used by the program but
    defined by the interpreter; the model takes them as an interface:
    the type [pyfloat] of the floats and the functions of [PyPrim].
    - [float_truth x] is [bool(x)], that is [x != 0.0];
    - [float_repr] is [float.__repr__], [float_of_literal] is [float(s)];
    - [str_repr] is [str.__repr__], [str_lower] is [str.lower];
    - [path_match p pat] is [pathlib.PurePath(p).match(pat)];
    - [format_ext ty r rest spec] is what a replacement field of
      [str.format] yields for a value of type [ty] and [repr] [r] when the
      field has more than a plain name: [rest] is the attribute and index
      part of the field name, [spec] the conversion and format spec. *)
Class FloatType := pyfloat : Type.

Class PyPrim {FT : FloatType} := {
  float_truth : pyfloat -> bool;
  float_classify : pyfloat -> float_class;
  float_repr : pyfloat -> str;
  float_of_literal : str -> pyfloat;
  float_nan : pyfloat;
  float_inf : pyfloat;
  float_neg_inf : pyfloat;
  str_repr : str -> str;
  str_lower : str -> str;
  path_match : str -> str -> bool;
  format_ext : str -> str -> str -> str -> result str
}.

(** ** Values *)

Section Values.
Context {FT : FloatType} {P : PyPrim}.

(** The values the program handles: what [json.load] returns and what the
    program builds from it.  A [dict] keeps its insertion order. *)
Inductive pyval : Type :=
| VNone
| VBool (b : bool)
| VInt (z : Z)
| VFloat (f : pyfloat)
| VStr (s : str)
| VList (l : list pyval)
| VDict (d : list (str * pyval)).

Definition dict := list (str * pyval).

Section Induction.
Variable Q : pyval -> Prop.
Hypothesis HNone : Q VNone.
Hypothesis HBool : forall b, Q (VBool b).
Hypothesis HInt : forall z, Q (VInt z).
Hypothesis HFloat : forall f, Q (VFloat f).
Hypothesis HStr : forall s, Q (VStr s).
Hypothesis HList : forall l, Forall Q l -> Q (VList l).
Hypothesis HDict : forall d, Forall (fun kv => Q (snd kv)) d -> Q (VDict d).

Fixpoint pyval_induct (v : pyval) : Q v :=
  match v with
  | VNone => HNone
  | VBool b => HBool b
  | VInt z => HInt z
  | VFloat f => HFloat f
  | VStr s => HStr s
  | VList l =>
      HList l ((fix go (l : list pyval) : Forall Q l :=
                  match l with
                  | [] => Forall_nil _
                  | x :: r => Forall_cons _ (pyval_induct x) (go r)
                  end) l)
  | VDict d =>
      HDict d ((fix go (d : dict) : Forall (fun kv => Q (snd kv)) d :=
                  match d with
                  | [] => Forall_nil _
                  | (k, x) :: r =>
                      Forall_cons (P := fun kv => Q (snd kv)) (k, x)
                        (pyval_induct x) (go r)
                  end) d)
  end.
End Induction.

(** [type(v).__name__]. *)
Definition type_name (v : pyval) : str :=
  match v with
  | VNone => "NoneType"
  | VBool _ => "bool"
  | VInt _ => "int"
  | VFloat _ => "float"
  | VStr _ => "str"
  | VList _ => "list"
  | VDict _ => "dict"
  end.

(** [bool(v)]: [None], [False], zero and the empty containers are falsy. *)
Definition py_truth (v : pyval) : bool :=
  match v with
  | VNone => false
  | VBool b => b
  | VInt z => negb (z =? 0)%Z
  | VFloat f => float_truth f
  | VStr s => match s with [] => false | _ => true end
  | VList l => match l with [] => false | _ => true end
  | VDict d => match d with [] => false | _ => true end
  end.

(** [repr(v)]. *)
Fixpoint py_repr (v : pyval) : str :=
  match v with
  | VNone => "None"
  | VBool true => "True"
  | VBool false => "False"
  | VInt z => str_of_Z z
  | VFloat f => float_repr f
  | VStr s => str_repr s
  | VList l => "[" ++ str_join ", " (map py_repr l) ++ "]"
  | VDict d =>
      "{" ++ str_join ", "
               (map (fun kv : str * pyval =>
                       let (k, x) := kv in str_repr k ++ ": " ++ py_repr x) d)
      ++ "}"
  end.

(** [str(v)], which is what an f-string and [str.format] insert. *)
Definition py_str (v : pyval) : str :=
  match v with
  | VStr s => s
  | _ => py_repr v
  end.

(** *** Dictionaries *)

Fixpoint dict_lookup (k : str) (d : dict) : option pyval :=
  match d with
  | [] => None
  | (k', x) :: d' => if str_eqb k k' then Some x else dict_lookup k d'
  end.

(** [d[k] = x]: an existing key keeps its place, a new key goes last. *)
Fixpoint dict_set (k : str) (x : pyval) (d : dict) : dict :=
  match d with
  | [] => [(k, x)]
  | (k', y) :: d' =>
      if str_eqb k k' then (k', x) :: d' else (k', y) :: dict_set k x d'
  end.

Definition dict_mem (k : str) (d : dict) : bool :=
  match dict_lookup k d with Some _ => true | None => false end.

(** [dict(pairs)]: later pairs overwrite earlier ones. *)
Definition dict_of_pairs (pairs : list (str * pyval)) : dict :=
  fold_left (fun d kv => dict_set (fst kv) (snd kv) d) pairs [].

(** *** Raising *)

Definition no_attribute (v : pyval) (name : str) : exn :=
  mkExn AttributeError
    ("'" ++ type_name v ++ "' object has no attribute '" ++ name ++ "'").

Definition key_error (k : pyval) : exn := mkExn KeyError (py_repr k).

Definition unhashable (v : pyval) : exn :=
  mkExn TypeError ("unhashable type: '" ++ type_name v ++ "'").

(** *** Operations on values, as the interpreter dispatches them *)

(** [o.get(k, default)] with a string key: only a [dict] has [get]. *)
Definition method_get (o : pyval) (k : str) (default : pyval) : result pyval :=
  match o with
  | VDict d => Ok (match dict_lookup k d with Some x => x | None => default end)
  | _ => Raise (no_attribute o "get")
  end.

(** Lists and dicts are not hashable; every other value is. *)
Definition hashable (v : pyval) : bool :=
  match v with
  | VList _ | VDict _ => false
  | _ => true
  end.

(** [k in d] for a [dict] whose keys are strings. *)
Definition dict_contains (k : pyval) (d : dict) : result bool :=
  match k with
  | VStr s => Ok (dict_mem s d)
  | _ => if hashable k then Ok false else Raise (unhashable k)
  end.

(** [d[k]] for a [dict] whose keys are strings. *)
Definition dict_getitem (k : pyval) (d : dict) : result pyval :=
  match k with
  | VStr s => match dict_lookup s d with
              | Some x => Ok x
              | None => Raise (key_error k)
              end
  | _ => if hashable k then Raise (key_error k) else Raise (unhashable k)
  end.

(** The integer behind an index: [bool] is a subclass of [int]. *)
Definition as_index (k : pyval) : option Z :=
  match k with
  | VInt z => Some z
  | VBool b => Some (if b then 1 else 0)%Z
  | _ => None
  end.

Definition seq_index {A} (l : list A) (i : Z) : option A :=
  let n := Z.of_nat (length l) in
  let j := if (i <? 0)%Z then (n + i)%Z else i in
  if (j <? 0)%Z then None else nth_error l (Z.to_nat j).

(** [o[k]]. *)
Definition py_getitem (o k : pyval) : result pyval :=
  match o with
  | VDict d => dict_getitem k d
  | VList l =>
      match as_index k with
      | Some i => match seq_index l i with
                  | Some x => Ok x
                  | None => Raise (mkExn IndexError "list index out of range")
                  end
      | None => Raise (mkExn TypeError
                  ("list indices must be integers or slices, not " ++ type_name k))
      end
  | VStr s =>
      match as_index k with
      | Some i => match seq_index s i with
                  | Some c => Ok (VStr [c])
                  | None => Raise (mkExn IndexError "string index out of range")
                  end
      | None => Raise (mkExn TypeError
                  ("string indices must be integers, not '" ++ type_name k ++ "'"))
      end
  | _ => Raise (mkExn TypeError
                  ("'" ++ type_name o ++ "' object is not subscriptable"))
  end.

(** [o[k] = x] with a string key. *)
Definition py_setitem (o : pyval) (k : str) (x : pyval) : result pyval :=
  match o with
  | VDict d => Ok (VDict (dict_set k x d))
  | VList _ => Raise (mkExn TypeError
                 "list indices must be integers or slices, not str")
  | _ => Raise (mkExn TypeError
                 ("'" ++ type_name o ++ "' object does not support item assignment"))
  end.

(** [needle in o] for a string [needle]. *)
Definition str_in (needle : str) (o : pyval) : result bool :=
  match o with
  | VDict d => Ok (dict_mem needle d)
  | VList l =>
      Ok (existsb (fun x => match x with VStr s => str_eqb needle s | _ => false end) l)
  | VStr s => Ok (0 <=? str_find s needle)%Z
  | _ => Raise (mkExn TypeError
                  ("argument of type '" ++ type_name o ++ "' is not iterable"))
  end.

(** The items a [for] loop over [o] visits. *)
Definition py_iter (o : pyval) : result (list pyval) :=
  match o with
  | VList l => Ok l
  | VDict d => Ok (map (fun kv => VStr (fst kv)) d)
  | VStr s => Ok (map (fun c => VStr [c]) s)
  | _ => Raise (mkExn TypeError
                  ("'" ++ type_name o ++ "' object is not iterable"))
  end.

(** [o.append(x)]. *)
Definition method_append (o x : pyval) : result pyval :=
  match o with
  | VList l => Ok (VList (l ++ [x]))
  | _ => Raise (no_attribute o "append")
  end.

(** [o.lower()]. *)
Definition method_lower (o : pyval) : result str :=
  match o with
  | VStr s => Ok (str_lower s)
  | _ => Raise (no_attribute o "lower")
  end.

End Values.
End Py.

(** ** The world and the effect monad *)

Module Sys.
Import Py.
Section World.
Context {FT : FloatType} {P : PyPrim}.

Inductive log_level := INFO | WARNING | ERROR.

Record log_record := mkLog {
  log_name : str; log_lvl : log_level; log_text : str }.

Record http_request := mkReq { req_url : str; req_json : pyval }.

(** Everything outside the process.
    - [w_clock n] is what the [n]-th call of [datetime.now()] returns and
      [w_tick] counts the calls made so far;
    - [w_log] is what the loggers have emitted, oldest first;
    - [w_exists], [w_glob], [w_mtime], [w_read] are the file system as the
      program sees it; [w_makedirs] and [w_writable] tell whether
      [os.makedirs(path, exist_ok=True)] and [open(path, "w")] succeed
      and [w_written] lists what was written, oldest first;
    - [w_post] is the remote endpoint ([requests.post], [raise_for_status]
      and [response.json()] together) and [w_sent] the requests sent. *)
Record world := mkWorld {
  w_clock : nat -> datetime;
  w_tick : nat;
  w_log : list log_record;
  w_environ : str -> option str;
  w_exists : str -> bool;
  w_glob : str -> str -> list str;
  w_mtime : str -> result datetime;
  w_read : str -> result str;
  w_makedirs : str -> bool;
  w_writable : str -> bool;
  w_written : list (str * str);
  w_post : http_request -> result pyval;
  w_sent : list http_request
}.

Definition with_tick (n : nat) (w : world) : world :=
  mkWorld (w_clock w) n (w_log w) (w_environ w) (w_exists w) (w_glob w)
    (w_mtime w) (w_read w) (w_makedirs w) (w_writable w) (w_written w) (w_post w) (w_sent w).

Definition with_log (l : list log_record) (w : world) : world :=
  mkWorld (w_clock w) (w_tick w) l (w_environ w) (w_exists w) (w_glob w)
    (w_mtime w) (w_read w) (w_makedirs w) (w_writable w) (w_written w) (w_post w) (w_sent w).

Definition with_written (l : list (str * str)) (w : world) : world :=
  mkWorld (w_clock w) (w_tick w) (w_log w) (w_environ w) (w_exists w) (w_glob w)
    (w_mtime w) (w_read w) (w_makedirs w) (w_writable w) l (w_post w) (w_sent w).

Definition with_sent (l : list http_request) (w : world) : world :=
  mkWorld (w_clock w) (w_tick w) (w_log w) (w_environ w) (w_exists w) (w_glob w)
    (w_mtime w) (w_read w) (w_makedirs w) (w_writable w) (w_written w) (w_post w) l.

(** A computation: it reads and changes the world, and returns or raises. *)
Definition M (A : Type) : Type := world -> result A * world.

Definition ret {A} (a : A) : M A := fun w => (Ok a, w).

Definition bind {A B} (m : M A) (k : A -> M B) : M B :=
  fun w => match m w with
           | (Ok a, w') => k a w'
           | (Raise e, w') => (Raise e, w')
           end.

Definition raise {A} (e : exn) : M A := fun w => (Raise e, w).

Definition lift {A} (r : result A) : M A := fun w => (r, w).

(** [try: m  except <classes>: h e]; what [m] did to the world stays. *)
Definition try_except {A} (m : M A) (caught : exn_class -> bool)
    (h : exn -> M A) : M A :=
  fun w => match m w with
           | (Ok a, w') => (Ok a, w')
           | (Raise e, w') =>
               if caught (exn_cls e) then h e w' else (Raise e, w')
           end.

(** [except Exception]: every class of the model derives from it. *)
Definition any_exception (c : exn_class) : bool := true.

Fixpoint foldM {A B} (f : B -> A -> M B) (l : list A) (b : B) : M B :=
  match l with
  | [] => ret b
  | x :: l' => bind (f b x) (foldM f l')
  end.

(** [datetime.now()]. *)
Definition datetime_now : M datetime :=
  fun w => (Ok (w_clock w (w_tick w)), with_tick (S (w_tick w)) w).

(** [logging.getLogger(name).log(level, text)]. *)
Definition log_emit (name : str) (lvl : log_level) (text : str) : M unit :=
  fun w => (Ok tt, with_log (w_log w ++ [mkLog name lvl text]) w).

(** [os.environ.get(name)]. *)
Definition environ_get (name : str) : M pyval :=
  fun w => (Ok (match w_environ w name with
                | Some s => VStr s
                | None => VNone
                end), w).

(** [with open(path, "w") as f: f.write(content)]. *)
Definition write_file (path content : str) : M unit :=
  fun w => if w_writable w path
           then (Ok tt, with_written (w_written w ++ [(path, content)]) w)
           else (Raise (mkExn OSError path), w).

(** [os.makedirs(path, exist_ok=True)]. *)
Definition makedirs (path : str) : M unit :=
  fun w => if w_makedirs w path then (Ok tt, w)
           else (Raise (mkExn OSError path), w).

(** [requests.post(url, json=data)], [raise_for_status()], [.json()]. *)
Definition http_post (url : str) (data : pyval) : M pyval :=
  fun w => (w_post w (mkReq url data),
            with_sent (w_sent w ++ [mkReq url data]) w).

End World.
End Sys.

Declare Scope py_scope.
Delimit Scope py_scope with py.
Notation "x <- m ;; k" := (Sys.bind m (fun x => k))
  (at level 61, m at next level, right associativity) : py_scope.
Notation "m ;;; k" := (Sys.bind m (fun _ => k))
  (at level 61, right associativity) : py_scope.
Notation "x <~ r ;; k" := (Py.rbind r (fun x => k))
  (at level 61, r at next level, right associativity) : py_scope.
Open Scope py_scope.

(** ** The [json] module: [dumps] and [loads] *)

Module Json.
Import Py.

(** *** Encoding *)

Definition hex_digit (d : N) : N :=
  if (d <? 10)%N then (48 + d)%N else (87 + d)%N.

(** ['{0:04x}'.format(n)] for [n] below 65536. *)
Definition hex4 (n : N) : str :=
  [hex_digit ((n / 4096) mod 16); hex_digit ((n / 256) mod 16);
   hex_digit ((n / 16) mod 16); hex_digit (n mod 16)]%N.

(** The replacement [encode_basestring_ascii] makes for one character:
    the short escapes, printable ASCII as it is, [\uXXXX] for the rest,
    with a surrogate pair above the basic plane.  A code point is at most
    1114111, so that the shifts and masks of the encoder are the quotient
    and the remainder by 1024 written here. *)
Definition escape_char (c : N) : str :=
  if (c =? 34)%N then "\" ++ dq
  else if (c =? 92)%N then "\\"
  else if (c =? 10)%N then "\n"
  else if (c =? 13)%N then "\r"
  else if (c =? 9)%N then "\t"
  else if (c =? 8)%N then "\b"
  else if (c =? 12)%N then "\f"
  else if (32 <=? c)%N && (c <=? 126)%N then [c]
  else if (c <? 65536)%N then "\u" ++ hex4 c
  else
    let n := (c - 65536)%N in
    let s1 := (55296 + n / 1024)%N in
    let s2 := (56320 + n mod 1024)%N in
    "\u" ++ hex4 s1 ++ "\u" ++ hex4 s2.

(** [encode_basestring_ascii(s)]. *)
Definition encode_string (s : str) : str :=
  dq ++ flat_map escape_char s ++ dq.

Section Encode.
Context {FT : FloatType} {P : PyPrim}.

(** [floatstr]: the three special values by name, the others by [repr]. *)
Definition floatstr (f : pyfloat) : str :=
  match float_classify f with
  | FNan => "NaN"
  | FPosInf => "Infinity"
  | FNegInf => "-Infinity"
  | FFinite => float_repr f
  end.

(** A line feed followed by [indent * level] spaces. *)
Definition newline_indent (indent level : nat) : str :=
  10%N :: repeat 32%N (indent * level).

(** [JSONEncoder(indent=indent).encode(v)] at nesting depth [level]: the
    item separator is a comma, the key separator a colon and a space;
    an empty container is written without a line break. *)
Fixpoint encode (indent level : nat) (v : pyval) : str :=
  match v with
  | VNone => "null"
  | VBool true => "true"
  | VBool false => "false"
  | VInt z => str_of_Z z
  | VFloat f => floatstr f
  | VStr s => encode_string s
  | VList l =>
      match l with
      | [] => "[]"
      | _ =>
          "[" ++ newline_indent indent (S level)
          ++ str_join ("," ++ newline_indent indent (S level))
               (map (encode indent (S level)) l)
          ++ newline_indent indent level ++ "]"
      end
  | VDict d =>
      match d with
      | [] => "{}"
      | _ =>
          "{" ++ newline_indent indent (S level)
          ++ str_join ("," ++ newline_indent indent (S level))
               (map (fun kv : str * pyval =>
                       let (k, x) := kv in
                       encode_string k ++ ": " ++ encode indent (S level) x) d)
          ++ newline_indent indent level ++ "}"
      end
  end.

(** [json.dumps(v, indent=indent)]. *)
Definition dumps (v : pyval) (indent : nat) : str := encode indent 0 v.

(** *** Decoding *)

Definition decode_error (msg : str) : exn := mkExn JSONDecodeError msg.

(** [s] without its first character, when that character is [c]. *)
Definition after (c : N) (s : str) : option str :=
  match s with
  | x :: r => if (x =? c)%N then Some r else None
  | [] => None
  end.

Definition is_ws (c : N) : bool :=
  (c =? 32)%N || (c =? 9)%N || (c =? 10)%N || (c =? 13)%N.

Fixpoint skip_ws (s : str) : str :=
  match s with
  | c :: s' => if is_ws c then skip_ws s' else s
  | [] => []
  end.

Definition hex_value (c : N) : option N :=
  if (48 <=? c)%N && (c <=? 57)%N then Some (c - 48)%N
  else if (97 <=? c)%N && (c <=? 102)%N then Some (c - 87)%N
  else if (65 <=? c)%N && (c <=? 70)%N then Some (c - 55)%N
  else None.

(** The four hex digits of a [\uXXXX] escape. *)
Definition hex4_value (a b c d : N) : option N :=
  match hex_value a, hex_value b, hex_value c, hex_value d with
  | Some x, Some y, Some z, Some t => Some (((x * 16 + y) * 16 + z) * 16 + t)%N
  | _, _, _, _ => None
  end.

Definition is_high_surrogate (u : N) : bool := (55296 <=? u)%N && (u <=? 56319)%N.
Definition is_low_surrogate (u : N) : bool := (56320 <=? u)%N && (u <=? 57343)%N.

Definition join_surrogates (u u2 : N) : N :=
  (65536 + ((u - 55296) * 1024 + (u2 - 56320)))%N.

(** The character a one-letter escape stands for. *)
Definition backslash (e : N) : option N :=
  if (e =? 34)%N then Some 34%N
  else if (e =? 92)%N then Some 92%N
  else if (e =? 47)%N then Some 47%N
  else if (e =? 98)%N then Some 8%N
  else if (e =? 102)%N then Some 12%N
  else if (e =? 110)%N then Some 10%N
  else if (e =? 114)%N then Some 13%N
  else if (e =? 116)%N then Some 9%N
  else None.

(** [scanstring] in strict mode, started after the opening quote: the
    decoded text and what follows the closing quote.  A high surrogate
    escape directly followed by a low surrogate escape is one character. *)
Fixpoint scanstring (s : str) : result (str * str) :=
  match s with
  | [] => Raise (decode_error "Unterminated string starting at")
  | c :: s1 =>
      if (c =? 34)%N then Ok ([], s1)
      else if (c =? 92)%N then
        match s1 with
        | [] => Raise (decode_error "Unterminated string starting at")
        | e :: s2 =>
            if (e =? 117)%N then
              match s2 with
              | a :: b :: c3 :: d :: s3 =>
                  match hex4_value a b c3 d with
                  | None => Raise (decode_error "Invalid \uXXXX escape")
                  | Some uni =>
                      match s3 with
                      | bs :: u :: a2 :: b2 :: c2 :: d2 :: s4 =>
                          if is_high_surrogate uni && (bs =? 92)%N && (u =? 117)%N
                          then
                            match hex4_value a2 b2 c2 d2 with
                            | None => Raise (decode_error "Invalid \uXXXX escape")
                            | Some uni2 =>
                                if is_low_surrogate uni2 then
                                  r <~ scanstring s4 ;;
                                  Ok (join_surrogates uni uni2 :: fst r, snd r)
                                else
                                  r <~ scanstring s3 ;;
                                  Ok (uni :: fst r, snd r)
                            end
                          else
                            r <~ scanstring s3 ;;
                            Ok (uni :: fst r, snd r)
                      | _ =>
                          r <~ scanstring s3 ;;
                          Ok (uni :: fst r, snd r)
                      end
                  end
              | _ => Raise (decode_error "Invalid \uXXXX escape")
              end
            else
              match backslash e with
              | None => Raise (decode_error "Invalid \escape")
              | Some ch =>
                  r <~ scanstring s2 ;;
                  Ok (ch :: fst r, snd r)
              end
        end
      else if (c <=? 31)%N then
        Raise (decode_error "Invalid control character at")
      else
        r <~ scanstring s1 ;;
        Ok (c :: fst r, snd r)
  end.

(** The longest run of decimal digits at the head of [s], and the rest. *)
Fixpoint span_digits (s : str) : str * str :=
  match s with
  | c :: s' =>
      if is_digit c then let (ds, r) := span_digits s' in (c :: ds, r)
      else ([], s)
  | [] => ([], [])
  end.

(** The integer part of a number: an optional minus, then [0] or a run
    of digits that does not start with [0]. *)
Definition match_integer (s : str) : option (str * str) :=
  let (sign, s1) := match after 45 s with
                    | Some s' => ([45%N], s')
                    | None => ([], s)
                    end in
  match s1 with
  | c :: s2 =>
      if (c =? 48)%N then Some (sign ++ [c], s2)
      else if is_digit c then
        let (ds, r) := span_digits s2 in Some (sign ++ c :: ds, r)
      else None
  | [] => None
  end.

(** The fraction: a dot followed by at least one digit. *)
Definition match_frac (s : str) : str * str :=
  match after 46 s with
  | Some (c :: s') =>
      if is_digit c then let (ds, r) := span_digits s' in (46%N :: c :: ds, r)
      else ([], s)
  | _ => ([], s)
  end.

(** The exponent: [e] or [E], an optional sign, at least one digit. *)
Definition match_exp (s : str) : str * str :=
  match s with
  | e :: s1 =>
      if (e =? 101)%N || (e =? 69)%N then
        let (sign, s2) := match s1 with
                          | c :: s' =>
                              if (c =? 43)%N || (c =? 45)%N then ([c], s')
                              else ([], s1)
                          | [] => ([], s1)
                          end in
        match span_digits s2 with
        | ([], _) => ([], s)
        | (ds, r) => (e :: sign ++ ds, r)
        end
      else ([], s)
  | [] => ([], s)
  end.

(** The number at the head of [s]: [int] when it has neither fraction
    nor exponent, [float] otherwise. *)
Definition match_number (s : str) : option (pyval * str) :=
  match match_integer s with
  | None => None
  | Some (integer, s1) =>
      let (frac, s2) := match_frac s1 in
      let (ex, s3) := match_exp s2 in
      match frac, ex with
      | [], [] => Some (VInt (Z_of_str integer), s3)
      | _, _ => Some (VFloat (float_of_literal (integer ++ frac ++ ex)), s3)
      end
  end.

(** [scan_once] and the loops of [JSONArray] and [JSONObject].  The three
    functions are given [fuel]; [loads] supplies more than the length of
    the text, which is more than they use. *)
Fixpoint scan_once (fuel : nat) (s : str) : result (pyval * str) :=
  match fuel with
  | O => Raise (decode_error "Expecting value")
  | S fuel' =>
      match s with
      | [] => Raise (decode_error "Expecting value")
      | c :: s' =>
          if (c =? 34)%N then
            r <~ scanstring s' ;; Ok (VStr (fst r), snd r)
          else if (c =? 123)%N then
            match after 125 (skip_ws s'), after 34 (skip_ws s') with
            | Some r, _ => Ok (VDict [], r)
            | None, Some r =>
                ps <~ scan_pairs fuel' r ;;
                Ok (VDict (dict_of_pairs (fst ps)), snd ps)
            | None, None => Raise (decode_error
                     "Expecting property name enclosed in double quotes")
            end
          else if (c =? 91)%N then
            match after 93 (skip_ws s') with
            | Some r => Ok (VList [], r)
            | None =>
                vs <~ scan_items fuel' (skip_ws s') ;;
                Ok (VList (fst vs), snd vs)
            end
          else if prefixb "null" s then Ok (VNone, skipn 4 s)
          else if prefixb "true" s then Ok (VBool true, skipn 4 s)
          else if prefixb "false" s then Ok (VBool false, skipn 5 s)
          else
            match match_number s with
            | Some r => Ok r
            | None =>
                if prefixb "NaN" s then Ok (VFloat float_nan, skipn 3 s)
                else if prefixb "Infinity" s then Ok (VFloat float_inf, skipn 8 s)
                else if prefixb "-Infinity" s
                then Ok (VFloat float_neg_inf, skipn 9 s)
                else Raise (decode_error "Expecting value")
            end
      end
  end

(** The items of an array, started at the first item. *)
with scan_items (fuel : nat) (s : str) : result (list pyval * str) :=
  match fuel with
  | O => Raise (decode_error "Expecting value")
  | S fuel' =>
      v <~ scan_once fuel' s ;;
      match after 93 (skip_ws (snd v)), after 44 (skip_ws (snd v)) with
      | Some r, _ => Ok ([fst v], r)
      | None, Some r =>
          vs <~ scan_items fuel' (skip_ws r) ;;
          Ok (fst v :: fst vs, snd vs)
      | None, None => Raise (decode_error "Expecting ',' delimiter")
      end
  end

(** The pairs of an object, started after the opening quote of a key. *)
with scan_pairs (fuel : nat) (s : str) : result (list (str * pyval) * str) :=
  match fuel with
  | O => Raise (decode_error "Expecting value")
  | S fuel' =>
      k <~ scanstring s ;;
      match after 58 (skip_ws (snd k)) with
      | Some r =>
          v <~ scan_once fuel' (skip_ws r) ;;
          match after 125 (skip_ws (snd v)), after 44 (skip_ws (snd v)) with
          | Some r', _ => Ok ([(fst k, fst v)], r')
          | None, Some r' =>
              match after 34 (skip_ws r') with
              | Some r'' =>
                  ps <~ scan_pairs fuel' r'' ;;
                  Ok ((fst k, fst v) :: fst ps, snd ps)
              | None => Raise (decode_error
                       "Expecting property name enclosed in double quotes")
              end
          | None, None => Raise (decode_error "Expecting ',' delimiter")
          end
      | None => Raise (decode_error "Expecting ':' delimiter")
      end
  end.

(** [json.loads(s)]: no byte order mark, one value between optional
    white space, nothing after it. *)
Definition loads (s : str) : result pyval :=
  match after 65279 s with
  | Some _ => Raise (decode_error "Unexpected UTF-8 BOM (decode using utf-8-sig)")
  | None =>
      r <~ scan_once (S (length s)) (skip_ws s) ;;
      match skip_ws (snd r) with
      | [] => Ok (fst r)
      | _ => Raise (decode_error "Extra data")
      end
  end.

End Encode.
End Json.

(** ** [str.format] with keyword arguments only *)

Module Fmt.
Import Py.
Section Format.
Context {FT : FloatType} {P : PyPrim}.

Definition value_error (msg : str) : exn := mkExn ValueError msg.

(** The name of a replacement field, read after its opening brace: it
    ends at the first [}], [:] or [!] outside square brackets.  The result
    is the name, the character that ended it and the text after it. *)
Fixpoint field_name_end (s : str) (bracket : bool) (acc : str)
    : result (str * N * str) :=
  match s with
  | [] => Raise (value_error "expected '}' before end of string")
  | c :: s' =>
      if bracket then field_name_end s' (negb (c =? 93)%N) (acc ++ [c])
      else if (c =? 123)%N then
        Raise (value_error "unexpected '{' in field name")
      else if (c =? 91)%N then field_name_end s' true (acc ++ [c])
      else if (c =? 125)%N || (c =? 58)%N || (c =? 33)%N then Ok (acc, c, s')
      else field_name_end s' false (acc ++ [c])
  end.

(** The format spec, read after its colon: it ends at the closing brace
    that matches the opening brace of the field. *)
Fixpoint spec_end (s : str) (depth : nat) (acc : str) : result (str * str) :=
  match s with
  | [] => Raise (value_error "unmatched '{' in format spec")
  | c :: s' =>
      if (c =? 123)%N then spec_end s' (S depth) (acc ++ [c])
      else if (c =? 125)%N then
        match depth with
        | O => Ok (acc, s')
        | S d => spec_end s' d (acc ++ [c])
        end
      else spec_end s' depth (acc ++ [c])
  end.

(** What follows the name: nothing, a conversion, a spec, or both.  The
    result is the conversion and spec as written and the text after the
    field. *)
Definition field_tail (term : N) (s : str) : result (str * str) :=
  if (term =? 125)%N then Ok ([], s)
  else if (term =? 58)%N then
    r <~ spec_end s 0 [] ;; Ok (58%N :: fst r, snd r)
  else
    match s with
    | [] => Raise (value_error
              "end of string while looking for conversion specifier")
    | conv :: s1 =>
        match s1 with
        | [] => Raise (value_error "unmatched '{' in format spec")
        | c :: s2 =>
            if (c =? 125)%N then Ok ([33%N; conv], s2)
            else if (c =? 58)%N then
              r <~ spec_end s2 0 [] ;; Ok (33%N :: conv :: 58%N :: fst r, snd r)
            else Raise (value_error "expected ':' after conversion specifier")
        end
    end.

(** The first part of a field name: up to the first [.] or [[]. *)
Fixpoint first_part (name : str) : str * str :=
  match name with
  | [] => ([], [])
  | c :: r =>
      if (c =? 46)%N || (c =? 91)%N then ([], name)
      else let (a, b) := first_part r in (c :: a, b)
  end.

(** One replacement field.  An empty or all-digit first part indexes the
    positional arguments, of which there are none; any other first part
    is a keyword, looked up before anything else is done with the field. *)
Definition render_field (kwargs : list (str * pyval)) (name tail : str)
    : result str :=
  let (first, rest) := first_part name in
  if forallb is_digit first then
    Raise (mkExn IndexError
             ("Replacement index " ++ (match first with [] => "0" | _ => first end)
              ++ " out of range for positional args tuple"))
  else
    match dict_lookup first kwargs with
    | None => Raise (key_error (VStr first))
    | Some v =>
        match rest, tail with
        | [], [] => Ok (py_str v)
        | _, _ => format_ext (type_name v) (py_repr v) rest tail
        end
    end.

(** [template.format(...)] with keyword arguments [kwargs]: text is copied, a doubled brace stands
    for one brace, a single closing brace is an error, and the fields are
    rendered from left to right, the first error ending the call. *)
Fixpoint format_from (fuel : nat) (kwargs : list (str * pyval)) (s : str)
    : result str :=
  match fuel with
  | O => Ok []
  | S fuel' =>
      match s with
      | [] => Ok []
      | c :: s1 =>
          if (c =? 123)%N then
            match s1 with
            | [] => Raise (value_error "Single '{' encountered in format string")
            | c2 :: s2 =>
                if (c2 =? 123)%N then
                  r <~ format_from fuel' kwargs s2 ;; Ok (123%N :: r)
                else
                  nm <~ field_name_end s1 false [] ;;
                  tl <~ field_tail (snd (fst nm)) (snd nm) ;;
                  out <~ render_field kwargs (fst (fst nm)) (fst tl) ;;
                  r <~ format_from fuel' kwargs (snd tl) ;;
                  Ok (out ++ r)
            end
          else if (c =? 125)%N then
            match s1 with
            | [] => Raise (value_error "Single '}' encountered in format string")
            | c2 :: s2 =>
                if (c2 =? 125)%N then
                  r <~ format_from fuel' kwargs s2 ;; Ok (125%N :: r)
                else
                  Raise (value_error "Single '}' encountered in format string")
            end
          else
            r <~ format_from fuel' kwargs s1 ;; Ok (c :: r)
      end
  end.

Definition str_format (template : str) (kwargs : list (str * pyval))
    : result str :=
  format_from (length template) kwargs template.

End Format.
End Fmt.

(** ** [validator.py] *)

Module Validator.
Import Py Sys.
Section Validator.
Context {FT : FloatType} {P : PyPrim}.

Definition logger : str := "scene_validator".

(** A [SceneValidator] after [__init__]: the configuration and the rules
    it has loaded. *)
Record SceneValidator := mkValidator {
  config : pyval;
  validation_rules : pyval }.

(** The rules [_load_validation_rules] falls back to. *)
Definition default_rules : pyval :=
  VDict [
    (lit "scene_structure", VDict [
       (lit "required_metadata",
        VList [VStr "scene_id"; VStr "timestamp"; VStr "location"]);
       (lit "optional_metadata",
        VList [VStr "weather"; VStr "time_of_day"; VStr "camera_setup"])]);
    (lit "continuity", VDict [
       (lit "check_character_presence", VBool true);
       (lit "check_props", VBool true);
       (lit "check_lighting", VBool true);
       (lit "check_environment", VBool true)])].

(** [field not in scene_data or not scene_data[field]].  Only a [dict]
    reaches this test: any other value has made [scene_data.get] raise
    before, and the last case repeats that error. *)
Definition field_missing (scene_data field : pyval) : result bool :=
  match scene_data with
  | VDict d =>
      present <~ dict_contains field d ;;
      if negb present then Ok true
      else x <~ dict_getitem field d ;; Ok (negb (py_truth x))
  | _ => Raise (no_attribute scene_data "get")
  end.

(** [results[key].append(x)]. *)
Definition append_item (results : pyval) (key : str) (x : pyval) : result pyval :=
  l <~ py_getitem results (VStr key) ;;
  l' <~ method_append l x ;;
  py_setitem results key l'.

(** [results[key] += 1] for the integer counters of a result. *)
Definition increment_item (results : pyval) (key : str) : result pyval :=
  n <~ py_getitem results (VStr key) ;;
  match as_index n with
  | Some z => py_setitem results key (VInt (z + 1))
  | None => Raise (mkExn TypeError "unsupported operand type(s) for +=")
  end.

(** One turn of the loop over the required fields. *)
Definition check_field (scene_data results field : pyval) : result pyval :=
  missing <~ field_missing scene_data field ;;
  if (missing : bool) then
    results <~ py_setitem results "valid" (VBool false) ;;
    append_item results "errors"
      (VStr ("Missing required metadata: " ++ py_str field))
  else Ok results.

(** A loop whose body has no effect on the world: the first exception
    ends it. *)
Fixpoint for_each {A B} (body : B -> A -> result B) (l : list A) (b : B)
    : result B :=
  match l with
  | [] => Ok b
  | x :: l' => b' <~ body b x ;; for_each body l' b'
  end.

Definition validate_scene (self : SceneValidator) (scene_data : pyval) : M pyval :=
  sid <- lift (method_get scene_data "scene_id" (VStr "unknown")) ;;
  log_emit logger INFO ("Validating scene: " ++ py_str sid) ;;;
  sid <- lift (method_get scene_data "scene_id" (VStr "unknown")) ;;
  now <- datetime_now ;;
  let results :=
    VDict [(lit "scene_id", sid);
           (lit "timestamp", VStr (isoformat now));
           (lit "valid", VBool true);
           (lit "errors", VList []);
           (lit "warnings", VList []);
           (lit "suggestions", VList [])] in
  structure <- lift (py_getitem (validation_rules self) (VStr "scene_structure")) ;;
  required <- lift (py_getitem structure (VStr "required_metadata")) ;;
  fields <- lift (py_iter required) ;;
  results <- lift (for_each (check_field scene_data) fields results) ;;
  sid <- lift (method_get scene_data "scene_id" (VStr "unknown")) ;;
  log_emit logger INFO ("Validation complete for scene: " ++ py_str sid) ;;;
  ret results.

(** One turn of the loop over the scenes of a project. *)
Definition tally_scene (self : SceneValidator) (results scene : pyval) : M pyval :=
  scene_result <- validate_scene self scene ;;
  results <- lift (append_item results "scene_results" scene_result) ;;
  ok <- lift (py_getitem scene_result (VStr "valid")) ;;
  if py_truth ok then lift (increment_item results "valid_scenes")
  else lift (increment_item results "invalid_scenes").

Definition validate_project (self : SceneValidator) (project_data : list pyval)
    : M pyval :=
  log_emit logger INFO
    ("Validating project with " ++ str_of_Z (Z.of_nat (length project_data))
     ++ " scenes") ;;;
  project_id <- match project_data with
                | [] => ret (VStr "unknown")
                | first :: _ => lift (method_get first "project_id" (VStr "unknown"))
                end ;;
  now <- datetime_now ;;
  let results :=
    VDict [(lit "project_id", project_id);
           (lit "timestamp", VStr (isoformat now));
           (lit "scene_count", VInt (Z.of_nat (length project_data)));
           (lit "valid_scenes", VInt 0);
           (lit "invalid_scenes", VInt 0);
           (lit "scene_results", VList []);
           (lit "project_level_issues", VList [])] in
  results <- foldM (tally_scene self) project_data results ;;
  valid <- lift (py_getitem results (VStr "valid_scenes")) ;;
  invalid <- lift (py_getitem results (VStr "invalid_scenes")) ;;
  log_emit logger INFO
    ("Project validation complete. Valid scenes: " ++ py_str valid
     ++ ", Invalid scenes: " ++ py_str invalid) ;;;
  ret results.

(** The template of the HTML report, as the source has it. *)
Definition html_template : str :=
  "
        <!DOCTYPE html>
        <html>
        <head>
            <title>Scene Validation Report</title>
            <style>
                body { font-family: Arial, sans-serif; margin: 20px; }
                h1 { color: #333; }
                .summary { background-color: #f5f5f5; padding: 15px; border-radius: 5px; }
                .valid { color: green; }
                .invalid { color: red; }
                .warning { color: orange; }
                .scene { margin: 20px 0; padding: 10px; border: 1px solid #ddd; border-radius: 5px; }
                .issue-list { margin-left: 20px; }
            </style>
        </head>
        <body>
            <h1>Scene Validation Report</h1>
            <div class=" ++ dq ++ "summary" ++ dq ++ ">
                <h2>Summary</h2>
                <p>Project ID: {project_id}</p>
                <p>Timestamp: {timestamp}</p>
                <p>Total Scenes: {scene_count}</p>
                <p>Valid Scenes: <span class=" ++ dq ++ "valid" ++ dq ++ ">{valid_scenes}</span></p>
                <p>Invalid Scenes: <span class=" ++ dq ++ "invalid" ++ dq ++ ">{invalid_scenes}</span></p>
            </div>
            
            <h2>Scene Details</h2>
            {scene_results}
            
            <h2>Project-Level Issues</h2>
            <ul class=" ++ dq ++ "issue-list" ++ dq ++ ">
                {project_issues}
            </ul>
        </body>
        </html>
        ".

(** ["".join(f"<li>{x}</li>" for x in items)]. *)
Definition list_items (items : pyval) : result str :=
  xs <~ py_iter items ;;
  Ok (flat_map (fun x => "<li>" ++ py_str x ++ "</li>") xs).

(** The block the report has for one scene. *)
Definition scene_block (scene : pyval) : result str :=
  v <~ method_get scene "valid" (VBool true) ;;
  let scene_class : str := if py_truth v then "valid" else "invalid" in
  sid <~ method_get scene "scene_id" (VStr "Unknown") ;;
  v' <~ method_get scene "valid" (VBool true) ;;
  errors <~ method_get scene "errors" (VList []) ;;
  errors_html <~ list_items errors ;;
  warnings <~ method_get scene "warnings" (VList []) ;;
  warnings_html <~ list_items warnings ;;
  suggestions <~ method_get scene "suggestions" (VList []) ;;
  suggestions_html <~ list_items suggestions ;;
  Ok (("
            <div class=" ++ dq ++ "scene" ++ dq ++ ">
                <h3>Scene: ")
      ++ py_str sid
      ++ (" - <span class=" ++ dq)
      ++ scene_class
      ++ (dq ++ ">
                    ")
      ++ (if py_truth v' then "Valid" else "Invalid")
      ++ ("</span></h3>
                
                <h4>Errors:</h4>
                <ul class=" ++ dq ++ "issue-list" ++ dq ++ ">
                    ")
      ++ errors_html
      ++ ("
                </ul>
                
                <h4>Warnings:</h4>
                <ul class=" ++ dq ++ "issue-list warning" ++ dq ++ ">
                    ")
      ++ warnings_html
      ++ ("
                </ul>
                
                <h4>Suggestions:</h4>
                <ul class=" ++ dq ++ "issue-list" ++ dq ++ ">
                    ")
      ++ suggestions_html
      ++ ("
                </ul>
            </div>
            ")).

Fixpoint scene_blocks (scenes : list pyval) : result str :=
  match scenes with
  | [] => Ok []
  | scene :: rest =>
      b <~ scene_block scene ;;
      r <~ scene_blocks rest ;;
      Ok (b ++ r)
  end.

Definition _generate_html_report (validation_results : pyval) : result str :=
  scenes <~ method_get validation_results "scene_results" (VList []) ;;
  scenes <~ py_iter scenes ;;
  scene_results_html <~ scene_blocks scenes ;;
  issues <~ method_get validation_results "project_level_issues" (VList []) ;;
  project_issues_html <~ list_items issues ;;
  project_id <~ method_get validation_results "project_id" (VStr "Unknown") ;;
  timestamp <~ method_get validation_results "timestamp" (VStr "Unknown") ;;
  scene_count <~ method_get validation_results "scene_count" (VInt 0) ;;
  valid_scenes <~ method_get validation_results "valid_scenes" (VInt 0) ;;
  invalid_scenes <~ method_get validation_results "invalid_scenes" (VInt 0) ;;
  Fmt.str_format html_template
    [(lit "project_id", project_id);
     (lit "timestamp", timestamp);
     (lit "scene_count", scene_count);
     (lit "valid_scenes", valid_scenes);
     (lit "invalid_scenes", invalid_scenes);
     (lit "scene_results", VStr scene_results_html);
     (lit "project_issues", VStr project_issues_html)].

(** [if output_path:] holds for a path that is neither [None] nor empty. *)
Definition path_given (output_path : option str) : option str :=
  match output_path with
  | Some (c :: p) => Some (c :: p)
  | _ => None
  end.

Definition generate_report (self : SceneValidator) (validation_results : pyval)
    (output_path : option str) : M str :=
  fmt <- lift (method_get (config self) "report_format" (VStr "html")) ;;
  format_type <- lift (method_lower fmt) ;;
  report <-
    (if str_eqb format_type "html" then
       lift (_generate_html_report validation_results)
     else if str_eqb format_type "json" then
       ret (Json.dumps validation_results 2)
     else
       log_emit logger WARNING
         ("Unknown report format: " ++ format_type ++ ", defaulting to JSON") ;;;
       ret (Json.dumps validation_results 2)) ;;
  match path_given output_path with
  | Some path =>
      write_file path report ;;;
      log_emit logger INFO ("Report written to " ++ path) ;;;
      ret report
  | None => ret report
  end.

(** *** Construction *)

(** [with open(path, "r") as f: json.load(f)]. *)
Definition load_json (path : str) : M pyval :=
  text <- (fun w => (w_read w path, w)) ;;
  lift (Json.loads text).

(** [except FileNotFoundError]. *)
Definition is_file_not_found (c : exn_class) : bool :=
  match c with FileNotFoundError => true | _ => false end.

(** [os.environ.get(name, default)]. *)
Definition environ_get_default (name default : str) : M pyval :=
  fun w => (Ok (VStr (match w_environ w name with
                      | Some s => s
                      | None => default
                      end)), w).

Definition _load_config (config_path : str) : M pyval :=
  try_except (load_json config_path) is_file_not_found
    (fun _ =>
       log_emit logger WARNING
         ("Config file not found at " ++ config_path ++ ", using defaults") ;;;
       api_key <- environ_get_default "GEMINI_API_KEY" [] ;;
       project_id <- environ_get_default "GOOGLE_CLOUD_PROJECT" [] ;;
       storage_bucket <- environ_get_default "STORAGE_BUCKET" "media-automation-tools" ;;
       ret (VDict [(lit "api_key", api_key);
                   (lit "project_id", project_id);
                   (lit "storage_bucket", storage_bucket);
                   (lit "validation_rules_path", VStr "config/validation_rules.json");
                   (lit "report_format", VStr "html");
                   (lit "verbose_logging", VBool true)])).

(** The path [open] is given.  A value that is neither a [str] nor an
    integer makes [open] raise [TypeError]; an integer would be read as a
    file descriptor, which the world does not have: it is given the same
    error here, and no property below is about it. *)
Definition open_path (v : pyval) : result str :=
  match v with
  | VStr s => Ok s
  | _ => Raise (mkExn TypeError
           ("expected str, bytes or os.PathLike object, not " ++ type_name v))
  end.

(** [_load_validation_rules], on the configuration [__init__] has just
    loaded.  The [get] is outside the [try]. *)
Definition _load_validation_rules (config : pyval) : M pyval :=
  rules_path <- lift (method_get config "validation_rules_path"
                        (VStr "config/validation_rules.json")) ;;
  try_except (path <- lift (open_path rules_path) ;; load_json path)
    is_file_not_found
    (fun _ =>
       log_emit logger WARNING
         ("Validation rules file not found at " ++ py_str rules_path
          ++ ", using defaults") ;;;
       ret default_rules).

(** [SceneValidator(config_path)]. *)
Definition init (config_path : str) : M SceneValidator :=
  config <- _load_config config_path ;;
  validation_rules <- _load_validation_rules config ;;
  log_emit logger INFO "SceneValidator initialized" ;;;
  ret (mkValidator config validation_rules).

End Validator.
End Validator.

(** ** [gemini_integration.py] *)

Module Gemini.
Import Py Sys.
Section Gemini.
Context {FT : FloatType} {P : PyPrim}.

Definition logger : str := "gemini_integration".

Record GeminiAnalyzer := mkAnalyzer {
  api_key : pyval;
  model : str;
  base_url : str }.

(** [GeminiAnalyzer(api_key, model)]: the key is the argument when it is
    truthy, the environment variable [GEMINI_API_KEY] otherwise. *)
Definition init (key : option str) (model_name : str) : M GeminiAnalyzer :=
  k <- match key with
       | Some (c :: s) => ret (VStr (c :: s))
       | _ => environ_get "GEMINI_API_KEY"
       end ;;
  (if py_truth k then ret tt
   else log_emit logger WARNING
          "No Gemini API key provided. Set GEMINI_API_KEY env variable.") ;;;
  log_emit logger INFO ("Initialized Gemini analyzer with model: " ++ model_name) ;;;
  ret (mkAnalyzer k model_name
         ("https://generativelanguage.googleapis.com/v1beta/models/" ++ model_name)).

(** [l[-5:]]. *)
Definition last_five {A} (l : list A) : list A :=
  slice l (-5) (Z.of_nat (length l)).

Definition _create_dialogue_prompt (character current_dialogue : str)
    (previous_dialogues : list pyval) : str :=
  let previous_samples :=
    str_join "\n" (map (fun d => "- " ++ py_str d) (last_five previous_dialogues)) in
  ("
        As an expert in screenplay analysis, assess the dialogue consistency for the character ")
  ++ character
  ++ (".
        
        Previous dialogue examples:
        ")
  ++ previous_samples
  ++ ("
        
        Current dialogue:
        " ++ dq)
  ++ current_dialogue
  ++ (dq ++ "
        
        Please analyze if the current dialogue is consistent with the character's established voice, vocabulary, speech patterns, and personality traits.
        
        Provide your analysis in JSON format with the following structure:
        {
            " ++ dq ++ "is_consistent" ++ dq ++ ": true/false,
            " ++ dq ++ "confidence_score" ++ dq ++ ": (float between 0-1),
            " ++ dq ++ "inconsistency_reasons" ++ dq ++ ": [" ++ dq ++ "reason1" ++ dq ++ ", " ++ dq ++ "reason2" ++ dq ++ "],
            " ++ dq ++ "suggestions" ++ dq ++ ": [" ++ dq ++ "suggestion1" ++ dq ++ ", " ++ dq ++ "suggestion2" ++ dq ++ "]
        }
        ").

(** One line of the emotion history.  [e.get('emotion')] is [None] when
    the key is absent. *)
Definition emotion_line (e : pyval) : result str :=
  sid <~ method_get e "scene_id" (VStr "unknown") ;;
  emotion <~ method_get e "emotion" VNone ;;
  context <~ method_get e "context" (VStr "N/A") ;;
  Ok ("- Scene " ++ py_str sid ++ ": " ++ py_str emotion
      ++ " - Context: " ++ py_str context).

Fixpoint result_map {A B} (f : A -> result B) (l : list A) : result (list B) :=
  match l with
  | [] => Ok []
  | x :: r => y <~ f x ;; ys <~ result_map f r ;; Ok (y :: ys)
  end.

Definition _create_emotion_prompt (character current_emotion : str)
    (previous_emotions : list pyval) : result str :=
  lines <~ result_map emotion_line (last_five previous_emotions) ;;
  let emotion_history := str_join "\n" lines in
  Ok (("
        As an expert in character psychology and narrative continuity, assess the emotional continuity for the character ")
  ++ character
  ++ (".
        
        Previous emotional states:
        ")
  ++ emotion_history
  ++ ("
        
        Current emotional state:
        " ++ dq)
  ++ current_emotion
  ++ (dq ++ "
        
        Please analyze if the current emotional state is consistent with the character's emotional arc and if the transition from previous emotions is plausible.
        
        Provide your analysis in JSON format with the following structure:
        {
            " ++ dq ++ "is_consistent" ++ dq ++ ": true/false,
            " ++ dq ++ "confidence_score" ++ dq ++ ": (float between 0-1),
            " ++ dq ++ "inconsistency_reasons" ++ dq ++ ": [" ++ dq ++ "reason1" ++ dq ++ ", " ++ dq ++ "reason2" ++ dq ++ "],
            " ++ dq ++ "justification" ++ dq ++ ": " ++ dq ++ "explanation of your reasoning" ++ dq ++ ",
            " ++ dq ++ "suggestions" ++ dq ++ ": [" ++ dq ++ "suggestion1" ++ dq ++ ", " ++ dq ++ "suggestion2" ++ dq ++ "]
        }
        ")).

Definition scene_line (s : pyval) : result str :=
  sid <~ method_get s "scene_id" (VStr "unknown") ;;
  brief <~ method_get s "brief_description" (VStr "N/A") ;;
  Ok ("- Scene " ++ py_str sid ++ ": " ++ py_str brief).

Definition _create_narrative_prompt (scene_description : str)
    (previous_scenes : list pyval) : result str :=
  lines <~ result_map scene_line (last_five previous_scenes) ;;
  let scene_history := str_join "\n" lines in
  Ok (("
        As an expert in narrative structure and screenplay analysis, assess the narrative coherence of the following scene.
        
        Previous scenes:
        ")
  ++ scene_history
  ++ ("
        
        Current scene:
        " ++ dq)
  ++ scene_description
  ++ (dq ++ "
        
        Please analyze if the current scene maintains narrative coherence with the established story. Consider plot progression, character motivations, and logical continuity.
        
        Provide your analysis in JSON format with the following structure:
        {
            " ++ dq ++ "is_coherent" ++ dq ++ ": true/false,
            " ++ dq ++ "confidence_score" ++ dq ++ ": (float between 0-1),
            " ++ dq ++ "coherence_issues" ++ dq ++ ": [" ++ dq ++ "issue1" ++ dq ++ ", " ++ dq ++ "issue2" ++ dq ++ "],
            " ++ dq ++ "plot_continuity_score" ++ dq ++ ": (float between 0-1),
            " ++ dq ++ "character_motivation_score" ++ dq ++ ": (float between 0-1),
            " ++ dq ++ "logical_consistency_score" ++ dq ++ ": (float between 0-1),
            " ++ dq ++ "suggestions" ++ dq ++ ": [" ++ dq ++ "suggestion1" ++ dq ++ ", " ++ dq ++ "suggestion2" ++ dq ++ "]
        }
        ")).

(** The request body: the prompt and the fixed sampling parameters. *)
Definition request_data (prompt : str) : pyval :=
  VDict [
    (lit "contents",
     VList [VDict [(lit "parts", VList [VDict [(lit "text", VStr prompt)]])]]);
    (lit "generationConfig", VDict [
       (lit "temperature", VFloat (float_of_literal "0.2"));
       (lit "topP", VFloat (float_of_literal "0.8"));
       (lit "topK", VInt 40);
       (lit "maxOutputTokens", VInt 1024)])].

Definition is_request_exception (c : exn_class) : bool :=
  match c with RequestException => true | _ => false end.

Definition _call_gemini_api (self : GeminiAnalyzer) (prompt : str) : M pyval :=
  if negb (py_truth (api_key self)) then
    log_emit logger ERROR "Cannot call Gemini API: No API key provided" ;;;
    ret (VDict [(lit "error", VStr "No API key provided")])
  else
    try_except
      (http_post (base_url self ++ ":generateContent?key=" ++ py_str (api_key self))
         (request_data prompt))
      is_request_exception
      (fun e =>
         log_emit logger ERROR ("Error calling Gemini API: " ++ exn_msg e) ;;;
         ret (VDict [(lit "error", VStr (exn_msg e))])).

(** [o.find(sub)] and [o.rfind(sub)]: only a [str] has them. *)
Definition method_find (o : pyval) (sub : str) : result Z :=
  match o with
  | VStr s => Ok (str_find s sub)
  | _ => Raise (no_attribute o "find")
  end.

Definition method_rfind (o : pyval) (sub : str) : result Z :=
  match o with
  | VStr s => Ok (str_rfind s sub)
  | _ => Raise (no_attribute o "rfind")
  end.

(** The text of the first part of the first candidate, each level with
    its default. *)
Definition reply_text (response : pyval) : result pyval :=
  candidates <~ method_get response "candidates" (VList [VDict []]) ;;
  first <~ py_getitem candidates (VInt 0) ;;
  content <~ method_get first "content" (VDict []) ;;
  parts <~ method_get content "parts" (VList [VDict []]) ;;
  part <~ py_getitem parts (VInt 0) ;;
  method_get part "text" (VStr []).

(** The body of the [try] block of [_parse_dialogue_analysis]. *)
Definition parse_body (response : pyval) : result pyval :=
  has_error <~ str_in "error" response ;;
  if (has_error : bool) then
    err <~ py_getitem response (VStr "error") ;;
    Ok (VDict [(lit "success", VBool false); (lit "error", err)])
  else
    text <~ reply_text response ;;
    json_start <~ method_find text "{" ;;
    last <~ method_rfind text "}" ;;
    let json_end := (last + 1)%Z in
    if (0 <=? json_start)%Z && (json_start <? json_end)%Z then
      match text with
      | VStr t =>
          analysis <~ Json.loads (slice t json_start json_end) ;;
          py_setitem analysis "success" (VBool true)
      | _ => Raise (no_attribute text "find")
      end
    else
      Ok (VDict [(lit "success", VBool false);
                 (lit "error", VStr "Could not extract JSON from response");
                 (lit "raw_response", text)]).

Definition _parse_dialogue_analysis (response : pyval) : M pyval :=
  try_except (lift (parse_body response)) any_exception
    (fun e =>
       log_emit logger ERROR ("Error parsing dialogue analysis: " ++ exn_msg e) ;;;
       ret (VDict [(lit "success", VBool false);
                   (lit "error", VStr (exn_msg e));
                   (lit "raw_response", response)])).

Definition _parse_emotion_analysis (response : pyval) : M pyval :=
  _parse_dialogue_analysis response.

Definition _parse_narrative_analysis (response : pyval) : M pyval :=
  _parse_dialogue_analysis response.

Definition analyze_dialogue_consistency (self : GeminiAnalyzer)
    (character current_dialogue : str) (previous_dialogues : list pyval) : M pyval :=
  let prompt := _create_dialogue_prompt character current_dialogue previous_dialogues in
  response <- _call_gemini_api self prompt ;;
  _parse_dialogue_analysis response.

Definition analyze_emotional_continuity (self : GeminiAnalyzer)
    (character current_emotion : str) (previous_emotions : list pyval) : M pyval :=
  prompt <- lift (_create_emotion_prompt character current_emotion previous_emotions) ;;
  response <- _call_gemini_api self prompt ;;
  _parse_emotion_analysis response.

Definition analyze_scene_narrative (self : GeminiAnalyzer)
    (scene_description : str) (previous_scenes : list pyval) : M pyval :=
  prompt <- lift (_create_narrative_prompt scene_description previous_scenes) ;;
  response <- _call_gemini_api self prompt ;;
  _parse_narrative_analysis response.

End Gemini.
End Gemini.

(** ** [trigger.py] *)

Module Trigger.
Import Py Sys.
Section Trigger.
Context {FT : FloatType} {P : PyPrim}.

Definition logger : str := "scene_validator_trigger".

(** A [SceneValidatorTrigger]: its configuration, its validator and the
    cursor [last_check_time]. *)
Record SceneValidatorTrigger := mkTrigger {
  config : pyval;
  validator : Validator.SceneValidator;
  last_check_time : datetime }.

(** [self.config.get("trigger", {}).get(key, default)]. *)
Definition trigger_setting (self : SceneValidatorTrigger) (key : str)
    (default : pyval) : result pyval :=
  section <~ method_get (config self) "trigger" (VDict []) ;;
  method_get section key default.

(** A directory or a pattern of the configuration: the file system
    functions take a [str]. *)
Definition as_path (v : pyval) : result str :=
  match v with
  | VStr s => Ok s
  | _ => Raise (mkExn TypeError
           ("expected str, bytes or os.PathLike object, not " ++ type_name v))
  end.

(** [any(file_path.match(ignore) for ignore in ...)]: the patterns after
    the first match are not looked at. *)
Fixpoint any_match (file_path : str) (ignores : list pyval) : result bool :=
  match ignores with
  | [] => Ok false
  | ignore :: rest =>
      pat <~ as_path ignore ;;
      if path_match file_path pat then Ok true else any_match file_path rest
  end.

(** What the scan does with one file: skipped when ignored, recorded when
    its modification time is later than the cursor. *)
Definition scan_file (self : SceneValidatorTrigger) (ignore_patterns : pyval)
    (modified_files : list pyval) (file_path : str) : M (list pyval) :=
  ignores <- lift (py_iter ignore_patterns) ;;
  ignored <- lift (any_match file_path ignores) ;;
  if (ignored : bool) then ret modified_files
  else
    mod_time <- (fun w => (w_mtime w file_path, w)) ;;
    if dt_gtb mod_time (last_check_time self) then
      log_emit logger INFO ("Found modified file: " ++ file_path) ;;;
      ret (modified_files ++
             [VDict [(lit "path", VStr file_path);
                     (lit "modified_time", VStr (isoformat mod_time))]])
    else ret modified_files.

Definition scan_pattern (self : SceneValidatorTrigger) (directory : str)
    (ignore_patterns : pyval) (modified_files : list pyval)
    (pattern : pyval) : M (list pyval) :=
  pat <- lift (as_path pattern) ;;
  files <- (fun w => (Ok (w_glob w directory pat), w)) ;;
  foldM (scan_file self ignore_patterns) files modified_files.

Definition scan_directory (self : SceneValidatorTrigger)
    (patterns ignore_patterns : pyval) (modified_files : list pyval)
    (directory : pyval) : M (list pyval) :=
  dir <- lift (as_path directory) ;;
  present <- (fun w => (Ok (w_exists w dir), w)) ;;
  if (present : bool) then
    pats <- lift (py_iter patterns) ;;
    foldM (scan_pattern self dir ignore_patterns) pats modified_files
  else
    log_emit logger WARNING ("Watch directory does not exist: " ++ dir) ;;;
    ret modified_files.

(** [watch_directories]: the files found and the trigger with its cursor
    moved to the clock reading taken after the scan. *)
Definition watch_directories (self : SceneValidatorTrigger)
    : M (list pyval * SceneValidatorTrigger) :=
  watch_dirs <- lift (trigger_setting self "watch_directories"
                        (VList [VStr "data/scenes"])) ;;
  patterns <- lift (trigger_setting self "watch_file_patterns"
                      (VList [VStr "*.json"; VStr "*.xml"])) ;;
  ignore_patterns <- lift (trigger_setting self "ignore_patterns" (VList [])) ;;
  dirs <- lift (py_iter watch_dirs) ;;
  modified_files <- foldM (scan_directory self patterns ignore_patterns) dirs [] ;;
  now <- datetime_now ;;
  ret (modified_files, mkTrigger (config self) (validator self) now).

Definition _send_notification (results : pyval) (report_path : str) : M unit :=
  scene_id <- lift (method_get results "scene_id" (VStr "unknown")) ;;
  is_valid <- lift (method_get results "valid" (VBool false)) ;;
  errors <- lift (method_get results "errors" (VList [])) ;;
  error_items <- lift (py_iter errors) ;;
  warnings <- lift (method_get results "warnings" (VList [])) ;;
  warning_items <- lift (py_iter warnings) ;;
  log_emit logger INFO
    ("NOTIFICATION: Scene " ++ py_str scene_id ++ " validation completed") ;;;
  log_emit logger INFO
    ("NOTIFICATION: Valid: " ++ py_str is_valid
     ++ ", Errors: " ++ str_of_Z (Z.of_nat (length error_items))
     ++ ", Warnings: " ++ str_of_Z (Z.of_nat (length warning_items))) ;;;
  log_emit logger INFO ("NOTIFICATION: Report available at: " ++ report_path).

(** The body of the [try] block of [process_scene_file]. *)
Definition process_body (self : SceneValidatorTrigger) (file_path : str) : M pyval :=
  text <- (fun w => (w_read w file_path, w)) ;;
  scene_data <- lift (Json.loads text) ;;
  let report_dir : str := "reports" in
  makedirs report_dir ;;;
  scene_id <- lift (method_get scene_data "scene_id" (VStr "unknown")) ;;
  now <- datetime_now ;;
  let report_path :=
    report_dir ++ "/" ++ "validation_" ++ py_str scene_id ++ "_"
    ++ strftime_compact now ++ ".html" in
  results <- Validator.validate_scene (validator self) scene_data ;;
  report <- Validator.generate_report (validator self) results (Some report_path) ;;
  notify <- lift (trigger_setting self "notification_on_validation" (VBool true)) ;;
  (if py_truth notify then _send_notification results report_path else ret tt) ;;;
  log_emit logger INFO ("Processed scene file: " ++ file_path) ;;;
  log_emit logger INFO ("Validation report saved to: " ++ report_path) ;;;
  valid <- lift (method_get results "valid" (VBool false)) ;;
  errors <- lift (method_get results "errors" (VList [])) ;;
  error_items <- lift (py_iter errors) ;;
  warnings <- lift (method_get results "warnings" (VList [])) ;;
  warning_items <- lift (py_iter warnings) ;;
  ret (VDict [(lit "success", VBool true);
              (lit "scene_id", scene_id);
              (lit "valid", valid);
              (lit "report_path", VStr report_path);
              (lit "error_count", VInt (Z.of_nat (length error_items)));
              (lit "warning_count", VInt (Z.of_nat (length warning_items)))]).

Definition process_scene_file (self : SceneValidatorTrigger) (file_path : str)
    : M pyval :=
  try_except (process_body self file_path) any_exception
    (fun e =>
       log_emit logger ERROR
         ("Error processing scene file " ++ file_path ++ ": " ++ exn_msg e) ;;;
       ret (VDict [(lit "success", VBool false);
                   (lit "error", VStr (exn_msg e));
                   (lit "file_path", VStr file_path)])).

(** *** Construction *)

Definition _load_config (config_path : str) : M pyval :=
  try_except (Validator.load_json config_path) Validator.is_file_not_found
    (fun _ =>
       log_emit logger WARNING
         ("Config file not found at " ++ config_path ++ ", using defaults") ;;;
       ret (VDict [(lit "trigger", VDict [
              (lit "watch_interval_seconds", VInt 60);
              (lit "watch_directories", VList [VStr "data/scenes"]);
              (lit "watch_file_patterns", VList [VStr "*.json"; VStr "*.xml"]);
              (lit "ignore_patterns", VList [VStr "*_temp.json"; VStr "*.bak"]);
              (lit "trigger_on_metadata_change", VBool true);
              (lit "notification_on_validation", VBool true)])])).

(** [SceneValidatorTrigger(config_path)]: the validator reads the same
    file again. *)
Definition init (config_path : str) : M SceneValidatorTrigger :=
  config <- _load_config config_path ;;
  validator <- Validator.init config_path ;;
  last_check_time <- datetime_now ;;
  log_emit logger INFO "SceneValidatorTrigger initialized" ;;;
  ret (mkTrigger config validator last_check_time).

End Trigger.
End Trigger.

(** ** [api.py]

    The web framework is outside the model: an endpoint is the function
    the framework calls, [request.json] is its outcome (the parsed body,
    or the error the framework raises for a body it cannot read) and a
    response is the status with the value [jsonify] is given. *)

Module Api.
Import Py Sys.
Section Api.
Context {FT : FloatType} {P : PyPrim}.

Definition logger : str := "scene_validator_api".

Record response := mkResponse { status : Z; body : pyval }.

(** [jsonify(x)] and [jsonify(x), code]. *)
Definition jsonify (x : pyval) : response := mkResponse 200 x.
Definition jsonify_with (x : pyval) (code : Z) : response := mkResponse code x.

Definition health_check : response :=
  jsonify (VDict [(lit "status", VStr "healthy");
                  (lit "service", VStr "SceneValidator API");
                  (lit "version", VStr "1.0.0")]).

Definition validate_scene (validator : Validator.SceneValidator)
    (request_json : result pyval) : M response :=
  try_except
    (scene_data <- lift request_json ;;
     if negb (py_truth scene_data) then
       ret (jsonify_with (VDict [(lit "error", VStr "No scene data provided")]) 400)
     else
       results <- Validator.validate_scene validator scene_data ;;
       ret (jsonify results))
    any_exception
    (fun e =>
       log_emit logger ERROR ("Error validating scene: " ++ exn_msg e) ;;;
       ret (jsonify_with (VDict [(lit "error", VStr (exn_msg e))]) 500)).

(** [isinstance(v, list)]. *)
Definition is_list (v : pyval) : bool :=
  match v with VList _ => true | _ => false end.

Definition validate_project (validator : Validator.SceneValidator)
    (request_json : result pyval) : M response :=
  try_except
    (project_data <- lift request_json ;;
     if negb (py_truth project_data) || negb (is_list project_data) then
       ret (jsonify_with
              (VDict [(lit "error",
                       VStr "Invalid project data. Expected array of scenes")])
              400)
     else
       scenes <- lift (py_iter project_data) ;;
       results <- Validator.validate_project validator scenes ;;
       ret (jsonify results))
    any_exception
    (fun e =>
       log_emit logger ERROR ("Error validating project: " ++ exn_msg e) ;;;
       ret (jsonify_with (VDict [(lit "error", VStr (exn_msg e))]) 500)).

(** [o.items()]: only a [dict] has it. *)
Definition method_items (o : pyval) : result (list (str * pyval)) :=
  match o with
  | VDict d => Ok d
  | _ => Raise (no_attribute o "items")
  end.

(** [{k: v for k, v in validator.config.items() if k not in ['api_key']}]. *)
Definition get_config (validator : Validator.SceneValidator) : result response :=
  items <~ method_items (Validator.config validator) ;;
  let safe_config :=
    filter (fun kv => negb (existsb (str_eqb (fst kv)) [lit "api_key"])) items in
  Ok (jsonify (VDict safe_config)).

Definition get_validation_rules (validator : Validator.SceneValidator) : response :=
  jsonify (Validator.validation_rules validator).

Definition get_report_formats (validator : Validator.SceneValidator)
    : result response :=
  default_format <~ method_get (Validator.config validator) "report_format"
                      (VStr "html") ;;
  Ok (jsonify (VDict [(lit "available_formats", VList [VStr "html"; VStr "json"]);
                      (lit "default_format", default_format)])).

End Api.
End Api.

(** ** An interpreter to run the model on

    The interface [PyPrim] is inhabited: the floats are the integral ones
    with the three special values, [repr] of a [str] puts it between
    single quotes, [lower] acts on the ASCII letters, a pattern [*suffix]
    matches the paths that end in [suffix], and no format spec is
    accepted.  The concrete runs below use it. *)

Module Toy.
Import Py.

Inductive zfloat := ZNan | ZPosInf | ZNegInf | ZFin (z : Z).

Definition zfloat_repr (f : zfloat) : str :=
  match f with
  | ZNan => "nan"
  | ZPosInf => "inf"
  | ZNegInf => "-inf"
  | ZFin z => str_of_Z z ++ ".0"
  end.

(** The sign and digits a number token starts with. *)
Fixpoint integral_part (s : str) : str :=
  match s with
  | c :: s' => if (c =? 45)%N || is_digit c then c :: integral_part s' else []
  | [] => []
  end.

Definition ascii_lower (c : N) : N :=
  if (65 <=? c)%N && (c <=? 90)%N then (c + 32)%N else c.

Fixpoint suffixb (suf s : str) : bool :=
  str_eqb suf s || match s with [] => false | _ :: s' => suffixb suf s' end.

#[global] Instance float_type : FloatType := zfloat.

#[global] Instance prim : PyPrim := {|
  float_truth := fun f => match f with ZFin z => negb (z =? 0)%Z | _ => true end;
  float_classify := fun f => match f with
                             | ZNan => FNan
                             | ZPosInf => FPosInf
                             | ZNegInf => FNegInf
                             | ZFin _ => FFinite
                             end;
  float_repr := zfloat_repr;
  float_of_literal := fun s => ZFin (Z_of_str (integral_part s));
  float_nan := ZNan;
  float_inf := ZPosInf;
  float_neg_inf := ZNegInf;
  str_repr := fun s => "'" ++ s ++ "'";
  str_lower := map ascii_lower;
  path_match := fun p pat => match pat with
                             | 42%N :: suf => suffixb suf p
                             | _ => str_eqb p pat
                             end;
  format_ext := fun _ _ _ _ => Raise (mkExn ValueError "Invalid format specifier")
|}.

Import Sys.

Definition noon : datetime := mkDatetime 2024 1 2 12 0 0 0.
Definition later : datetime := mkDatetime 2024 1 2 12 0 0 7.

(** A world with an empty file system and no network; the clock reads
    [noon] first and [later] from then on. *)
Definition world0 : world :=
  mkWorld (fun n => match n with O => noon | _ => later end) 0 []
    (fun _ => None) (fun _ => false) (fun _ _ => [])
    (fun _ => Raise (mkExn FileNotFoundError []))
    (fun _ => Raise (mkExn FileNotFoundError []))
    (fun _ => true) (fun _ => true) []
    (fun _ => Raise (mkExn RequestException [])) [].

(** A validator with the default rules and the given report format. *)
Definition validator_with (report_format : str) : Validator.SceneValidator :=
  Validator.mkValidator (VDict [(lit "report_format", VStr report_format)])
    Validator.default_rules.

(** The scene of the specification's scenario: no [location]. *)
Definition scene_S1 : pyval :=
  VDict [(lit "scene_id", VStr "S1"); (lit "timestamp", VStr "t")].

(** The same scene as the text of a file. *)
Definition scene_S1_text : str :=
  "{" ++ dq ++ "scene_id" ++ dq ++ ": " ++ dq ++ "S1" ++ dq ++ ", "
  ++ dq ++ "timestamp" ++ dq ++ ": " ++ dq ++ "t" ++ dq ++ "}".

Definition new_year : datetime := mkDatetime 2024 1 1 0 0 0 0.
Definition morning : datetime := mkDatetime 2024 1 2 8 0 0 0.
Definition future : datetime := mkDatetime 2030 1 1 0 0 0 0.

Definition scene_path : str := "data/scenes/a.json".

(** A world whose watched directory holds one scene file, last modified
    at [mtime]. *)
Definition world_watched (mtime : datetime) : world :=
  mkWorld (fun n => match n with O => noon | _ => later end) 0 []
    (fun _ => None)
    (fun p => str_eqb p "data/scenes")
    (fun dir pat => if str_eqb dir "data/scenes" && str_eqb pat "*.json"
                    then [scene_path] else [])
    (fun p => if str_eqb p scene_path then Ok mtime
              else Raise (mkExn FileNotFoundError p))
    (fun p => if str_eqb p scene_path then Ok scene_S1_text
              else Raise (mkExn FileNotFoundError p))
    (fun _ => true) (fun _ => true) []
    (fun _ => Raise (mkExn RequestException [])) [].

(** A trigger with the default settings, an HTML report and the given
    cursor. *)
Definition trigger_at (cursor : datetime) : Trigger.SceneValidatorTrigger :=
  Trigger.mkTrigger (VDict []) (validator_with "html") cursor.

(** The entry a scan makes for the scene file. *)
Definition entry_at (mtime : datetime) : pyval :=
  VDict [(lit "path", VStr scene_path);
         (lit "modified_time", VStr (isoformat mtime))].

End Toy.

(** * Properties *)

(** ** Text and dictionaries *)

Module TextFacts.
Import Py.

Lemma str_eqb_refl (s : str) : str_eqb s s = true.
Proof.
  induction s as [|c s IH]; simpl; [reflexivity|].
  now rewrite N.eqb_refl, IH.
Qed.

Lemma str_eqb_eq (a b : str) : str_eqb a b = true <-> a = b.
Proof.
  split.
  - revert b; induction a as [|x a IH]; intros [|y b]; simpl; try discriminate; auto.
    intros H. apply andb_true_iff in H as [H1 H2].
    apply N.eqb_eq in H1. f_equal; auto.
  - intros ->. apply str_eqb_refl.
Qed.

Lemma str_eqb_neq (a b : str) : str_eqb a b = false <-> a <> b.
Proof.
  rewrite <- str_eqb_eq. destruct (str_eqb a b); split; congruence.
Qed.

End TextFacts.

(** ** The validator *)

Module ValidatorFacts.
Import Py Sys Validator TextFacts.
Section Facts.
Context {FT : FloatType} {P : PyPrim}.

(** The [SceneResult] of the data model, as the dictionary the validator
    builds. *)
Definition scene_result (sid : pyval) (ts : str) (ok : bool)
    (errors : list pyval) : pyval :=
  VDict [(lit "scene_id", sid);
         (lit "timestamp", VStr ts);
         (lit "valid", VBool ok);
         (lit "errors", VList errors);
         (lit "warnings", VList []);
         (lit "suggestions", VList [])].

Definition missing_message (field : pyval) : pyval :=
  VStr ("Missing required metadata: " ++ py_str field).

(** The loop over the required fields, on the two entries it changes. *)
Fixpoint scan_fields (scene_data : pyval) (fields : list pyval) (ok : bool)
    (errors : list pyval) : result (bool * list pyval) :=
  match fields with
  | [] => Ok (ok, errors)
  | f :: rest =>
      missing <~ field_missing scene_data f ;;
      if (missing : bool)
      then scan_fields scene_data rest false (errors ++ [missing_message f])
      else scan_fields scene_data rest ok errors
  end.

Lemma check_field_shape sd sid ts ok es field :
  check_field sd (scene_result sid ts ok es) field =
  (missing <~ field_missing sd field ;;
   Ok (if (missing : bool)
       then scene_result sid ts false (es ++ [missing_message field])
       else scene_result sid ts ok es)).
Proof.
  unfold check_field.
  destruct (field_missing sd field) as [[|]|e]; reflexivity.
Qed.

Lemma for_each_shape sd fields : forall sid ts ok es,
  for_each (check_field sd) fields (scene_result sid ts ok es) =
  (r <~ scan_fields sd fields ok es ;;
   Ok (scene_result sid ts (fst r) (snd r))).
Proof.
  induction fields as [|f rest IH]; intros sid ts ok es; simpl for_each; simpl scan_fields.
  - reflexivity.
  - rewrite check_field_shape.
    destruct (field_missing sd f) as [[|]|e]; simpl rbind; [apply IH|apply IH|reflexivity].
Qed.


(** The required fields as the loop of [validate_scene] gets them. *)
Definition required_fields (rules : pyval) : result (list pyval) :=
  structure <~ py_getitem rules (VStr "scene_structure") ;;
  required <~ py_getitem structure (VStr "required_metadata") ;;
  py_iter required.

Definition log_start (sid : pyval) : log_record :=
  mkLog logger INFO ("Validating scene: " ++ py_str sid).

Definition log_done (sid : pyval) : log_record :=
  mkLog logger INFO ("Validation complete for scene: " ++ py_str sid).

(** The world after the first log record and the clock reading. *)
Definition started (sid : pyval) (w : world) : world :=
  with_tick (S (w_tick w)) (with_log (w_log w ++ [log_start sid]) w).

(** The world after a call that returns. *)
Definition finished (sid : pyval) (w : world) : world :=
  with_log (w_log w ++ [log_start sid; log_done sid])
    (with_tick (S (w_tick w)) w).

(** [validate_scene] in one piece: the only thing it reads from the world
    is one clock reading, and it changes the log and the tick only. *)
Lemma validate_scene_unfold self sd w :
  validate_scene self sd w =
  match method_get sd "scene_id" (VStr "unknown") with
  | Raise e => (Raise e, w)
  | Ok sid =>
      match (fields <~ required_fields (validation_rules self) ;;
             scan_fields sd fields true []) with
      | Raise e => (Raise e, started sid w)
      | Ok r =>
          (Ok (scene_result sid (isoformat (w_clock w (w_tick w))) (fst r) (snd r)),
           finished sid w)
      end
  end.
Proof.
  unfold validate_scene, required_fields, bind, lift, log_emit, datetime_now, ret.
  destruct (method_get sd "scene_id" (VStr "unknown")) as [sid|e]; [|reflexivity].
  cbn [w_clock w_tick with_log with_tick].
  destruct (py_getitem (validation_rules self) (VStr "scene_structure")) as [st|e];
    cbn [rbind]; [|reflexivity].
  destruct (py_getitem st (VStr "required_metadata")) as [rq|e];
    cbn [rbind]; [|reflexivity].
  destruct (py_iter rq) as [fields|e]; cbn [rbind]; [|reflexivity].
  fold (scene_result sid (isoformat (w_clock w (w_tick w))) true []).
  rewrite for_each_shape.
  destruct (scan_fields sd fields true []) as [r|e]; [|reflexivity].
  cbn [rbind]. unfold finished, log_start, log_done, with_log, with_tick.
  cbn [w_clock w_tick w_log w_environ w_exists w_glob w_mtime w_read
       w_makedirs w_writable w_written w_post w_sent].
  rewrite <- app_assoc. reflexivity.
Qed.


(** A scene lacks a field when it has no such key or binds it to a falsy
    value. *)
Definition absent (d : dict) (field : str) : bool :=
  match dict_lookup field d with
  | Some x => negb (py_truth x)
  | None => true
  end.

(** One message for each required field the scene lacks, in the order of
    the rules. *)
Definition missing_errors (d : dict) (fields : list str) : list pyval :=
  map (fun f => VStr ("Missing required metadata: " ++ f)) (filter (absent d) fields).

Definition no_errors (errors : list pyval) : bool :=
  match errors with [] => true | _ => false end.

(** The rules are a mapping whose [scene_structure] has the list [fields]
    of field names as its [required_metadata]. *)
Definition requires (rules : pyval) (fields : list str) : Prop :=
  exists structure,
    py_getitem rules (VStr "scene_structure") = Ok structure /\
    py_getitem structure (VStr "required_metadata") = Ok (VList (map VStr fields)).

Lemma requires_fields rules fields :
  requires rules fields -> required_fields rules = Ok (map VStr fields).
Proof.
  intros (st & H1 & H2). unfold required_fields. now rewrite H1; cbn [rbind]; rewrite H2.
Qed.

Lemma field_missing_dict d f : field_missing (VDict d) (VStr f) = Ok (absent d f).
Proof.
  unfold field_missing, dict_contains, dict_getitem, dict_mem, absent.
  destruct (dict_lookup f d); reflexivity.
Qed.

Lemma scan_fields_dict d fields : forall ok es,
  scan_fields (VDict d) (map VStr fields) ok es =
  Ok (ok && negb (existsb (absent d) fields), es ++ missing_errors d fields).
Proof.
  unfold missing_errors.
  induction fields as [|f rest IH]; intros ok es; cbn [map scan_fields existsb filter].
  - now rewrite andb_true_r, app_nil_r.
  - rewrite field_missing_dict. cbn [rbind].
    destruct (absent d f); rewrite IH; cbn [map orb negb].
    + now rewrite andb_false_r, <- app_assoc.
    + reflexivity.
Qed.

Lemma no_errors_missing d fields :
  no_errors (missing_errors d fields) = negb (existsb (absent d) fields).
Proof.
  unfold missing_errors.
  induction fields as [|f rest IH]; cbn [filter existsb map]; [reflexivity|].
  destruct (absent d f); cbn; [reflexivity|exact IH].
Qed.

(** The scene id a result carries: the scene's own, or ["unknown"]. *)
Definition scene_id_of (d : dict) : pyval :=
  match dict_lookup "scene_id" d with
  | Some x => x
  | None => VStr "unknown"
  end.

Lemma validate_scene_dict self d fields w :
  requires (validation_rules self) fields ->
  validate_scene self (VDict d) w =
  (Ok (scene_result (scene_id_of d) (isoformat (w_clock w (w_tick w)))
         (no_errors (missing_errors d fields)) (missing_errors d fields)),
   finished (scene_id_of d) w).
Proof.
  intros Hreq. rewrite validate_scene_unfold.
  cbn [method_get]. fold (scene_id_of d).
  rewrite (requires_fields _ _ Hreq). cbn [rbind].
  rewrite scan_fields_dict. cbn [fst snd app andb].
  now rewrite no_errors_missing.
Qed.


Definition is_object (v : pyval) : bool :=
  match v with VDict _ => true | _ => false end.

Lemma validate_scene_not_object self v w :
  is_object v = false ->
  validate_scene self v w = (Raise (no_attribute v "get"), w).
Proof.
  intros H. rewrite validate_scene_unfold.
  destruct v; try reflexivity; discriminate.
Qed.

Lemma scene_result_getitem sid ts1 ts2 ok es k :
  k <> lit "timestamp" ->
  py_getitem (scene_result sid ts1 ok es) (VStr k) =
  py_getitem (scene_result sid ts2 ok es) (VStr k).
Proof.
  intros Hk. apply str_eqb_neq in Hk.
  unfold scene_result, py_getitem, dict_getitem. cbn [dict_lookup].
  rewrite Hk. reflexivity.
Qed.

(** *** Projects *)

(** The [ProjectResult] of the data model, as the dictionary the
    validator builds. *)
Definition project_result (pid : pyval) (ts : str) (count valid invalid : Z)
    (results : list pyval) : pyval :=
  VDict [(lit "project_id", pid);
         (lit "timestamp", VStr ts);
         (lit "scene_count", VInt count);
         (lit "valid_scenes", VInt valid);
         (lit "invalid_scenes", VInt invalid);
         (lit "scene_results", VList results);
         (lit "project_level_issues", VList [])].

(** Running [f] over a list, one call after the other in the same world. *)
Fixpoint mapM {A B} (f : A -> M B) (l : list A) : M (list B) :=
  match l with
  | [] => ret []
  | x :: l' => y <- f x ;; ys <- mapM f l' ;; ret (y :: ys)
  end.

(** The [valid] flag of a scene result. *)
Definition result_valid (r : pyval) : bool :=
  match py_getitem r (VStr "valid") with
  | Ok v => py_truth v
  | Raise _ => false
  end.

Definition count_valid (rs : list pyval) : nat := length (filter result_valid rs).
Definition count_invalid (rs : list pyval) : nat :=
  length (filter (fun r => negb (result_valid r)) rs).

Lemma count_valid_invalid rs : count_valid rs + count_invalid rs = length rs.
Proof.
  unfold count_valid, count_invalid.
  induction rs as [|r rs IH]; cbn [filter length]; [reflexivity|].
  destruct (result_valid r); cbn [negb length]; lia.
Qed.

Lemma count_valid_one sid ts ok es :
  count_valid [scene_result sid ts ok es] = (if ok then 1 else 0)%nat /\
  count_invalid [scene_result sid ts ok es] = (if ok then 0 else 1)%nat.
Proof. destruct ok; split; reflexivity. Qed.

Lemma tally_scene_dict self fields pid ts n v i rs d w :
  requires (validation_rules self) fields ->
  exists r w',
    validate_scene self (VDict d) w = (Ok r, w') /\
    tally_scene self (project_result pid ts n v i rs) (VDict d) w =
    (Ok (project_result pid ts n
           (v + Z.of_nat (count_valid [r])) (i + Z.of_nat (count_invalid [r]))
           (rs ++ [r])), w').
Proof.
  intros Hreq. eexists; eexists. split; [apply (validate_scene_dict _ _ _ _ Hreq)|].
  unfold tally_scene, bind. rewrite (validate_scene_dict _ _ _ _ Hreq).
  destruct (count_valid_one (scene_id_of d) (isoformat (w_clock w (w_tick w)))
              (no_errors (missing_errors d fields)) (missing_errors d fields))
    as [-> ->].
  destruct (no_errors (missing_errors d fields)); cbn [Z.of_nat];
    rewrite Z.add_0_r; reflexivity.
Qed.

Lemma foldM_tally self fields :
  requires (validation_rules self) fields ->
  forall scenes, Forall (fun s => is_object s = true) scenes ->
  forall pid ts n v i rs w,
  exists rs' w',
    mapM (validate_scene self) scenes w = (Ok rs', w') /\
    foldM (tally_scene self) scenes (project_result pid ts n v i rs) w =
    (Ok (project_result pid ts n
           (v + Z.of_nat (count_valid rs')) (i + Z.of_nat (count_invalid rs'))
           (rs ++ rs')), w').
Proof.
  intros Hreq scenes Hall.
  induction Hall as [|s scenes Hs Hall IH]; intros pid ts n v i rs w.
  - exists [], w. split; [reflexivity|].
    cbn. now rewrite !Z.add_0_r, app_nil_r.
  - destruct s as [| | | | | |d]; try discriminate.
    destruct (tally_scene_dict self fields pid ts n v i rs d w Hreq)
      as (r & w1 & Hr & Ht).
    destruct (IH pid ts n (v + Z.of_nat (count_valid [r]))%Z
                (i + Z.of_nat (count_invalid [r]))%Z (rs ++ [r]) w1)
      as (rs' & w' & Hm & Hf).
    exists (r :: rs'), w'. split.
    + cbn [mapM]. unfold bind. rewrite Hr, Hm. reflexivity.
    + cbn [foldM]. unfold bind at 1. rewrite Ht, Hf.
      rewrite <- app_assoc. cbn [app].
      unfold count_valid, count_invalid. cbn [filter].
      assert (Hext : forall a a' b b' : Z, a = a' -> b = b' ->
                project_result pid ts n a b (rs ++ r :: rs') =
                project_result pid ts n a' b' (rs ++ r :: rs'))
        by (intros; subst; reflexivity).
      do 2 f_equal. apply Hext;
        destruct (result_valid r); cbn [negb length filter]; lia.
Qed.


Lemma mapM_length {A B} (f : A -> M B) l : forall w rs w',
  mapM f l w = (Ok rs, w') -> length rs = length l.
Proof.
  induction l as [|x l IH]; intros w rs w' H; cbn [mapM] in H.
  - inversion H; reflexivity.
  - unfold bind at 1 in H. destruct (f x w) as [[y|e] w1]; [|discriminate].
    unfold bind in H. destruct (mapM f l w1) as [[ys|e] w2] eqn:E; [|discriminate].
    inversion H; subst. cbn [length]. f_equal. eapply IH; eauto.
Qed.

Lemma mapM_nth {A B} (f : A -> M B) l : forall w rs w',
  mapM f l w = (Ok rs, w') ->
  forall i x, nth_error l i = Some x ->
  exists r wi, nth_error rs i = Some r /\ fst (f x wi) = Ok r.
Proof.
  induction l as [|x l IH]; intros w rs w' H i a Hi.
  - destruct i; discriminate.
  - cbn [mapM] in H. unfold bind at 1 in H.
    destruct (f x w) as [[y|e] w1] eqn:Ef; [|discriminate].
    unfold bind in H. destruct (mapM f l w1) as [[ys|e] w2] eqn:E; [|discriminate].
    inversion H; subst. destruct i as [|i]; cbn [nth_error] in *.
    + inversion Hi; subst. exists y, w. now rewrite Ef.
    + eapply IH; eauto.
Qed.

(** The project id a result carries: the first scene's own, or
    ["unknown"]. *)
Definition project_id_of (scenes : list pyval) : pyval :=
  match scenes with
  | VDict d :: _ =>
      match dict_lookup "project_id" d with
      | Some x => x
      | None => VStr "unknown"
      end
  | _ => VStr "unknown"
  end.

(** The world after the first log record of [validate_project] and its
    clock reading. *)
Definition project_started (n : nat) (w : world) : world :=
  with_tick (S (w_tick w))
    (with_log (w_log w ++
                 [mkLog logger INFO
                    ("Validating project with " ++ str_of_Z (Z.of_nat n) ++ " scenes")])
       w).

Lemma validate_project_objects self scenes fields w :
  requires (validation_rules self) fields ->
  Forall (fun s => is_object s = true) scenes ->
  exists rs w1 w',
    mapM (validate_scene self) scenes (project_started (length scenes) w) = (Ok rs, w1) /\
    validate_project self scenes w =
    (Ok (project_result (project_id_of scenes)
           (isoformat (w_clock w (w_tick w)))
           (Z.of_nat (length scenes))
           (Z.of_nat (count_valid rs)) (Z.of_nat (count_invalid rs)) rs), w').
Proof.
  intros Hreq Hall.
  destruct (foldM_tally self fields Hreq scenes Hall (project_id_of scenes)
              (isoformat (w_clock w (w_tick w))) (Z.of_nat (length scenes)) 0%Z 0%Z []
              (project_started (length scenes) w)) as (rs & w1 & Hm & Hf).
  exists rs, w1. eexists. split; [exact Hm|].
  unfold validate_project.
  unfold bind at 1. unfold log_emit at 1.
  assert (Hpid :
    forall w0, match scenes with
     | [] => ret (VStr "unknown")
     | first :: _ => lift (method_get first "project_id" (VStr "unknown"))
     end w0 = (Ok (project_id_of scenes), w0)).
  { intros w0. destruct Hall as [|s l Hs _]; [reflexivity|].
    destruct s; try discriminate. reflexivity. }
  unfold bind at 1. rewrite Hpid.
  unfold bind at 1. unfold datetime_now at 1.
  cbn [w_clock w_tick with_log].
  unfold bind at 1.
  change (with_tick _ _) with (project_started (length scenes) w).
  fold (project_result (project_id_of scenes) (isoformat (w_clock w (w_tick w)))
          (Z.of_nat (length scenes)) 0 0 []).
  rewrite Hf. cbn [app Z.add].
  unfold bind, lift, log_emit, ret. cbn [py_getitem project_result dict_getitem].
  reflexivity.
Qed.

(** C1.  For rules whose [required_metadata] is the list [fields] and a
    scene object [d], [validate_scene] returns a result whose [errors]
    holds one entry ["Missing required metadata: <field>"] for each field
    of [fields] that [d] lacks or binds to a falsy value, in the order of
    [fields], and whose [valid] flag is true exactly when [errors] is
    empty. *)
Theorem validate_scene_missing_fields self d fields w :
  requires (validation_rules self) fields ->
  let errors :=
    map (fun f => VStr ("Missing required metadata: " ++ f))
      (filter (fun f => match dict_lookup f d with
                        | Some x => negb (py_truth x)
                        | None => true
                        end) fields) in
  exists valid,
    validate_scene self (VDict d) w =
    (Ok (scene_result (scene_id_of d) (isoformat (w_clock w (w_tick w)))
           valid errors),
     finished (scene_id_of d) w)
    /\ (valid = true <-> errors = []).
Proof.
  intros Hreq errors.
  exists (no_errors (missing_errors d fields)). split.
  - exact (validate_scene_dict self d fields w Hreq).
  - change errors with (missing_errors d fields).
    destruct (missing_errors d fields); cbn [no_errors]; split; congruence.
Qed.

(** C2.  For rules with a list of required fields and a list [scenes] of
    scene objects, [validate_project] returns a project result whose
    [scene_count] is the length of [scenes], whose [scene_results] are
    the results of [validate_scene] on the scenes, one call after the
    other in input order, and whose two counters add up to [scene_count];
    for the empty list it returns the counts 0, no result and the project
    id ["unknown"], whatever the rules. *)
Theorem validate_project_counts self w :
  (forall scenes fields,
     requires (validation_rules self) fields ->
     Forall (fun s => is_object s = true) scenes ->
     exists rs valid invalid w1 w',
       validate_project self scenes w =
       (Ok (project_result (project_id_of scenes)
              (isoformat (w_clock w (w_tick w)))
              (Z.of_nat (length scenes)) valid invalid rs), w')
       /\ mapM (validate_scene self) scenes
            (project_started (length scenes) w) = (Ok rs, w1)
       /\ length rs = length scenes
       /\ (forall i scene, nth_error scenes i = Some scene ->
           exists r wi, nth_error rs i = Some r /\
                        fst (validate_scene self scene wi) = Ok r)
       /\ (valid + invalid = Z.of_nat (length scenes))%Z)
  /\ fst (validate_project self [] w) =
     Ok (project_result (VStr "unknown") (isoformat (w_clock w (w_tick w)))
           0 0 0 []).
Proof.
  split; [|reflexivity].
  intros scenes fields Hreq Hall.
  destruct (validate_project_objects self scenes fields w Hreq Hall)
    as (rs & w1 & w' & Hm & Hp).
  exists rs, (Z.of_nat (count_valid rs)), (Z.of_nat (count_invalid rs)), w1, w'.
  pose proof (mapM_length _ _ _ _ _ Hm) as Hlen.
  repeat split; auto.
  - eapply mapM_nth; eauto.
  - rewrite <- Hlen, <- (count_valid_invalid rs). lia.
Qed.

(** C3, as the code has it.  A scene that is an object is validated
    without an exception when the rules list their required fields; any
    other value (array, string, number, boolean, null) makes the first
    [scene_data.get] raise [AttributeError], before any log record and
    without a result. *)
Theorem validate_scene_object_only self v w :
  (is_object v = true ->
   forall fields, requires (validation_rules self) fields ->
   exists r w', validate_scene self v w = (Ok r, w'))
  /\ (is_object v = false ->
      validate_scene self v w = (Raise (no_attribute v "get"), w)).
Proof.
  split.
  - intros Hv fields Hreq. destruct v; try discriminate.
    eexists; eexists. apply (validate_scene_dict _ _ _ _ Hreq).
  - apply validate_scene_not_object.
Qed.

(** C4, as the code has it.  The outcome of [validate_scene] is a
    function of the rules, the input and one clock reading: two calls
    with the same reading have the same outcome, two results agree on
    every key but [timestamp], which holds the reading of its own call,
    and a call changes nothing in the world but the log and the count of
    clock readings. *)
Theorem validate_scene_clock_only self scene w1 w2 :
  (w_clock w1 (w_tick w1) = w_clock w2 (w_tick w2) ->
   fst (validate_scene self scene w1) = fst (validate_scene self scene w2))
  /\ (forall r1 r2,
        fst (validate_scene self scene w1) = Ok r1 ->
        fst (validate_scene self scene w2) = Ok r2 ->
        py_getitem r1 (VStr "timestamp")
          = Ok (VStr (isoformat (w_clock w1 (w_tick w1))))
        /\ forall k, k <> lit "timestamp" ->
             py_getitem r1 (VStr k) = py_getitem r2 (VStr k))
  /\ (exists records n,
        snd (validate_scene self scene w1)
        = with_log (w_log w1 ++ records) (with_tick n w1)).
Proof.
  rewrite !validate_scene_unfold.
  destruct (method_get scene "scene_id" (VStr "unknown")) as [sid|e].
  - destruct (fields <~ required_fields (validation_rules self) ;;
              scan_fields scene fields true []) as [r|e]; cbn [fst snd].
    + split; [intros ->; reflexivity|]. split.
      * intros r1 r2 H1 H2. inversion H1; inversion H2; subst.
        split; [reflexivity|]. intros k Hk. now apply scene_result_getitem.
      * exists [log_start sid; log_done sid], (S (w_tick w1)).
        unfold finished. destruct w1; reflexivity.
    + split; [reflexivity|]. split; [discriminate|].
      exists [log_start sid], (S (w_tick w1)). destruct w1; reflexivity.
  - cbn [fst snd]. split; [reflexivity|]. split; [discriminate|].
    exists [], (w_tick w1). destruct w1; unfold with_log, with_tick; cbn.
    now rewrite app_nil_r.
Qed.

End Facts.

(** *** Concrete runs *)

(** The scenario of the specification: the default rules and a scene
    without [location]. *)
Lemma validate_scene_missing_fields_witness :
  requires (validation_rules (Toy.validator_with "json"))
    [lit "scene_id"; lit "timestamp"; lit "location"]
  /\ fst (validate_scene (Toy.validator_with "json") Toy.scene_S1 Toy.world0)
     = Ok (scene_result (VStr "S1") "2024-01-02T12:00:00" false
             [VStr "Missing required metadata: location"]).
Proof.
  assert (H : requires (validation_rules (Toy.validator_with "json"))
                [lit "scene_id"; lit "timestamp"; lit "location"]).
  { eexists. split; reflexivity. }
  split; [exact H|].
  destruct (validate_scene_missing_fields (Toy.validator_with "json")
              [(lit "scene_id", VStr "S1"); (lit "timestamp", VStr "t")]
              _ Toy.world0 H) as (valid & Hrun & Hvalid).
  unfold Toy.scene_S1. rewrite Hrun. cbn [fst].
  destruct valid.
  - destruct Hvalid as [Hv _]. specialize (Hv eq_refl). discriminate Hv.
  - reflexivity.
Defined.

Lemma validate_project_counts_witness :
  exists rs valid invalid,
    fst (validate_project (Toy.validator_with "json")
           [Toy.scene_S1; VDict []] Toy.world0)
    = Ok (project_result (VStr "unknown") "2024-01-02T12:00:00" 2 valid invalid rs)
    /\ length rs = 2%nat /\ (valid + invalid = 2)%Z.
Proof.
  assert (H : requires (validation_rules (Toy.validator_with "json"))
                [lit "scene_id"; lit "timestamp"; lit "location"]).
  { eexists. split; reflexivity. }
  destruct (validate_project_counts (Toy.validator_with "json") Toy.world0)
    as [Hall _].
  destruct (Hall [Toy.scene_S1; VDict []] _ H) as
    (rs & valid & invalid & w1 & w' & Hrun & _ & Hlen & _ & Hsum).
  { repeat constructor. }
  exists rs, valid, invalid. rewrite Hrun. repeat split; assumption.
Defined.

Lemma validate_scene_object_only_witness :
  (exists r w', validate_scene (Toy.validator_with "json") Toy.scene_S1 Toy.world0
                = (Ok r, w'))
  /\ validate_scene (Toy.validator_with "json") (VStr "S1") Toy.world0
     = (Raise (no_attribute (VStr "S1") "get"), Toy.world0).
Proof.
  split.
  - destruct (validate_scene_object_only (Toy.validator_with "json")
                Toy.scene_S1 Toy.world0) as [H _].
    apply (H eq_refl [lit "scene_id"; lit "timestamp"; lit "location"]).
    eexists. split; reflexivity.
  - destruct (validate_scene_object_only (Toy.validator_with "json")
                (VStr "S1") Toy.world0) as [_ H].
    apply H. reflexivity.
Defined.

(** An array in place of a scene: the call raises. *)
Lemma validate_scene_array_raises :
  fst (validate_scene (Toy.validator_with "json") (VList []) Toy.world0)
  = Raise (mkExn AttributeError "'list' object has no attribute 'get'")
  /\ ~ (exists r, fst (validate_scene (Toy.validator_with "json") (VList [])
                         Toy.world0) = Ok r).
Proof.
  split; [reflexivity|]. intros [r H]. discriminate H.
Qed.

(** The same scene validated twice in a row: the two results differ. *)
Lemma validate_scene_twice_differs :
  let first_call := validate_scene (Toy.validator_with "json") Toy.scene_S1 Toy.world0 in
  fst first_call
  <> fst (validate_scene (Toy.validator_with "json") Toy.scene_S1 (snd first_call)).
Proof.
  intros first_call H.
  apply (f_equal (fun r => match r with
                           | Ok (VDict (_ :: (_, VStr ts) :: _)) => length ts
                           | _ => 0%nat
                           end)) in H.
  vm_compute in H. discriminate H.
Qed.

Lemma validate_scene_clock_only_witness :
  let w := Sys.with_log [mkLog logger INFO "earlier"] Toy.world0 in
  w_clock Toy.world0 (w_tick Toy.world0) = w_clock w (w_tick w)
  /\ fst (validate_scene (Toy.validator_with "json") Toy.scene_S1 Toy.world0)
     = fst (validate_scene (Toy.validator_with "json") Toy.scene_S1 w).
Proof.
  intros w.
  destruct (validate_scene_clock_only (Toy.validator_with "json") Toy.scene_S1
              Toy.world0 w) as (H & _ & _).
  split; [reflexivity|]. apply H. reflexivity.
Defined.

End ValidatorFacts.

(** ** The report *)

Module ReportFacts.
Import Py Sys Validator TextFacts ValidatorFacts.
Section Facts.
Context {FT : FloatType} {P : PyPrim}.


(** What [generate_report] does once the report text is known. *)
Definition deliver (report : str) (output_path : option str) : M str :=
  match path_given output_path with
  | Some path =>
      write_file path report ;;;
      log_emit logger INFO ("Report written to " ++ path) ;;;
      ret report
  | None => ret report
  end.

Lemma generate_report_json self r out w fmt :
  method_get (config self) "report_format" (VStr "html") = Ok (VStr fmt) ->
  str_lower fmt = lit "json" ->
  generate_report self r out w = deliver (Json.dumps r 2) out w.
Proof.
  intros Hfmt Hlow. unfold generate_report, deliver, bind at 1, lift.
  rewrite Hfmt. unfold bind at 1. cbn [method_lower]. rewrite Hlow.
  reflexivity.
Qed.


Lemma generate_report_html self r out w fmt :
  method_get (config self) "report_format" (VStr "html") = Ok (VStr fmt) ->
  str_lower fmt = lit "html" ->
  generate_report self r out w =
  match _generate_html_report r with
  | Ok report => deliver report out w
  | Raise e => (Raise e, w)
  end.
Proof.
  intros Hfmt Hlow. unfold generate_report, deliver, bind at 1, lift.
  rewrite Hfmt. unfold bind at 1. cbn [method_lower]. rewrite Hlow.
  cbn [str_eqb]. change (str_eqb "html" "html") with true. cbn iota.
  unfold bind at 1. destruct (_generate_html_report r); reflexivity.
Qed.


Lemma deliver_no_path report out w :
  path_given out = None -> deliver report out w = (Ok report, w).
Proof. intros H. unfold deliver. now rewrite H. Qed.


(** The template cannot be formatted: its first brace opens the CSS rule
    of [body], which [str.format] reads as a replacement field named
    [ font-family]. *)
Lemma html_template_unformattable kwargs :
  dict_lookup " font-family" kwargs = None ->
  Fmt.str_format html_template kwargs = Raise (key_error (VStr " font-family")).
Proof.
  intros H. vm_compute in H |- *. rewrite H. reflexivity.
Qed.

(** C10, what the code does.  For a single-scene result the HTML report
    is never produced: [html_template.format] raises [KeyError] on the
    unescaped braces of the style sheet, for every scene result. *)
Theorem html_report_of_scene_result_raises sid ts ok es :
  _generate_html_report (scene_result sid ts ok es)
  = Raise (key_error (VStr " font-family")).
Proof.
  unfold _generate_html_report, scene_result.
  cbn [method_get dict_lookup str_eqb rbind py_iter scene_blocks list_items flat_map].
  apply html_template_unformattable. reflexivity.
Qed.

End Facts.
End ReportFacts.

(** ** The decoder, one step at a time *)

Module JsonSteps.
Import Py Json.
Section Steps.
Context {FT : FloatType} {P : PyPrim}.

Lemma scan_once_step fuel c s' :
  scan_once (S fuel) (c :: s') =
  if (c =? 34)%N then
    r <~ scanstring s' ;; Ok (VStr (fst r), snd r)
  else if (c =? 123)%N then
    match after 125 (skip_ws s'), after 34 (skip_ws s') with
    | Some r, _ => Ok (VDict [], r)
    | None, Some r =>
        ps <~ scan_pairs fuel r ;;
        Ok (VDict (dict_of_pairs (fst ps)), snd ps)
    | None, None => Raise (decode_error
             "Expecting property name enclosed in double quotes")
    end
  else if (c =? 91)%N then
    match after 93 (skip_ws s') with
    | Some r => Ok (VList [], r)
    | None =>
        vs <~ scan_items fuel (skip_ws s') ;;
        Ok (VList (fst vs), snd vs)
    end
  else if prefixb "null" (c :: s') then Ok (VNone, skipn 4 (c :: s'))
  else if prefixb "true" (c :: s') then Ok (VBool true, skipn 4 (c :: s'))
  else if prefixb "false" (c :: s') then Ok (VBool false, skipn 5 (c :: s'))
  else
    match match_number (c :: s') with
    | Some r => Ok r
    | None =>
        if prefixb "NaN" (c :: s') then Ok (VFloat float_nan, skipn 3 (c :: s'))
        else if prefixb "Infinity" (c :: s')
        then Ok (VFloat float_inf, skipn 8 (c :: s'))
        else if prefixb "-Infinity" (c :: s')
        then Ok (VFloat float_neg_inf, skipn 9 (c :: s'))
        else Raise (decode_error "Expecting value")
    end.
Proof. reflexivity. Qed.

Lemma scan_items_step fuel s :
  scan_items (S fuel) s =
  (v <~ scan_once fuel s ;;
   match after 93 (skip_ws (snd v)), after 44 (skip_ws (snd v)) with
   | Some r, _ => Ok ([fst v], r)
   | None, Some r =>
       vs <~ scan_items fuel (skip_ws r) ;;
       Ok (fst v :: fst vs, snd vs)
   | None, None => Raise (decode_error "Expecting ',' delimiter")
   end).
Proof. reflexivity. Qed.

Lemma scan_pairs_step fuel s :
  scan_pairs (S fuel) s =
  (k <~ scanstring s ;;
   match after 58 (skip_ws (snd k)) with
   | Some r =>
       v <~ scan_once fuel (skip_ws r) ;;
       match after 125 (skip_ws (snd v)), after 44 (skip_ws (snd v)) with
       | Some r', _ => Ok ([(fst k, fst v)], r')
       | None, Some r' =>
           match after 34 (skip_ws r') with
           | Some r'' =>
               ps <~ scan_pairs fuel r'' ;;
               Ok ((fst k, fst v) :: fst ps, snd ps)
           | None => Raise (decode_error
                    "Expecting property name enclosed in double quotes")
           end
       | None, None => Raise (decode_error "Expecting ',' delimiter")
       end
   | None => Raise (decode_error "Expecting ':' delimiter")
   end).
Proof. reflexivity. Qed.

End Steps.
End JsonSteps.

(** ** The LLM client *)

Module GeminiFacts.
Import Py Sys Gemini TextFacts ValidatorFacts.
Section Facts.
Context {FT : FloatType} {P : PyPrim}.

(** *** Searching a text for one character *)

(** [i] is where [c] first occurs in [t], or -1 when it does not occur. *)
Definition first_index (c : N) (t : str) (i : Z) : Prop :=
  (i = (-1)%Z /\ ~ In c t) \/
  (exists pre post, t = pre ++ c :: post /\ ~ In c pre /\ i = Z.of_nat (length pre)).

(** [j] is where [c] last occurs in [t], or -1 when it does not occur. *)
Definition last_index (c : N) (t : str) (j : Z) : Prop :=
  (j = (-1)%Z /\ ~ In c t) \/
  (exists pre post, t = pre ++ c :: post /\ ~ In c post /\ j = Z.of_nat (length pre)).

Lemma find_from_char c t : forall k,
  (find_from [c] t k = (-1)%Z /\ ~ In c t) \/
  (exists pre post, t = pre ++ c :: post /\ ~ In c pre /\
                    find_from [c] t k = (k + Z.of_nat (length pre))%Z).
Proof.
  induction t as [|x t IH]; intros k.
  - left. split; [reflexivity|intros []].
  - cbn [find_from prefixb]. rewrite andb_true_r.
    destruct (N.eqb_spec c x) as [->|Hne].
    + right. exists [], t. repeat split; [intros []|cbn; lia].
    + destruct (IH (k + 1)%Z) as [[H1 H2]|(pre & post & -> & Hpre & Hi)].
      * left. split; [exact H1|]. intros [E|E]; [congruence|auto].
      * right. exists (x :: pre), post. repeat split.
        -- intros [E|E]; [congruence|auto].
        -- rewrite Hi. cbn [length]. lia.
Qed.

Lemma str_find_char c t : first_index c t (str_find t [c]).
Proof.
  unfold str_find, first_index.
  destruct (find_from_char c t 0) as [H|(pre & post & H1 & H2 & H3)]; [left; exact H|].
  right. exists pre, post. repeat split; auto; rewrite H3; lia.
Qed.

Lemma rfind_from_char c t : forall k, (0 <= k)%Z ->
  (rfind_from [c] t k = (-1)%Z /\ ~ In c t) \/
  (exists pre post, t = pre ++ c :: post /\ ~ In c post /\
                    rfind_from [c] t k = (k + Z.of_nat (length pre))%Z).
Proof.
  induction t as [|x t IH]; intros k Hk.
  - left. split; [reflexivity|intros []].
  - cbn [rfind_from prefixb]. rewrite andb_true_r.
    destruct (IH (k + 1)%Z ltac:(lia)) as [[H1 H2]|(pre & post & -> & Hpost & Hi)].
    + rewrite H1. cbn.
      destruct (N.eqb_spec c x) as [->|Hne].
      * right. exists [], t. repeat split; [exact H2|cbn; lia].
      * left. split; [reflexivity|]. intros [E|E]; [congruence|auto].
    + rewrite Hi.
      destruct (Z.leb_spec 0 (k + 1 + Z.of_nat (length pre))); [|lia].
      right. exists (x :: pre), post. repeat split; auto. cbn [length]. lia.
Qed.

Lemma str_rfind_char c t : last_index c t (str_rfind t [c]).
Proof.
  unfold str_rfind, last_index.
  destruct (rfind_from_char c t 0 ltac:(lia)) as [H|(pre & post & H1 & H2 & H3)];
    [left; exact H|].
  right. exists pre, post. repeat split; auto; rewrite H3; lia.
Qed.

(** A slice that starts at an occurrence of [c] and is not empty starts
    with [c]. *)
Lemma slice_head c (pre post : str) (b : Z) :
  (Z.of_nat (length pre) < b)%Z ->
  exists rest, slice (pre ++ c :: post) (Z.of_nat (length pre)) b = c :: rest.
Proof.
  intros Hb. unfold slice, clamp_index.
  rewrite length_app. cbn [length].
  destruct (Z.ltb_spec (Z.of_nat (length pre)) 0); [lia|].
  rewrite (Z.min_l (Z.of_nat (length pre))) by lia. rewrite Nat2Z.id.
  rewrite skipn_app, Nat.sub_diag, skipn_all. cbn [app skipn].
  destruct (Z.ltb_spec b 0); [lia|].
  set (n := Z.to_nat _).
  assert (Hn : (0 < n)%nat) by (subst n; lia).
  destruct n as [|n]; [lia|]. cbn [firstn]. eauto.
Qed.


(** A text that starts with an opening brace decodes to an object or not
    at all. *)
Lemma loads_object rest v :
  Json.loads (123%N :: rest) = Ok v -> exists d, v = VDict d.
Proof.
  unfold Json.loads. cbn [Json.after N.eqb Pos.eqb Json.skip_ws Json.is_ws orb].
  set (fuel := length (123%N :: rest)).
  rewrite JsonSteps.scan_once_step. cbn [N.eqb Pos.eqb].
  destruct (Json.after 125 (Json.skip_ws rest)) as [r|].
  - cbn [rbind fst snd]. destruct (Json.skip_ws r); [|discriminate].
    intros H; inversion H; eauto.
  - destruct (Json.after 34 (Json.skip_ws rest)) as [r|]; [|discriminate].
    destruct (Json.scan_pairs fuel r) as [ps|e]; [|discriminate].
    cbn [rbind fst snd]. destruct (Json.skip_ws (snd ps)); [|discriminate].
    intros H; inversion H; eauto.
Qed.


(** *** Parsing a reply *)

(** A reply of the shape the endpoint documents: one candidate with one
    text part. *)
Definition api_reply (text : str) : pyval :=
  VDict [(lit "candidates",
          VList [VDict [(lit "content",
                         VDict [(lit "parts",
                                 VList [VDict [(lit "text", VStr text)]])])]])].

Definition extraction_failure (text : pyval) : pyval :=
  VDict [(lit "success", VBool false);
         (lit "error", VStr "Could not extract JSON from response");
         (lit "raw_response", text)].

Definition parse_failure (e : exn) (response : pyval) : pyval :=
  VDict [(lit "success", VBool false);
         (lit "error", VStr (exn_msg e));
         (lit "raw_response", response)].

(** The world after the handler of [_parse_dialogue_analysis] has logged
    the exception. *)
Definition parse_logged (e : exn) (w : world) : world :=
  with_log (w_log w ++
              [mkLog logger ERROR ("Error parsing dialogue analysis: " ++ exn_msg e)])
    w.

Lemma parse_unfold response w :
  _parse_dialogue_analysis response w =
  match parse_body response with
  | Ok r => (Ok r, w)
  | Raise e => (Ok (parse_failure e response), parse_logged e w)
  end.
Proof.
  unfold _parse_dialogue_analysis, try_except, lift.
  destruct (parse_body response); reflexivity.
Qed.

Lemma parse_body_text response t :
  str_in "error" response = Ok false ->
  reply_text response = Ok (VStr t) ->
  parse_body response =
  let i := str_find t "{" in
  let j := str_rfind t "}" in
  if (0 <=? i)%Z && (i <? j + 1)%Z then
    analysis <~ Json.loads (slice t i (j + 1)) ;;
    py_setitem analysis "success" (VBool true)
  else Ok (extraction_failure (VStr t)).
Proof.
  intros He Ht. unfold parse_body. rewrite He. cbn [rbind]. rewrite Ht. reflexivity.
Qed.

Lemma pivot_eq {A} (pre pre' post post' : list A) a b :
  pre ++ a :: post = pre' ++ b :: post' -> length pre = length pre' -> a = b.
Proof.
  revert pre'. induction pre as [|x pre IH]; intros [|y pre'] H Hl;
    try discriminate; cbn in H; inversion H; subst; auto.
  eapply IH; eauto.
Qed.

(** The test of the code, [json_start >= 0 and json_end > json_start],
    holds exactly when both braces occur and the first opening brace is
    before the last closing brace. *)
Lemma braces_found t :
  let i := str_find t "{" in
  let j := str_rfind t "}" in
  (0 <=? i)%Z && (i <? j + 1)%Z = true <-> (0 <= i < j)%Z.
Proof.
  cbv zeta.
  rewrite andb_true_iff, Z.leb_le, Z.ltb_lt.
  split; [|lia]. intros [H1 H2]. split; [exact H1|].
  destruct (Z.eq_dec (str_find t "{") (str_rfind t "}")) as [E|]; [|lia]. exfalso.
  destruct (str_find_char 123 t) as [[Hi _]|(pre & post & Ht & _ & Hi)];
    change [123%N] with (lit "{") in Hi; [lia|].
  destruct (str_rfind_char 125 t) as [[Hj _]|(pre' & post' & Ht' & _ & Hj)];
    change [125%N] with (lit "}") in Hj; [lia|].
  rewrite Ht in Ht'. apply pivot_eq in Ht'; [discriminate|lia].
Qed.

Lemma dict_lookup_set_same k x d : dict_lookup k (dict_set k x d) = Some x.
Proof.
  induction d as [|[k' y] d IH]; cbn [dict_set dict_lookup].
  - now rewrite str_eqb_refl.
  - destruct (str_eqb k k') eqn:E; cbn [dict_lookup]; rewrite E; auto.
Qed.


Lemma parse_body_result response r :
  parse_body response = Ok r ->
  exists d b, r = VDict d /\ dict_lookup "success" d = Some (VBool b).
Proof.
  unfold parse_body.
  destruct (str_in "error" response) as [[|]|e]; cbn [rbind]; [| |discriminate].
  - destruct (py_getitem response (VStr "error")) as [err|e]; cbn [rbind];
      [|discriminate].
    intros H; inversion H. eexists; exists false. split; reflexivity.
  - destruct (reply_text response) as [text|e]; cbn [rbind]; [|discriminate].
    destruct (method_find text "{") as [i|e]; cbn [rbind]; [|discriminate].
    destruct (method_rfind text "}") as [j|e]; cbn [rbind]; [|discriminate].
    destruct ((0 <=? i)%Z && (i <? j + 1)%Z).
    + destruct text; try discriminate.
      destruct (Json.loads (slice s i (j + 1))) as [a|e]; cbn [rbind]; [|discriminate].
      destruct a; try discriminate. cbn [py_setitem].
      intros H; inversion H. eexists; exists true. split; [reflexivity|].
      apply dict_lookup_set_same.
    + intros H; inversion H. eexists; exists false. split; reflexivity.
Qed.

(** The reply of the specification's example and what is extracted from
    it. *)
Definition example_text : str :=
  "blah {" ++ dq ++ "is_consistent" ++ dq ++ ": true, "
  ++ dq ++ "confidence_score" ++ dq ++ ": 0.9} trailing".

Definition example_result : pyval :=
  VDict [(lit "is_consistent", VBool true);
         (lit "confidence_score", VFloat (float_of_literal "0.9"));
         (lit "success", VBool true)].

(** C5.  The reply text is searched for its first opening and its last
    closing brace.  When both occur, the first before the last, the text
    from one to the other is decoded as JSON: a decoded value is an
    object and is returned with [success] set to true, a decoding error
    gives the failure record with the error text and the raw response.
    When they do not, the failure record carries the raw text.  Whatever
    the reply, the result is a record with a [success] flag, and the
    example reply yields the example record. *)
Theorem parse_reply_extracts_json :
  (forall response t w,
     str_in "error" response = Ok false ->
     reply_text response = Ok (VStr t) ->
     let i := str_find t "{" in
     let j := str_rfind t "}" in
     first_index 123 t i /\ last_index 125 t j /\
     ((0 <= i < j)%Z ->
      match Json.loads (slice t i (j + 1)) with
      | Ok v =>
          exists d, v = VDict d /\
            _parse_dialogue_analysis response w
            = (Ok (VDict (dict_set "success" (VBool true) d)), w)
      | Raise e =>
          _parse_dialogue_analysis response w
          = (Ok (parse_failure e response), parse_logged e w)
      end) /\
     (~ (0 <= i < j)%Z ->
      _parse_dialogue_analysis response w
      = (Ok (extraction_failure (VStr t)), w)))
  /\ (forall response w, exists d b,
        fst (_parse_dialogue_analysis response w) = Ok (VDict d) /\
        dict_lookup "success" d = Some (VBool b))
  /\ (forall w,
        _parse_dialogue_analysis (api_reply example_text) w
        = (Ok example_result, w)).
Proof.
  split; [|split].
  - intros response t w He Ht i j.
    split; [apply (str_find_char 123)|]. split; [apply (str_rfind_char 125)|].
    rewrite parse_unfold, (parse_body_text response t He Ht). cbv zeta.
    fold i j. pose proof (braces_found t) as Hb. cbv zeta in Hb. fold i j in Hb.
    split.
    + intros Hij. apply Hb in Hij as Hc. rewrite Hc.
      destruct (Json.loads (slice t i (j + 1))) as [v|e] eqn:El; cbn [rbind];
        [|reflexivity].
      destruct (str_find_char 123 t) as [[Hi _]|(pre & post & Hpre & _ & Hi)];
        change [123%N] with (lit "{") in Hi; fold i in Hi; [lia|].
      destruct (slice_head 123 pre post (j + 1)) as [rest Hs]; [lia|].
      rewrite Hpre, Hi, Hs in El. apply loads_object in El as [d ->].
      exists d. split; reflexivity.
    + intros Hij.
      assert (Hc : (0 <=? i)%Z && (i <? j + 1)%Z = false).
      { apply not_true_is_false. intros Hc. apply Hij, Hb, Hc. }
      rewrite Hc. reflexivity.
  - intros response w. rewrite parse_unfold.
    destruct (parse_body response) as [r|e] eqn:E.
    + apply parse_body_result in E as (d & b & -> & Hd). exists d, b. split; auto.
    + eexists; exists false. split; reflexivity.
  - intros w. rewrite parse_unfold.
    assert (H : parse_body (api_reply example_text) = Ok example_result)
      by (vm_compute; reflexivity).
    now rewrite H.
Qed.

(** *** Without a key *)

Definition no_key_result : pyval :=
  VDict [(lit "success", VBool false); (lit "error", VStr "No API key provided")].

(** The world after [_call_gemini_api] has refused to call. *)
Definition refused (w : world) : world :=
  with_log (w_log w ++
              [mkLog logger ERROR "Cannot call Gemini API: No API key provided"]) w.

Lemma call_without_key self prompt w :
  py_truth (api_key self) = false ->
  _call_gemini_api self prompt w
  = (Ok (VDict [(lit "error", VStr "No API key provided")]), refused w).
Proof.
  intros H. unfold _call_gemini_api. rewrite H. reflexivity.
Qed.

Lemma parse_no_key w :
  _parse_dialogue_analysis (VDict [(lit "error", VStr "No API key provided")]) w
  = (Ok no_key_result, w).
Proof. reflexivity. Qed.

Lemma In_firstn {A} (x : A) n : forall l, In x (firstn n l) -> In x l.
Proof.
  induction n as [|n IH]; intros [|y l] H; cbn [firstn] in H; try contradiction.
  destruct H as [->|H]; [left; reflexivity|right; auto].
Qed.

Lemma In_skipn {A} (x : A) n : forall l, In x (skipn n l) -> In x l.
Proof.
  induction n as [|n IH]; intros [|y l] H; cbn [skipn] in H; auto.
  right; auto.
Qed.

Lemma Forall_slice {A} (Q : A -> Prop) (l : list A) a b :
  Forall Q l -> Forall Q (slice l a b).
Proof.
  intros H. unfold slice.
  apply Forall_forall. intros x Hx.
  apply In_firstn, In_skipn in Hx. rewrite Forall_forall in H. auto.
Qed.

Lemma result_map_objects (f : pyval -> result str) l :
  (forall d, exists s, f (VDict d) = Ok s) ->
  Forall (fun v => is_object v = true) l ->
  exists lines, result_map f l = Ok lines.
Proof.
  intros Hf H. induction H as [|v l Hv _ [lines IH]].
  - exists []. reflexivity.
  - destruct v; try discriminate. destruct (Hf d) as [s0 Hs].
    exists (s0 :: lines). cbn [result_map]. now rewrite Hs, IH.
Qed.

(** The history a prompt is built from: every entry is an object, or
    there is a first one that is not. *)
Lemma first_non_object l :
  Forall (fun v => is_object v = true) l
  \/ exists objs v rest,
       l = objs ++ v :: rest
       /\ Forall (fun x => is_object x = true) objs
       /\ is_object v = false.
Proof.
  induction l as [|x l IH]; [left; constructor|].
  destruct (is_object x) eqn:Ex.
  - destruct IH as [IH|(objs & v & rest & -> & Hobjs & Hv)].
    + left. now constructor.
    + right. exists (x :: objs), v, rest. repeat split; auto.
  - right. exists [], x, l. repeat split; auto.
Qed.

(** A line of the history cannot be written for an entry that is not an
    object: the lines before it are built, then [e.get] raises. *)
Lemma result_map_raises (f : pyval -> result str) objs v rest :
  (forall d, exists s, f (VDict d) = Ok s) ->
  f v = Raise (no_attribute v "get") ->
  Forall (fun x => is_object x = true) objs ->
  result_map f (objs ++ v :: rest) = Raise (no_attribute v "get").
Proof.
  intros Hf Hv Hobjs. induction Hobjs as [|x objs Hx _ IH]; cbn [app result_map].
  - now rewrite Hv.
  - destruct x; try discriminate. destruct (Hf d) as [s0 ->]. cbn [rbind].
    now rewrite IH.
Qed.

(** An operation whose prompt needs the lines [f] of the last five
    history entries, without a key. *)
Lemma history_without_key (f : pyval -> result str) self previous
    (build : list str -> str) w1 :
  py_truth (api_key self) = false ->
  (forall d, exists s, f (VDict d) = Ok s) ->
  (forall v, is_object v = false -> f v = Raise (no_attribute v "get")) ->
  let out :=
    (prompt <- lift (lines <~ result_map f (last_five previous) ;; Ok (build lines)) ;;
     response <- _call_gemini_api self prompt ;;
     _parse_dialogue_analysis response) w1 in
  w_sent (snd out) = w_sent w1
  /\ (Forall (fun v => is_object v = true) (last_five previous) ->
      fst out = Ok no_key_result)
  /\ (forall objs v rest,
        last_five previous = objs ++ v :: rest ->
        Forall (fun x => is_object x = true) objs ->
        is_object v = false ->
        fst out = Raise (no_attribute v "get")).
Proof.
  intros Hk Hobj Hraise out.
  assert (Hgood : Forall (fun v => is_object v = true) (last_five previous) ->
                  out = (Ok no_key_result, refused w1)).
  { intros Hall. subst out.
    destruct (result_map_objects f (last_five previous) Hobj Hall) as [lines Hl].
    unfold bind at 1, lift. rewrite Hl. cbn [rbind]. unfold bind.
    rewrite call_without_key by exact Hk. now rewrite parse_no_key. }
  assert (Hbad : forall objs v rest,
            last_five previous = objs ++ v :: rest ->
            Forall (fun x => is_object x = true) objs ->
            is_object v = false ->
            out = (Raise (no_attribute v "get"), w1)).
  { intros objs v rest Hl Hobjs Hv. subst out.
    unfold bind at 1, lift. rewrite Hl.
    rewrite (result_map_raises f objs v rest Hobj (Hraise v Hv) Hobjs).
    reflexivity. }
  split; [|split].
  - destruct (first_non_object (last_five previous))
      as [Hall|(objs & v & rest & Hl & Hobjs & Hv)].
    + now rewrite (Hgood Hall).
    + now rewrite (Hbad objs v rest Hl Hobjs Hv).
  - intros Hall. now rewrite (Hgood Hall).
  - intros objs v rest Hl Hobjs Hv. now rewrite (Hbad objs v rest Hl Hobjs Hv).
Qed.

(** C6, as the code has it.  Without a key, neither as an argument nor in
    the environment, the analyzer is built without a request and none of
    its three operations sends one, whatever it is given.  The dialogue
    operation returns the record [success: false, error: "No API key
    provided"] for every input; the emotion and the narrative operation
    return it when each of the last five entries of the history is an
    object, and raise [AttributeError] for the first of them that is
    not, while the prompt is built. *)
Theorem no_api_key_no_request key model_name w :
  (key = None \/ key = Some []) ->
  (w_environ w "GEMINI_API_KEY" = None \/ w_environ w "GEMINI_API_KEY" = Some []) ->
  exists self w0,
    init key model_name w = (Ok self, w0) /\ w_sent w0 = w_sent w /\
    forall character current previous w1,
      (let out := analyze_dialogue_consistency self character current previous w1 in
       fst out = Ok no_key_result /\ w_sent (snd out) = w_sent w1)
      /\ (let out := analyze_emotional_continuity self character current previous w1 in
          w_sent (snd out) = w_sent w1
          /\ (Forall (fun v => is_object v = true) (last_five previous) ->
              fst out = Ok no_key_result)
          /\ (forall objs v rest,
                last_five previous = objs ++ v :: rest ->
                Forall (fun x => is_object x = true) objs ->
                is_object v = false ->
                fst out = Raise (no_attribute v "get")))
      /\ (let out := analyze_scene_narrative self current previous w1 in
          w_sent (snd out) = w_sent w1
          /\ (Forall (fun v => is_object v = true) (last_five previous) ->
              fst out = Ok no_key_result)
          /\ (forall objs v rest,
                last_five previous = objs ++ v :: rest ->
                Forall (fun x => is_object x = true) objs ->
                is_object v = false ->
                fst out = Raise (no_attribute v "get"))).
Proof.
  intros Hkey Henv.
  assert (Hinit : exists k w0, init key model_name w =
            (Ok (mkAnalyzer k model_name
                   ("https://generativelanguage.googleapis.com/v1beta/models/"
                    ++ model_name)), w0)
            /\ py_truth k = false /\ w_sent w0 = w_sent w).
  { unfold init, bind, environ_get, log_emit, ret.
    destruct Hkey as [-> | ->]; destruct Henv as [-> | ->];
      cbn [py_truth]; eexists; eexists; (split; [reflexivity|split; reflexivity]). }
  destruct Hinit as (k & w0 & Hi & Hk & Hs).
  eexists; exists w0. split; [exact Hi|]. split; [exact Hs|].
  intros character current previous w1.
  split; [|split].
  - unfold analyze_dialogue_consistency, bind.
    rewrite call_without_key by exact Hk. rewrite parse_no_key. split; reflexivity.
  - unfold analyze_emotional_continuity, _create_emotion_prompt,
      _parse_emotion_analysis. cbv zeta.
    apply (history_without_key emotion_line (mkAnalyzer k model_name _) previous _ w1 Hk).
    + intros d. eexists. reflexivity.
    + intros v Hv. destruct v; try discriminate; reflexivity.
  - unfold analyze_scene_narrative, _create_narrative_prompt,
      _parse_narrative_analysis. cbv zeta.
    apply (history_without_key scene_line (mkAnalyzer k model_name _) previous _ w1 Hk).
    + intros d. eexists. reflexivity.
    + intros v Hv. destruct v; try discriminate; reflexivity.
Qed.

End Facts.
End GeminiFacts.

(** ** The directory watcher *)

Module TriggerFacts.
Import Py Sys Trigger TextFacts.
Section Facts.
Context {FT : FloatType} {P : PyPrim}.

(** An entry of a scan: a path and its modification time, which the file
    system of [w] gives and which is later than [cursor]. *)
Definition reported_after (w : world) (cursor : datetime) (entry : pyval) : Prop :=
  exists path mt,
    entry = VDict [(lit "path", VStr path);
                   (lit "modified_time", VStr (isoformat mt))]
    /\ w_mtime w path = Ok mt
    /\ dt_gtb mt cursor = true.

(** The path of an entry. *)
Definition entry_path (entry : pyval) : option str :=
  match py_getitem entry (VStr "path") with
  | Ok (VStr p) => Some p
  | _ => None
  end.

(** [path] is among the files a scan has returned. *)
Definition reported (path : str) (files : list pyval) : Prop :=
  exists entry, In entry files /\ entry_path entry = Some path.

Section Scan.
Variable w0 : world.
Variable cursor : datetime.

(** The scan changes the log and nothing else. *)
Definition log_only (w : world) : Prop := exists l, w = with_log l w0.

Definition keeps {A} (m : M A) (post : A -> Prop) : Prop :=
  forall w, log_only w ->
    match m w with
    | (Ok a, w') => post a /\ log_only w'
    | (Raise _, w') => log_only w'
    end.

Lemma keeps_ret {A} (a : A) (post : A -> Prop) : post a -> keeps (ret a) post.
Proof. intros H w Hw. cbn. auto. Qed.

Lemma keeps_bind {A B} (m : M A) (k : A -> M B) post post' :
  keeps m post -> (forall a, post a -> keeps (k a) post') -> keeps (bind m k) post'.
Proof.
  intros Hm Hk w Hw. unfold bind. specialize (Hm w Hw).
  destruct (m w) as [[a|e] w1]; [|exact Hm].
  destruct Hm as [Ha Hw1]. exact (Hk a Ha w1 Hw1).
Qed.

Lemma keeps_lift {A} (r : result A) : keeps (lift r) (fun a => r = Ok a).
Proof. intros w Hw. unfold lift. destruct r; auto. Qed.

Lemma keeps_log name lvl text : keeps (log_emit name lvl text) (fun _ => True).
Proof.
  intros w [l ->]. cbn. split; [exact I|].
  eexists. unfold with_log. cbn. reflexivity.
Qed.

Lemma keeps_foldM {A B} (f : B -> A -> M B) (inv : B -> Prop) l :
  (forall b x, inv b -> keeps (f b x) inv) ->
  forall b, inv b -> keeps (foldM f l b) inv.
Proof.
  intros Hf. induction l as [|x l IH]; intros b Hb; cbn [foldM].
  - now apply keeps_ret.
  - eapply keeps_bind; [apply Hf, Hb|]. intros b' Hb'. now apply IH.
Qed.

Definition inv (files : list pyval) : Prop := Forall (reported_after w0 cursor) files.

Lemma keeps_mtime path :
  keeps (fun w => (w_mtime w path, w)) (fun mt => w_mtime w0 path = Ok mt).
Proof.
  intros w [l ->]. cbn [w_mtime with_log].
  destruct (w_mtime w0 path); [split; [reflexivity|]|]; eexists; reflexivity.
Qed.

Lemma keeps_glob dir pat :
  keeps (fun w => (Ok (w_glob w dir pat), w)) (fun _ => True).
Proof. intros w Hw. auto. Qed.

Lemma keeps_exists dir :
  keeps (fun w => (Ok (w_exists w dir), w)) (fun _ => True).
Proof. intros w Hw. auto. Qed.

Variable self : SceneValidatorTrigger.
Hypothesis Hcursor : last_check_time self = cursor.

Lemma scan_file_keeps ignore files path :
  inv files -> keeps (scan_file self ignore files path) inv.
Proof.
  intros Hinv. unfold scan_file.
  eapply keeps_bind; [apply keeps_lift|]. intros ignores _.
  eapply keeps_bind; [apply keeps_lift|]. intros [|] _.
  - now apply keeps_ret.
  - eapply keeps_bind; [apply keeps_mtime|]. intros mt Hmt.
    destruct (dt_gtb mt (last_check_time self)) eqn:Hgt.
    + eapply keeps_bind; [apply keeps_log|]. intros _ _.
      apply keeps_ret. apply Forall_app. split; [exact Hinv|].
      constructor; [|constructor].
      exists path, mt. rewrite <- Hcursor. auto.
    + now apply keeps_ret.
Qed.

Lemma scan_pattern_keeps dir ignore files pattern :
  inv files -> keeps (scan_pattern self dir ignore files pattern) inv.
Proof.
  intros Hinv. unfold scan_pattern.
  eapply keeps_bind; [apply keeps_lift|]. intros pat _.
  eapply keeps_bind; [apply keeps_glob|]. intros paths _.
  apply keeps_foldM; [|exact Hinv].
  intros b x Hb. now apply scan_file_keeps.
Qed.

Lemma scan_directory_keeps patterns ignore files directory :
  inv files -> keeps (scan_directory self patterns ignore files directory) inv.
Proof.
  intros Hinv. unfold scan_directory.
  eapply keeps_bind; [apply keeps_lift|]. intros dir _.
  eapply keeps_bind; [apply keeps_exists|]. intros [|] _.
  - eapply keeps_bind; [apply keeps_lift|]. intros pats _.
    apply keeps_foldM; [|exact Hinv].
    intros b x Hb. now apply scan_pattern_keeps.
  - eapply keeps_bind; [apply keeps_log|]. intros _ _. now apply keeps_ret.
Qed.

End Scan.

(** What a scan that returns has done. *)
Lemma watch_directories_spec self w files self' w' :
  watch_directories self w = (Ok (files, self'), w') ->
  Forall (reported_after w (last_check_time self)) files
  /\ self' = mkTrigger (config self) (validator self) (w_clock w (w_tick w))
  /\ exists l, w' = with_tick (S (w_tick w)) (with_log l w).
Proof.
  unfold watch_directories.
  intros H.
  assert (K : keeps w
    (watch_dirs <- lift (trigger_setting self "watch_directories"
                           (VList [VStr "data/scenes"])) ;;
     patterns <- lift (trigger_setting self "watch_file_patterns"
                         (VList [VStr "*.json"; VStr "*.xml"])) ;;
     ignore_patterns <- lift (trigger_setting self "ignore_patterns" (VList [])) ;;
     dirs <- lift (py_iter watch_dirs) ;;
     foldM (scan_directory self patterns ignore_patterns) dirs [])
    (inv w (last_check_time self))).
  { eapply keeps_bind; [apply keeps_lift|]. intros watch_dirs _.
    eapply keeps_bind; [apply keeps_lift|]. intros patterns _.
    eapply keeps_bind; [apply keeps_lift|]. intros ignore _.
    eapply keeps_bind; [apply keeps_lift|]. intros dirs _.
    apply keeps_foldM; [|constructor].
    intros b x Hb. now apply scan_directory_keeps. }
  specialize (K w). 
  assert (Hw : log_only w w) by (exists (w_log w); destruct w; reflexivity).
  specialize (K Hw).
  (* reassociate the binds of the definition *)
  unfold bind in H, K.
  destruct (lift (trigger_setting self "watch_directories" _) w) as [[wd|e] w1];
    [|discriminate].
  destruct (lift (trigger_setting self "watch_file_patterns" _) w1) as [[pt|e] w2];
    [|discriminate].
  destruct (lift (trigger_setting self "ignore_patterns" _) w2) as [[ig|e] w3];
    [|discriminate].
  destruct (lift (py_iter wd) w3) as [[dirs|e] w4]; [|discriminate].
  destruct (foldM (scan_directory self pt ig) dirs [] w4) as [[fs|e] w5];
    [|discriminate].
  destruct K as [Hinv [l ->]].
  unfold datetime_now, ret in H. cbn [w_clock w_tick with_log] in H.
  inversion H; subst. split; [exact Hinv|]. split; [reflexivity|].
  exists l. reflexivity.
Qed.

Lemma reported_after_path w cursor files path :
  Forall (reported_after w cursor) files ->
  reported path files ->
  exists mt, w_mtime w path = Ok mt /\ dt_gtb mt cursor = true.
Proof.
  intros Hall (entry & Hin & Hpath).
  rewrite Forall_forall in Hall. destruct (Hall entry Hin) as (p & mt & -> & Hm & Hgt).
  cbn in Hpath. inversion Hpath; subst. eauto.
Qed.

(** *** What a scan does report *)

Section Reach.
Variable w0 : world.
Variable self : SceneValidatorTrigger.

(** The list of files only grows during a scan. *)
Definition extends (b b' : list pyval) : Prop := exists extra, b' = b ++ extra.

Lemma extends_refl b : extends b b.
Proof. exists []. now rewrite app_nil_r. Qed.

Lemma extends_trans a b c : extends a b -> extends b c -> extends a c.
Proof. intros [x ->] [y ->]. exists (x ++ y). now rewrite app_assoc. Qed.

Lemma reported_extends path b b' : reported path b -> extends b b' -> reported path b'.
Proof.
  intros (entry & Hin & Hp) [extra ->]. exists entry. split; [|exact Hp].
  apply in_or_app. now left.
Qed.

Lemma keeps_weaken {A} (m : M A) (post post' : A -> Prop) :
  keeps w0 m post -> (forall a, post a -> post' a) -> keeps w0 m post'.
Proof.
  intros Hm Himp w Hw. specialize (Hm w Hw).
  destruct (m w) as [[a|e] w1]; [|exact Hm]. destruct Hm. auto.
Qed.

Lemma keeps_glob_eq dir pat :
  keeps w0 (fun w => (Ok (w_glob w dir pat), w)) (fun files => files = w_glob w0 dir pat).
Proof. intros w [l ->]. split; [reflexivity|]. eexists; reflexivity. Qed.

Lemma keeps_exists_eq dir :
  keeps w0 (fun w => (Ok (w_exists w dir), w)) (fun present => present = w_exists w0 dir).
Proof. intros w [l ->]. split; [reflexivity|]. eexists; reflexivity. Qed.

Lemma scan_file_extends ignore files path :
  keeps w0 (scan_file self ignore files path) (extends files).
Proof.
  unfold scan_file.
  eapply keeps_bind; [apply keeps_lift|]. intros ignores _.
  eapply keeps_bind; [apply keeps_lift|]. intros [|] _.
  - apply keeps_ret, extends_refl.
  - eapply keeps_bind; [apply keeps_mtime|]. intros mt _.
    destruct (dt_gtb mt (last_check_time self)).
    + eapply keeps_bind; [apply keeps_log|]. intros _ _.
      apply keeps_ret. eexists. reflexivity.
    + apply keeps_ret, extends_refl.
Qed.

Lemma foldM_extends {A} (f : list pyval -> A -> M (list pyval)) l :
  (forall b x, keeps w0 (f b x) (extends b)) ->
  forall b, keeps w0 (foldM f l b) (extends b).
Proof.
  intros Hf b. apply (keeps_foldM w0 f (extends b)); [|apply extends_refl].
  intros b' x Hb'. eapply keeps_weaken; [apply Hf|].
  intros a Ha. eapply extends_trans; eauto.
Qed.

Lemma scan_pattern_extends dir ignore files pattern :
  keeps w0 (scan_pattern self dir ignore files pattern) (extends files).
Proof.
  unfold scan_pattern.
  eapply keeps_bind; [apply keeps_lift|]. intros pat _.
  eapply keeps_bind; [apply keeps_glob|]. intros paths _.
  apply foldM_extends. intros b x. apply scan_file_extends.
Qed.

Lemma scan_directory_extends patterns ignore files directory :
  keeps w0 (scan_directory self patterns ignore files directory) (extends files).
Proof.
  unfold scan_directory.
  eapply keeps_bind; [apply keeps_lift|]. intros dir _.
  eapply keeps_bind; [apply keeps_exists|]. intros [|] _.
  - eapply keeps_bind; [apply keeps_lift|]. intros pats _.
    apply foldM_extends. intros b x. apply scan_pattern_extends.
  - eapply keeps_bind; [apply keeps_log|]. intros _ _.
    apply keeps_ret, extends_refl.
Qed.

(** A loop that only adds files and reports [path] at the item [x0]
    has reported it at its end. *)
Lemma foldM_reaches {A} (f : list pyval -> A -> M (list pyval)) path x0 l :
  (forall b x, keeps w0 (f b x) (extends b)) ->
  (forall b, keeps w0 (f b x0) (reported path)) ->
  In x0 l ->
  forall b, keeps w0 (foldM f l b) (reported path).
Proof.
  intros Hf Hx0. induction l as [|x l IH]; intros Hin b; [contradiction|].
  cbn [foldM]. destruct Hin as [->|Hin].
  - eapply keeps_bind; [apply Hx0|]. intros b' Hb'.
    apply (keeps_foldM w0 f (reported path)); [|exact Hb'].
    intros b'' x' Hb''. eapply keeps_weaken; [apply Hf|].
    intros a Ha. eapply reported_extends; eauto.
  - eapply keeps_bind; [apply Hf|]. intros b' _. now apply IH.
Qed.

(** [path] is a file the scan looks at and does not ignore: it is found
    by one of the patterns in one of the watch directories, which
    exists, and matches none of the ignore patterns. *)
Definition watched (path : str) : Prop :=
  exists watch_dirs dirs patterns pats ignore_patterns ignores dir pat,
    trigger_setting self "watch_directories" (VList [VStr "data/scenes"])
    = Ok watch_dirs
    /\ py_iter watch_dirs = Ok dirs
    /\ trigger_setting self "watch_file_patterns" (VList [VStr "*.json"; VStr "*.xml"])
       = Ok patterns
    /\ py_iter patterns = Ok pats
    /\ trigger_setting self "ignore_patterns" (VList []) = Ok ignore_patterns
    /\ py_iter ignore_patterns = Ok ignores
    /\ In (VStr dir) dirs
    /\ w_exists w0 dir = true
    /\ In (VStr pat) pats
    /\ In path (w_glob w0 dir pat)
    /\ any_match path ignores = Ok false.

Lemma scan_file_reports ignore ignores files path mt :
  py_iter ignore = Ok ignores ->
  any_match path ignores = Ok false ->
  w_mtime w0 path = Ok mt ->
  dt_gtb mt (last_check_time self) = true ->
  keeps w0 (scan_file self ignore files path) (reported path).
Proof.
  intros Hig Hany Hmt Hgt. unfold scan_file.
  eapply keeps_bind; [apply keeps_lift|]. intros ignores' Hig'.
  rewrite Hig in Hig'. inversion Hig'; subst ignores'.
  eapply keeps_bind; [apply keeps_lift|]. intros ignored Hany'.
  rewrite Hany in Hany'. inversion Hany'; subst ignored.
  eapply keeps_bind; [apply keeps_mtime|]. intros mt' Hmt'.
  rewrite Hmt in Hmt'. inversion Hmt'; subst mt'. rewrite Hgt.
  eapply keeps_bind; [apply keeps_log|]. intros _ _.
  apply keeps_ret. eexists. split; [apply in_or_app; right; left; reflexivity|].
  reflexivity.
Qed.

Lemma scan_reports path mt :
  watched path ->
  w_mtime w0 path = Ok mt ->
  dt_gtb mt (last_check_time self) = true ->
  keeps w0
    (watch_dirs <- lift (trigger_setting self "watch_directories"
                           (VList [VStr "data/scenes"])) ;;
     patterns <- lift (trigger_setting self "watch_file_patterns"
                         (VList [VStr "*.json"; VStr "*.xml"])) ;;
     ignore_patterns <- lift (trigger_setting self "ignore_patterns" (VList [])) ;;
     dirs <- lift (py_iter watch_dirs) ;;
     foldM (scan_directory self patterns ignore_patterns) dirs [])
    (reported path).
Proof.
  intros (wd & dirs & pt & pats & ig & ignores & dir & pat
          & Hwd & Hdirs & Hpt & Hpats & Hig & Hignores & Hdir & Hex & Hpat & Hglob & Hany)
         Hmt Hgt.
  eapply keeps_bind; [apply keeps_lift|]. intros wd' E.
  rewrite Hwd in E. inversion E; subst wd'. clear E.
  eapply keeps_bind; [apply keeps_lift|]. intros pt' E.
  rewrite Hpt in E. inversion E; subst pt'. clear E.
  eapply keeps_bind; [apply keeps_lift|]. intros ig' E.
  rewrite Hig in E. inversion E; subst ig'. clear E.
  eapply keeps_bind; [apply keeps_lift|]. intros dirs' E.
  rewrite Hdirs in E. inversion E; subst dirs'. clear E.
  apply (foldM_reaches _ path (VStr dir)); [| |exact Hdir].
  { intros b x. apply scan_directory_extends. }
  intros b. unfold scan_directory.
  eapply keeps_bind; [apply keeps_lift|]. intros dir' E.
  cbn [as_path] in E. inversion E; subst dir'. clear E.
  eapply keeps_bind; [apply keeps_exists_eq|]. intros present ->. rewrite Hex.
  eapply keeps_bind; [apply keeps_lift|]. intros pats' E.
  rewrite Hpats in E. inversion E; subst pats'. clear E.
  apply (foldM_reaches _ path (VStr pat)); [| |exact Hpat].
  { intros b' x. apply scan_pattern_extends. }
  intros b'. unfold scan_pattern.
  eapply keeps_bind; [apply keeps_lift|]. intros pat' E.
  cbn [as_path] in E. inversion E; subst pat'. clear E.
  eapply keeps_bind; [apply keeps_glob_eq|]. intros paths ->.
  apply (foldM_reaches _ path path); [| |exact Hglob].
  { intros b'' x. apply scan_file_extends. }
  intros b''. eapply scan_file_reports; eauto.
Qed.

End Reach.

(** A scan that returns has reported every watched file that is later
    than its cursor. *)
Lemma watch_directories_reports self w files self' w' path mt :
  watch_directories self w = (Ok (files, self'), w') ->
  watched w self path ->
  w_mtime w path = Ok mt ->
  dt_gtb mt (last_check_time self) = true ->
  reported path files.
Proof.
  intros H Hwatched Hmt Hgt.
  pose proof (scan_reports w self path mt Hwatched Hmt Hgt w) as K.
  assert (Hw : log_only w w) by (exists (w_log w); destruct w; reflexivity).
  specialize (K Hw).
  unfold watch_directories in H. unfold bind in H, K.
  destruct (lift (trigger_setting self "watch_directories" _) w) as [[wd|e] w1];
    [|discriminate].
  destruct (lift (trigger_setting self "watch_file_patterns" _) w1) as [[pt|e] w2];
    [|discriminate].
  destruct (lift (trigger_setting self "ignore_patterns" _) w2) as [[ig|e] w3];
    [|discriminate].
  destruct (lift (py_iter wd) w3) as [[dirs|e] w4]; [|discriminate].
  destruct (foldM (scan_directory self pt ig) dirs [] w4) as [[fs|e] w5];
    [|discriminate].
  destruct K as [Hrep _].
  unfold datetime_now, ret in H. inversion H; subst. exact Hrep.
Qed.

(** C9, as the code has it.  A scan that returns reports only files whose
    modification time is later than the cursor it started with, and
    moves the cursor to the clock reading taken at its end, whether or
    not a file was found.  A watched file whose modification time is
    later than the cursor of a scan, not later than the clock reading
    that ends that scan, and the same at the next scan, is reported by
    the first of the two scans and not by the second. *)
Theorem watch_reports_after_cursor self w files self' w' :
  watch_directories self w = (Ok (files, self'), w') ->
  Forall (reported_after w (last_check_time self)) files
  /\ last_check_time self' = w_clock w (w_tick w)
  /\ (forall path mt w2 files2 self2 w2',
        watched w self path ->
        w_mtime w path = Ok mt ->
        dt_gtb mt (last_check_time self) = true ->
        w_mtime w2 path = Ok mt ->
        dt_gtb mt (last_check_time self') = false ->
        watch_directories self' w2 = (Ok (files2, self2), w2') ->
        reported path files /\ ~ reported path files2).
Proof.
  intros H. destruct (watch_directories_spec _ _ _ _ _ H) as (Hall & Hself & _).
  split; [exact Hall|]. split; [now rewrite Hself|].
  intros path mt w2 files2 self2 w2' Hwatched Hm Hgt1 Hm2 Hgt H2. split.
  - exact (watch_directories_reports _ _ _ _ _ path mt H Hwatched Hm Hgt1).
  - intros Hrep.
    destruct (watch_directories_spec _ _ _ _ _ H2) as (Hall2 & _ & _).
    destruct (reported_after_path _ _ _ _ Hall2 Hrep) as (mt' & Hm' & Hgt').
    rewrite Hm2 in Hm'. inversion Hm'; subst. congruence.
Qed.

End Facts.
End TriggerFacts.

(** ** The JSON codec *)

Module JsonFacts.
Import Py Json TextFacts.

(** *** Escapes *)

Lemma hex_value_digit d : (d < 16)%N -> hex_value (hex_digit d) = Some d.
Proof.
  intros H.
  assert (E : (d = 0 \/ d = 1 \/ d = 2 \/ d = 3 \/ d = 4 \/ d = 5 \/ d = 6 \/ d = 7
               \/ d = 8 \/ d = 9 \/ d = 10 \/ d = 11 \/ d = 12 \/ d = 13 \/ d = 14
               \/ d = 15)%N) by lia.
  repeat (destruct E as [->|E]; [reflexivity|]). subst. reflexivity.
Qed.

Lemma hex4_value_hex4 n rest :
  (n < 65536)%N ->
  exists a b c d, hex4 n ++ rest = a :: b :: c :: d :: rest
                  /\ hex4_value a b c d = Some n.
Proof.
  intros H. unfold hex4. do 4 eexists. split; [reflexivity|].
  unfold hex4_value.
  rewrite !hex_value_digit by (apply N.mod_lt; discriminate).
  f_equal.
  assert (E2 : (n / 256 = n / 16 / 16)%N) by (now rewrite N.Div0.div_div).
  assert (E3 : (n / 4096 = n / 16 / 16 / 16)%N) by (now rewrite !N.Div0.div_div).
  rewrite E2, E3.
  assert (Hs : (n / 16 / 16 / 16 < 16)%N).
  { rewrite !N.Div0.div_div. apply N.Div0.div_lt_upper_bound. cbn. lia. }
  rewrite (N.mod_small (n / 16 / 16 / 16) 16 Hs).
  pose proof (N.div_mod n 16 ltac:(discriminate)).
  pose proof (N.div_mod (n / 16) 16 ltac:(discriminate)).
  pose proof (N.div_mod (n / 16 / 16) 16 ltac:(discriminate)).
  lia.
Qed.


(** A text whose code points are in range and in which no high surrogate
    is directly followed by a low one: what [json.loads] and the decoding
    of a file produce. *)
Definition is_low_head (s : str) : bool :=
  match s with
  | c :: _ => is_low_surrogate c
  | [] => false
  end.

Fixpoint wf_str (s : str) : bool :=
  match s with
  | [] => true
  | c :: s' =>
      (c <=? 1114111)%N && negb (is_high_surrogate c && is_low_head s') && wf_str s'
  end.

(** The four shapes of an escape. *)
Lemma escape_cases c :
  (c <= 1114111)%N ->
  (exists x, escape_char c = [92%N; x] /\ x <> 117%N /\ backslash x = Some c)
  \/ (escape_char c = [c] /\ c <> 34%N /\ c <> 92%N /\ (32 <= c)%N)
  \/ (escape_char c = 92%N :: 117%N :: hex4 c /\ (c < 65536)%N)
  \/ (exists s1 s2,
        escape_char c = 92%N :: 117%N :: hex4 s1 ++ 92%N :: 117%N :: hex4 s2
        /\ (s1 < 65536)%N /\ (s2 < 65536)%N
        /\ is_high_surrogate s1 = true /\ is_low_surrogate s2 = true
        /\ join_surrogates s1 s2 = c).
Proof.
  intros Hc. unfold escape_char.
  destruct (N.eqb_spec c 34) as [->|H34]; [left; exists 34%N; repeat split; discriminate|].
  destruct (N.eqb_spec c 92) as [->|H92]; [left; exists 92%N; repeat split; discriminate|].
  destruct (N.eqb_spec c 10) as [->|H10]; [left; exists 110%N; repeat split; discriminate|].
  destruct (N.eqb_spec c 13) as [->|H13]; [left; exists 114%N; repeat split; discriminate|].
  destruct (N.eqb_spec c 9) as [->|H9]; [left; exists 116%N; repeat split; discriminate|].
  destruct (N.eqb_spec c 8) as [->|H8]; [left; exists 98%N; repeat split; discriminate|].
  destruct (N.eqb_spec c 12) as [->|H12]; [left; exists 102%N; repeat split; discriminate|].
  destruct ((32 <=? c)%N && (c <=? 126)%N) eqn:Hp.
  { right; left. apply andb_true_iff in Hp as [Hp _]. apply N.leb_le in Hp. auto. }
  destruct (N.ltb_spec c 65536) as [Hlt|Hge].
  { right; right; left. auto. }
  right; right; right.
  exists (55296 + (c - 65536) / 1024)%N, (56320 + (c - 65536) mod 1024)%N.
  assert (Hq : ((c - 65536) / 1024 < 1024)%N).
  { apply N.Div0.div_lt_upper_bound. lia. }
  assert (Hr : ((c - 65536) mod 1024 < 1024)%N) by (apply N.mod_lt; discriminate).
  pose proof (N.div_mod (c - 65536) 1024 ltac:(discriminate)) as Hdm.
  split; [reflexivity|].
  set (q := ((c - 65536) / 1024)%N) in *.
  set (r := ((c - 65536) mod 1024)%N) in *.
  clearbody q r.
  split; [lia|]. split; [lia|].
  unfold is_high_surrogate, is_low_surrogate, join_surrogates.
  split; [apply andb_true_iff; split; apply N.leb_le; lia|].
  split; [apply andb_true_iff; split; apply N.leb_le; lia|].
  lia.
Qed.

(** No [\uXXXX] escape of a low surrogate at the head of [s]. *)
Definition no_low_escape (s : str) : Prop :=
  forall a b c d s', s = 92%N :: 117%N :: a :: b :: c :: d :: s' ->
  exists u, hex4_value a b c d = Some u /\ is_low_surrogate u = false.

Lemma scan_u_single uni a b c d tail r :
  hex4_value a b c d = Some uni ->
  (is_high_surrogate uni = true -> no_low_escape tail) ->
  scanstring tail = Ok r ->
  scanstring (92%N :: 117%N :: a :: b :: c :: d :: tail) = Ok (uni :: fst r, snd r).
Proof.
  intros Hhex Hlow Hr.
  cbn [scanstring N.eqb Pos.eqb]. rewrite Hhex.
  destruct tail as [|bs [|u [|a2 [|b2 [|c2 [|d2 s4]]]]]];
    try (rewrite Hr; reflexivity).
  destruct (is_high_surrogate uni) eqn:Hh; cbn [andb]; [|rewrite Hr; reflexivity].
  destruct (N.eqb_spec bs 92) as [->|]; cbn [andb]; [|rewrite Hr; reflexivity].
  destruct (N.eqb_spec u 117) as [->|]; [|rewrite Hr; reflexivity].
  destruct (Hlow eq_refl a2 b2 c2 d2 s4 eq_refl) as (u2 & Hu2 & Hl2).
  rewrite Hu2, Hl2, Hr. reflexivity.
Qed.

Lemma scan_u_pair s1 s2 a b c d a2 b2 c2 d2 tail r :
  hex4_value a b c d = Some s1 ->
  hex4_value a2 b2 c2 d2 = Some s2 ->
  is_high_surrogate s1 = true ->
  is_low_surrogate s2 = true ->
  scanstring tail = Ok r ->
  scanstring (92%N :: 117%N :: a :: b :: c :: d
              :: 92%N :: 117%N :: a2 :: b2 :: c2 :: d2 :: tail)
  = Ok (join_surrogates s1 s2 :: fst r, snd r).
Proof.
  intros H1 H2 Hh Hl Hr.
  cbn [scanstring N.eqb Pos.eqb]. rewrite H1, Hh. cbn [andb].
  rewrite H2, Hl, Hr. reflexivity.
Qed.

Lemma no_low_escape_encoded s rest :
  wf_str s = true -> is_low_head s = false ->
  no_low_escape (flat_map escape_char s ++ 34%N :: rest).
Proof.
  intros Hwf Hhead a b c d s' E.
  destruct s as [|x s]; [discriminate E|].
  cbn [flat_map] in E. cbn [wf_str] in Hwf. cbn [is_low_head] in Hhead.
  apply andb_true_iff in Hwf as [Hwf _]. apply andb_true_iff in Hwf as [Hx _].
  apply N.leb_le in Hx.
  destruct (escape_cases x Hx)
    as [(y & Hy & Hne & _)|[(Hy & _ & Hne & _)|[(Hy & Hlt)|(s1 & s2 & Hy & Hs1 & _ & Hh & _)]]];
    rewrite Hy in E; cbn [app] in E.
  - inversion E. congruence.
  - inversion E. congruence.
  - destruct (hex4_value_hex4 x (flat_map escape_char s ++ 34%N :: rest) Hlt)
      as (a' & b' & c' & d' & Hx4 & Hv).
    rewrite <- app_assoc in E. rewrite Hx4 in E. inversion E; subst.
    exists x. auto.
  - rewrite <- !app_assoc in E.
    destruct (hex4_value_hex4 s1
                ((92%N :: 117%N :: hex4 s2) ++ flat_map escape_char s ++ 34%N :: rest)
                Hs1)
      as (a' & b' & c' & d' & Hx4 & Hv).
    cbn [app] in Hx4, E. rewrite Hx4 in E. inversion E; subst.
    exists s1. split; [exact Hv|].
    unfold is_high_surrogate in Hh. unfold is_low_surrogate.
    apply andb_true_iff in Hh as [_ Hh]. apply N.leb_le in Hh.
    apply andb_false_iff. left. apply N.leb_gt. lia.
Qed.

(** Decoding an encoded text gives the text back. *)
Lemma scanstring_encoded s : forall rest,
  wf_str s = true ->
  scanstring (flat_map escape_char s ++ 34%N :: rest) = Ok (s, rest).
Proof.
  induction s as [|x s IH]; intros rest Hwf.
  - reflexivity.
  - pose proof Hwf as Hwf0.
    cbn [wf_str] in Hwf. apply andb_true_iff in Hwf as [Hwf Hs].
    apply andb_true_iff in Hwf as [Hx Hpair]. apply N.leb_le in Hx.
    specialize (IH rest Hs).
    cbn [flat_map]. rewrite <- app_assoc.
    set (tail := flat_map escape_char s ++ 34%N :: rest) in *.
    destruct (escape_cases x Hx)
      as [(y & Hy & Hne & Hb)|[(Hy & H34 & H92 & H32)|[(Hy & Hlt)|(s1 & s2 & Hy & Hs1 & Hs2 & Hh & Hl & Hj)]]];
      rewrite Hy; cbn [app].
    + cbn [scanstring N.eqb Pos.eqb].
      apply N.eqb_neq in Hne. rewrite Hne, Hb, IH. reflexivity.
    + cbn [scanstring].
      apply N.eqb_neq in H34, H92. rewrite H34, H92.
      destruct (N.leb_spec x 31); [lia|]. rewrite IH. reflexivity.
    + destruct (hex4_value_hex4 x tail Hlt) as (a & b & c & d & Hx4 & Hv).
      rewrite Hx4.
      rewrite (scan_u_single x a b c d tail (s, rest) Hv); [reflexivity| |exact IH].
      intros Hhigh. apply no_low_escape_encoded; [exact Hs|].
      rewrite Hhigh in Hpair. cbn [andb] in Hpair.
      now apply negb_true_iff in Hpair.
    + rewrite <- app_assoc. cbn [app].
      destruct (hex4_value_hex4 s1 (92%N :: 117%N :: hex4 s2 ++ tail) Hs1)
        as (a & b & c & d & Hx4 & Hv).
      rewrite Hx4.
      destruct (hex4_value_hex4 s2 tail Hs2) as (a2 & b2 & c2 & d2 & Hx42 & Hv2).
      rewrite Hx42.
      rewrite (scan_u_pair s1 s2 a b c d a2 b2 c2 d2 tail (s, rest) Hv Hv2 Hh Hl IH).
      cbn [fst snd]. now rewrite Hj.
Qed.

End JsonFacts.
Module JsonNumFacts.
Import Py Json TextFacts.

(** *** Integers *)

Definition all_digits (s : str) : bool := forallb is_digit s.

(** The next character cannot continue a run of digits. *)
Definition no_digit_head (s : str) : bool :=
  match s with
  | c :: _ => negb (is_digit c)
  | [] => true
  end.

Lemma digits_of_uint_digits u : all_digits (digits_of_uint u) = true.
Proof. induction u; cbn; auto. Qed.

Lemma uint_of_digits_of_uint u : uint_of_digits (digits_of_uint u) = u.
Proof. induction u; cbn [digits_of_uint uint_of_digits]; try rewrite IHu; reflexivity. Qed.

Lemma span_digits_app ds rest :
  all_digits ds = true -> no_digit_head rest = true ->
  span_digits (ds ++ rest) = (ds, rest).
Proof.
  intros Hd Hr. induction ds as [|c ds IH]; cbn [app].
  - destruct rest as [|c r]; [reflexivity|]. cbn [span_digits].
    cbn in Hr. apply negb_true_iff in Hr. now rewrite Hr.
  - cbn in Hd. apply andb_true_iff in Hd as [Hc Hd].
    cbn [span_digits]. rewrite Hc, (IH Hd). reflexivity.
Qed.

(** A numeral without leading zeros: [0] alone, or a first digit from 1
    to 9 followed by digits. *)
Definition canonical_digits (ds : str) : Prop :=
  ds = [48%N] \/
  exists c r, ds = c :: r /\ (49 <= c <= 57)%N /\ all_digits r = true.

Lemma nzhead_fixed_canonical u :
  Decimal.nzhead u = u -> u <> Decimal.Nil ->
  exists c r, digits_of_uint u = c :: r /\ (49 <= c <= 57)%N /\ all_digits r = true.
Proof.
  intros H Hn. destruct u; try congruence;
    try (cbn [digits_of_uint]; do 2 eexists; split; [reflexivity|];
         split; [lia|apply digits_of_uint_digits]).
  exfalso. exact (DecimalFacts.nzhead_nonzero _ _ H).
Qed.

Lemma unorm_fixed_canonical u :
  Decimal.unorm u = u -> canonical_digits (digits_of_uint u).
Proof.
  intros H. unfold Decimal.unorm in H.
  destruct (Decimal.nzhead u) eqn:E;
    try (right; apply nzhead_fixed_canonical; [congruence|subst; discriminate]).
  left. subst. reflexivity.
Qed.

(** The shape of [int.__repr__]: an optional minus and a numeral without
    leading zeros. *)
Lemma str_of_Z_shape z :
  (exists ds, str_of_Z z = ds /\ canonical_digits ds /\
              Z.to_int z = Decimal.Pos (uint_of_digits ds))
  \/ (exists ds, str_of_Z z = 45%N :: ds /\ canonical_digits ds /\
                 Z.to_int z = Decimal.Neg (uint_of_digits ds)).
Proof.
  pose proof (DecimalZ.to_of (Z.to_int z)) as H.
  rewrite DecimalZ.of_to in H. unfold str_of_Z.
  destruct (Z.to_int z) as [u|u]; cbn [Decimal.norm] in H.
  - left. exists (digits_of_uint u). split; [reflexivity|].
    split; [apply unorm_fixed_canonical; congruence|].
    now rewrite uint_of_digits_of_uint.
  - right. exists (digits_of_uint u). split; [reflexivity|].
    destruct (Decimal.nzhead u) eqn:E; try discriminate;
      (split; [right; apply nzhead_fixed_canonical; [congruence|];
               intros ->; discriminate
              |now rewrite uint_of_digits_of_uint]).
Qed.

Lemma canonical_head ds :
  canonical_digits ds -> exists c r, ds = c :: r /\ is_digit c = true.
Proof.
  intros [->|(c & r & -> & Hc & _)]; do 2 eexists; (split; [reflexivity|]).
  - reflexivity.
  - unfold is_digit. apply andb_true_iff. split; apply N.leb_le; lia.
Qed.

Lemma match_integer_canonical sign ds rest :
  sign = [] \/ sign = [45%N] ->
  canonical_digits ds -> no_digit_head rest = true ->
  match_integer (sign ++ ds ++ rest) = Some (sign ++ ds, rest).
Proof.
  intros Hsign Hds Hrest. unfold match_integer.
  assert (Htail : forall sg,
            match ds ++ rest with
            | [] => None
            | c :: s2 =>
                if (c =? 48)%N then Some (sg ++ [c], s2)
                else if is_digit c
                     then let (ds0, r) := span_digits s2 in Some (sg ++ c :: ds0, r)
                     else None
            end = Some (sg ++ ds, rest)).
  { intros sg. destruct Hds as [->|(c & r & -> & Hc & Hr)]; cbn [app].
    - reflexivity.
    - destruct (N.eqb_spec c 48); [lia|].
      assert (Hd : is_digit c = true)
        by (unfold is_digit; apply andb_true_iff; split; apply N.leb_le; lia).
      rewrite Hd, (span_digits_app r rest Hr Hrest). reflexivity. }
  destruct Hsign as [-> | ->]; cbn [app after N.eqb Pos.eqb].
  - destruct (canonical_head ds Hds) as (c & r & E & Hc).
    assert (Ha : after 45 (ds ++ rest) = None).
    { rewrite E. cbn [app after].
      destruct (N.eqb_spec c 45) as [->|]; [discriminate Hc|reflexivity]. }
    rewrite Ha. exact (Htail []).
  - exact (Htail [45%N]).
Qed.

Lemma Z_of_str_of_Z z : Z_of_str (str_of_Z z) = z.
Proof.
  destruct (str_of_Z_shape z) as [(ds & -> & Hc & Hz)|(ds & -> & Hc & Hz)].
  - destruct (canonical_head ds Hc) as (c & r & E & Hd).
    unfold Z_of_str. rewrite E at 1.
    assert (Hm : c <> 45%N) by (intros ->; discriminate Hd).
    replace (match c :: r with
             | 45%N :: ds0 => Z.of_int (Decimal.Neg (uint_of_digits ds0))
             | _ => Z.of_int (Decimal.Pos (uint_of_digits ds))
             end) with (Z.of_int (Decimal.Pos (uint_of_digits ds))).
    + rewrite <- Hz. apply DecimalZ.of_to.
    + destruct c as [|p]; [reflexivity|].
      do 6 (destruct p as [p|p|]; try reflexivity). congruence.
  - cbn [Z_of_str]. rewrite <- Hz. apply DecimalZ.of_to.
Qed.

End JsonNumFacts.

Module JsonTokenFacts.
Import Py Json TextFacts JsonNumFacts.

(** *** Number tokens in a text *)

(** What follows a value in an encoded text: nothing, a comma or a line
    feed. *)
Definition terminated (rest : str) : bool :=
  match rest with
  | [] => true
  | c :: _ => (c =? 44)%N || (c =? 10)%N
  end.

Lemma terminated_no_digit rest : terminated rest = true -> no_digit_head rest = true.
Proof.
  destruct rest as [|c r]; [reflexivity|]. cbn. intros H.
  apply orb_true_iff in H as [H|H]; apply N.eqb_eq in H; subst; reflexivity.
Qed.

Lemma span_digits_terminated rest :
  terminated rest = true -> span_digits rest = ([], rest).
Proof.
  intros H. apply (span_digits_app [] rest eq_refl (terminated_no_digit _ H)).
Qed.

Lemma match_frac_terminated rest :
  terminated rest = true -> match_frac rest = ([], rest).
Proof.
  destruct rest as [|c r]; [reflexivity|]. cbn [terminated]. intros H.
  unfold match_frac. cbn [after].
  apply orb_true_iff in H as [H|H]; apply N.eqb_eq in H; subst; reflexivity.
Qed.

Lemma match_exp_terminated rest :
  terminated rest = true -> match_exp rest = ([], rest).
Proof.
  destruct rest as [|c r]; [reflexivity|]. cbn [terminated]. intros H.
  unfold match_exp.
  apply orb_true_iff in H as [H|H]; apply N.eqb_eq in H; subst; reflexivity.
Qed.

Section Tokens.
Context {FT : FloatType} {P : PyPrim}.

Lemma match_number_int z rest :
  terminated rest = true ->
  match_number (str_of_Z z ++ rest) = Some (VInt z, rest).
Proof.
  intros Hrest. unfold match_number.
  assert (Hm : match_integer (str_of_Z z ++ rest) = Some (str_of_Z z, rest)).
  { destruct (str_of_Z_shape z) as [(ds & E & Hc & _)|(ds & E & Hc & _)]; rewrite E.
    - apply (match_integer_canonical [] ds rest); auto using terminated_no_digit.
    - apply (match_integer_canonical [45%N] ds rest); auto using terminated_no_digit. }
  rewrite Hm, (match_frac_terminated _ Hrest), (match_exp_terminated _ Hrest).
  now rewrite Z_of_str_of_Z.
Qed.

End Tokens.

(** *** Float tokens *)

Lemma span_digits_split s : forall ds r,
  span_digits s = (ds, r) -> s = ds ++ r /\ all_digits ds = true /\ no_digit_head r = true.
Proof.
  induction s as [|c s IH]; intros ds r H; cbn [span_digits] in H.
  - inversion H. auto.
  - destruct (is_digit c) eqn:Hc.
    + destruct (span_digits s) as [ds0 r0]. inversion H; subst.
      destruct (IH ds0 r eq_refl) as (-> & Hd & Hr).
      repeat split; auto. cbn. now rewrite Hc.
    + inversion H; subst. repeat split. cbn. now rewrite Hc.
Qed.

Lemma span_digits_extend s rest ds r :
  span_digits s = (ds, r) -> terminated rest = true ->
  span_digits (s ++ rest) = (ds, r ++ rest).
Proof.
  intros H Hrest. destruct (span_digits_split s ds r H) as (-> & Hd & Hr).
  rewrite <- app_assoc. apply span_digits_app; [exact Hd|].
  destruct r as [|c r]; [now apply terminated_no_digit|exact Hr].
Qed.

Lemma match_integer_extend s rest i s1 :
  match_integer s = Some (i, s1) -> terminated rest = true ->
  match_integer (s ++ rest) = Some (i, s1 ++ rest) /\ s = i ++ s1.
Proof.
  intros H Hrest. unfold match_integer in *.
  assert (Hgen : forall sg t,
    match t with
    | [] => None
    | c :: s2 =>
        if (c =? 48)%N then Some (sg ++ [c], s2)
        else if is_digit c
             then let (ds, r) := span_digits s2 in Some (sg ++ c :: ds, r)
             else None
    end = Some (i, s1) ->
    match t ++ rest with
    | [] => None
    | c :: s2 =>
        if (c =? 48)%N then Some (sg ++ [c], s2)
        else if is_digit c
             then let (ds, r) := span_digits s2 in Some (sg ++ c :: ds, r)
             else None
    end = Some (i, s1 ++ rest) /\ sg ++ t = i ++ s1).
  { intros sg t Ht. destruct t as [|c t]; [discriminate|]. cbn [app].
    destruct (c =? 48)%N.
    - inversion Ht; subst. split; [reflexivity|]. now rewrite <- app_assoc.
    - destruct (is_digit c); [|discriminate].
      destruct (span_digits t) as [ds r] eqn:E. inversion Ht; subst.
      rewrite (span_digits_extend t rest ds s1 E Hrest). split; [reflexivity|].
      destruct (span_digits_split t ds s1 E) as (-> & _ & _).
      now rewrite <- app_assoc. }
  destruct s as [|c s].
  - discriminate H.
  - cbn [app after] in *. destruct (N.eqb_spec c 45) as [->|].
    + exact (Hgen [45%N] s H).
    + exact (Hgen [] (c :: s) H).
Qed.

Lemma match_frac_extend s rest fr s2 :
  match_frac s = (fr, s2) -> terminated rest = true ->
  match_frac (s ++ rest) = (fr, s2 ++ rest) /\ s = fr ++ s2.
Proof.
  intros H Hrest. unfold match_frac in *.
  destruct s as [|c s]; cbn [app after] in *.
  - inversion H; subst. split; [|reflexivity].
    exact (match_frac_terminated rest Hrest).
  - destruct (N.eqb_spec c 46) as [->|].
    + destruct s as [|d s]; cbn [app] in *.
      * inversion H; subst. split; [|reflexivity].
        destruct rest as [|x r]; [reflexivity|].
        assert (Hx : is_digit x = false).
        { apply terminated_no_digit in Hrest. cbn in Hrest.
          now apply negb_true_iff in Hrest. }
        now rewrite Hx.
      * destruct (is_digit d).
        -- destruct (span_digits s) as [ds r] eqn:E. inversion H; subst.
           rewrite (span_digits_extend s rest ds s2 E Hrest).
           split; [reflexivity|].
           destruct (span_digits_split s ds s2 E) as (-> & _ & _). reflexivity.
        -- inversion H; subst. split; reflexivity.
    + inversion H; subst. split; reflexivity.
Qed.

Lemma match_exp_extend s rest ex s3 :
  match_exp s = (ex, s3) -> terminated rest = true ->
  match_exp (s ++ rest) = (ex, s3 ++ rest) /\ s = ex ++ s3.
Proof.
  intros H Hrest. unfold match_exp in *.
  destruct s as [|e s]; cbn [app] in *.
  - inversion H; subst. split; [|reflexivity].
    exact (match_exp_terminated rest Hrest).
  - destruct ((e =? 101)%N || (e =? 69)%N); [|inversion H; subst; split; reflexivity].
    destruct s as [|c s]; cbn [app] in *.
    + (* the text ends after the letter *)
      cbn [span_digits] in H. inversion H; subst. split; [|reflexivity].
      destruct rest as [|x r]; [reflexivity|].
      assert (Hx : ((x =? 43)%N || (x =? 45)%N) = false).
      { cbn in Hrest. apply orb_true_iff in Hrest as [Hx|Hx];
          apply N.eqb_eq in Hx; subst; reflexivity. }
      rewrite Hx. rewrite (span_digits_terminated _ Hrest). reflexivity.
    + destruct ((c =? 43)%N || (c =? 45)%N).
      * destruct (span_digits s) as [ds r] eqn:E.
        rewrite (span_digits_extend s rest ds r E Hrest).
        destruct (span_digits_split s ds r E) as (-> & _ & _).
        destruct ds; inversion H; subst; split; reflexivity.
      * destruct (span_digits (c :: s)) as [ds r] eqn:E.
        change (c :: s ++ rest) with ((c :: s) ++ rest).
        rewrite (span_digits_extend (c :: s) rest ds r E Hrest).
        destruct (span_digits_split (c :: s) ds r E) as (E' & _ & _).
        destruct ds; inversion H; subst; split; try reflexivity.
        rewrite E'. reflexivity.
Qed.

(** A number token with a fraction or an exponent, and nothing else. *)
Definition is_float_literal (s : str) : bool :=
  match match_integer s with
  | Some (_, s1) =>
      let (fr, s2) := match_frac s1 in
      let (ex, s3) := match_exp s2 in
      match s3 with
      | [] => match fr, ex with [], [] => false | _, _ => true end
      | _ => false
      end
  | None => false
  end.

Section FloatTokens.
Context {FT : FloatType} {P : PyPrim}.

Lemma match_number_float s rest :
  is_float_literal s = true -> terminated rest = true ->
  match_number (s ++ rest) = Some (VFloat (float_of_literal s), rest).
Proof.
  intros Hs Hrest. unfold is_float_literal in Hs. unfold match_number.
  destruct (match_integer s) as [[i s1]|] eqn:Ei; [|discriminate].
  destruct (match_frac s1) as [fr s2] eqn:Ef.
  destruct (match_exp s2) as [ex s3] eqn:Ee.
  destruct s3; [|discriminate].
  destruct (match_integer_extend s rest i s1 Ei Hrest) as [Hi Hsi].
  destruct (match_frac_extend s1 rest fr s2 Ef Hrest) as [Hf Hsf].
  destruct (match_exp_extend s2 rest ex [] Ee Hrest) as [He Hse].
  rewrite Hi, Hf, He. cbn [app].
  assert (E : s = i ++ fr ++ ex).
  { rewrite Hsi, Hsf, Hse. now rewrite app_nil_r. }
  destruct fr, ex; try discriminate; rewrite E; reflexivity.
Qed.

End FloatTokens.

End JsonTokenFacts.

Module JsonRoundTrip.
Import Py Json TextFacts JsonSteps JsonFacts JsonNumFacts JsonTokenFacts.

(** *** What the codec needs from the interpreter's floats

    [repr] of a finite float is a number token with a fraction or an
    exponent and [float] reads it back as the same float; each of the
    two infinities is the only value of its class. *)
Record FloatLaws {FT : FloatType} (P : PyPrim) : Prop := {
  repr_literal : forall f,
    float_classify f = FFinite -> is_float_literal (float_repr f) = true;
  repr_roundtrip : forall f,
    float_classify f = FFinite -> float_of_literal (float_repr f) = f;
  inf_unique : forall f, float_classify f = FPosInf -> f = float_inf;
  neg_inf_unique : forall f, float_classify f = FNegInf -> f = float_neg_inf }.

Section RoundTrip.
Context {FT : FloatType} {P : PyPrim}.

(** A JSON value that is equal to itself: texts in which no high
    surrogate is directly followed by a low one, no NaN (which [==]
    tells apart from itself), and objects without a repeated key, as
    every [dict] is. *)
Inductive json_wf : pyval -> Prop :=
| wf_none : json_wf VNone
| wf_bool b : json_wf (VBool b)
| wf_int z : json_wf (VInt z)
| wf_float f : float_classify f <> FNan -> json_wf (VFloat f)
| wf_text s : wf_str s = true -> json_wf (VStr s)
| wf_list l : Forall json_wf l -> json_wf (VList l)
| wf_dict d :
    NoDup (map fst d) ->
    Forall (fun kv => wf_str (fst kv) = true /\ json_wf (snd kv)) d ->
    json_wf (VDict d).

(** The fuel the decoder uses on an encoded value. *)
Fixpoint weight (v : pyval) : nat :=
  match v with
  | VList l =>
      S (S ((fix sum (l : list pyval) : nat :=
               match l with
               | [] => 0
               | x :: r => weight x + sum r
               end) l))
  | VDict d =>
      S (S ((fix sum (d : list (str * pyval)) : nat :=
               match d with
               | [] => 0
               | (_, x) :: r => weight x + sum r
               end) d))
  | _ => 1
  end.

Definition weights (l : list pyval) : nat :=
  fold_right (fun x n => weight x + n) 0 l.

Lemma weight_list l : weight (VList l) = S (S (weights l)).
Proof.
  cbn [weight]. do 2 apply f_equal.
  induction l as [|x r IH]; cbn [weights fold_right]; auto.
Qed.

Lemma weight_dict d : weight (VDict d) = S (S (weights (map snd d))).
Proof.
  cbn [weight]. do 2 apply f_equal.
  induction d as [|[k x] r IH]; cbn [weights fold_right map snd]; auto.
Qed.

Lemma weight_pos v : 1 <= weight v.
Proof. destruct v; cbn [weight]; lia. Qed.

(** *** White space *)

Lemma skip_ws_spaces n s : skip_ws (repeat 32%N n ++ s) = skip_ws s.
Proof. induction n as [|n IH]; cbn [repeat app skip_ws]; auto. Qed.

Lemma skip_ws_indent indent level s :
  skip_ws (newline_indent indent level ++ s) = skip_ws s.
Proof. unfold newline_indent. cbn [app skip_ws]. apply skip_ws_spaces. Qed.

Lemma skip_ws_head c s : is_ws c = false -> skip_ws (c :: s) = c :: s.
Proof. intros H. cbn [skip_ws]. now rewrite H. Qed.

Lemma terminated_indent indent level s :
  terminated (newline_indent indent level ++ s) = true.
Proof. reflexivity. Qed.

(** *** The first character of an encoded value *)

(** The characters a value can start with. *)
Definition value_head (c : N) : bool :=
  is_digit c || (c =? 45)%N || (c =? 34)%N || (c =? 123)%N || (c =? 91)%N
  || (c =? 110)%N || (c =? 116)%N || (c =? 102)%N || (c =? 78)%N || (c =? 73)%N.

Lemma value_head_facts c :
  value_head c = true ->
  is_ws c = false /\ c <> 93%N /\ c <> 125%N /\ c <> 44%N /\ c <> 65279%N.
Proof.
  unfold value_head, is_digit, is_ws. intros H.
  repeat (apply orb_true_iff in H as [H|H]);
    try (apply andb_true_iff in H as [H1 H2]; apply N.leb_le in H1, H2);
    try (apply N.eqb_eq in H; subst c);
    (split; [|repeat split; lia]);
    repeat (apply orb_false_iff; split); apply N.eqb_neq; lia.
Qed.

Lemma number_head_value c : is_digit c = true \/ c = 45%N -> value_head c = true.
Proof.
  unfold value_head. intros [H| ->]; [now rewrite H|].
  reflexivity.
Qed.

Lemma str_of_Z_head z :
  exists c r, str_of_Z z = c :: r /\ (is_digit c = true \/ c = 45%N).
Proof.
  destruct (str_of_Z_shape z) as [(ds & E & Hc & _)|(ds & E & Hc & _)]; rewrite E.
  - destruct (canonical_head ds Hc) as (c & r & -> & Hd). eauto.
  - do 2 eexists. split; [reflexivity|]. now right.
Qed.

Lemma match_integer_head s i s1 :
  match_integer s = Some (i, s1) ->
  exists c r, s = c :: r /\ (is_digit c = true \/ c = 45%N).
Proof.
  unfold match_integer. destruct s as [|c s]; [discriminate|]. cbn [after].
  destruct (N.eqb_spec c 45) as [->|]; [eauto|].
  destruct (N.eqb_spec c 48) as [->|]; [intros _; do 2 eexists; split; [reflexivity|now left]|].
  destruct (is_digit c) eqn:E; [|discriminate]. eauto.
Qed.

Lemma float_literal_head s :
  is_float_literal s = true ->
  exists c r, s = c :: r /\ (is_digit c = true \/ c = 45%N).
Proof.
  unfold is_float_literal. destruct (match_integer s) as [[i s1]|] eqn:E; [|discriminate].
  intros _. eapply match_integer_head; eauto.
Qed.

Hypothesis laws : FloatLaws P.

Lemma floatstr_head f : exists c r, floatstr f = c :: r /\ value_head c = true.
Proof.
  unfold floatstr. destruct (float_classify f) eqn:E;
    try (do 2 eexists; split; reflexivity).
  destruct (float_literal_head _ (repr_literal P laws f E)) as (c & r & -> & H).
  do 2 eexists. split; [reflexivity|]. now apply number_head_value.
Qed.

Lemma encode_head indent level v :
  exists c r, encode indent level v = c :: r /\ value_head c = true.
Proof.
  destruct v as [| [|] | z | f | s | [|x l] | [|kv d]]; cbn [encode];
    try (do 2 eexists; split; reflexivity).
  - destruct (str_of_Z_head z) as (c & r & -> & H).
    do 2 eexists. split; [reflexivity|]. now apply number_head_value.
  - apply floatstr_head.
Qed.


(** *** Atoms *)

Lemma prefixb_head_false p0 p c s : p0 <> c -> prefixb (p0 :: p) (c :: s) = false.
Proof. intros H. cbn [prefixb]. apply N.eqb_neq in H. now rewrite H. Qed.

Lemma scan_once_number fuel c s r :
  is_digit c = true \/ c = 45%N ->
  match_number (c :: s) = Some r ->
  scan_once (S fuel) (c :: s) = Ok r.
Proof.
  intros Hc Hm. rewrite scan_once_step.
  assert (Hne : c <> 34%N /\ c <> 123%N /\ c <> 91%N /\ c <> 110%N
                /\ c <> 116%N /\ c <> 102%N).
  { destruct Hc as [Hc| ->]; [|repeat split; discriminate].
    unfold is_digit in Hc. apply andb_true_iff in Hc as [H1 H2].
    apply N.leb_le in H1, H2. repeat split; lia. }
  destruct Hne as (H34 & H123 & H91 & H110 & H116 & H102).
  apply N.eqb_neq in H34, H123, H91. rewrite H34, H123, H91.
  change (lit "null") with (110%N :: lit "ull").
  change (lit "true") with (116%N :: lit "rue").
  change (lit "false") with (102%N :: lit "alse").
  rewrite !prefixb_head_false by congruence.
  now rewrite Hm.
Qed.

Lemma scan_once_int fuel z rest :
  terminated rest = true ->
  scan_once (S fuel) (str_of_Z z ++ rest) = Ok (VInt z, rest).
Proof.
  intros Hrest. pose proof (match_number_int z rest Hrest) as Hm.
  destruct (str_of_Z_head z) as (c & r & E & Hc). rewrite E in *. cbn [app] in *.
  now apply scan_once_number.
Qed.

Lemma scan_once_float fuel f rest :
  float_classify f <> FNan ->
  terminated rest = true ->
  scan_once (S fuel) (floatstr f ++ rest) = Ok (VFloat f, rest).
Proof.
  intros Hnan Hrest. unfold floatstr. destruct (float_classify f) eqn:E.
  - contradiction.
  - rewrite (inf_unique P laws f E). reflexivity.
  - rewrite (neg_inf_unique P laws f E). reflexivity.
  - pose proof (match_number_float _ rest (repr_literal P laws f E) Hrest) as Hm.
    rewrite (repr_roundtrip P laws f E) in Hm.
    destruct (float_literal_head _ (repr_literal P laws f E)) as (c & r & Er & Hc).
    rewrite Er in *. cbn [app] in *. now apply scan_once_number.
Qed.

Lemma scan_once_string fuel s rest :
  wf_str s = true ->
  scan_once (S fuel) (encode_string s ++ rest) = Ok (VStr s, rest).
Proof.
  intros Hwf. unfold encode_string, dq. cbn [app].
  rewrite scan_once_step. cbn [N.eqb Pos.eqb].
  rewrite <- app_assoc. cbn [app].
  now rewrite (scanstring_encoded s rest Hwf).
Qed.


(** *** Containers *)

(** An encoded value followed by [rest] decodes to the value and leaves
    [rest], whatever the depth, given fuel for its weight. *)
Definition decodes (v : pyval) : Prop :=
  forall indent level fuel rest,
    weight v <= fuel -> terminated rest = true ->
    scan_once fuel (encode indent level v ++ rest) = Ok (v, rest).

Lemma str_join_cons sep p q l :
  str_join sep (p :: q :: l) = p ++ sep ++ str_join sep (q :: l).
Proof. reflexivity. Qed.

Lemma skip_ws_value s :
  (exists c r, s = c :: r /\ value_head c = true) -> skip_ws s = s.
Proof.
  intros (c & r & -> & H). apply skip_ws_head. now apply value_head_facts.
Qed.

Lemma join_values_head indent level sep x l tail :
  exists c r,
    str_join sep (map (encode indent level) (x :: l)) ++ tail = c :: r
    /\ value_head c = true.
Proof.
  destruct (encode_head indent level x) as (c & r & E & H).
  destruct l as [|y l]; cbn [map]; [cbn [str_join]|rewrite str_join_cons];
    rewrite E; cbn [app]; eauto.
Qed.

Lemma scan_items_encoded indent level rest l :
  l <> [] -> Forall decodes l ->
  forall fuel, S (weights l) <= fuel ->
  scan_items fuel
    (str_join ("," ++ newline_indent indent (S level))
       (map (encode indent (S level)) l)
     ++ newline_indent indent level ++ 93%N :: rest)
  = Ok (l, rest).
Proof.
  intros Hne Hall. induction Hall as [|x l Hx Hall IH]; [contradiction|].
  intros fuel Hfuel. destruct fuel as [|fuel]; [lia|].
  cbn [weights fold_right] in Hfuel. fold (weights l) in Hfuel.
  rewrite scan_items_step.
  destruct l as [|y l].
  - cbn [map str_join].
    rewrite (Hx indent (S level) fuel);
      [|cbn [weights fold_right] in Hfuel; lia|apply terminated_indent].
    cbn [rbind fst snd]. rewrite skip_ws_indent. reflexivity.
  - pose proof (weight_pos x) as Hpos.
    specialize (IH ltac:(discriminate) fuel ltac:(lia)).
    change (lit "," ++ newline_indent indent (S level))
      with (44%N :: newline_indent indent (S level)) in *.
    change (map (encode indent (S level)) (x :: y :: l))
      with (encode indent (S level) x :: map (encode indent (S level)) (y :: l)).
    set (tail := map (encode indent (S level)) (y :: l)) in *.
    assert (Htail : exists p q, tail = p :: q) by (cbn; eauto).
    destruct Htail as (p & q & Htail). rewrite Htail at 1.
    rewrite str_join_cons, <- Htail. rewrite <- !app_assoc, <- app_comm_cons.
    rewrite (Hx indent (S level) fuel); [|lia|reflexivity].
    cbn [rbind fst snd skip_ws is_ws N.eqb Pos.eqb orb after].
    rewrite skip_ws_indent.
    rewrite skip_ws_value by apply join_values_head.
    rewrite IH. reflexivity.
Qed.

(** *** Objects *)

Lemma after_head c r : after c (c :: r) = Some r.
Proof. cbn [after]. now rewrite N.eqb_refl. Qed.

Lemma after_other c c' r : c' <> c -> after c (c' :: r) = None.
Proof. intros H. cbn [after]. apply N.eqb_neq in H. now rewrite H. Qed.

Lemma encode_app_head indent level v tail :
  exists c r, encode indent level v ++ tail = c :: r /\ value_head c = true.
Proof.
  destruct (encode_head indent level v) as (c & r & E & H).
  rewrite E. cbn [app]. eauto.
Qed.

(** One member of an object, as [encode] writes it. *)
Definition encode_member (indent level : nat) (kv : str * pyval) : str :=
  let (k, x) := kv in encode_string k ++ ": " ++ encode indent level x.

(** The members of an object from the first key on, without its opening
    quote, up to the closing brace and [rest]. *)
Fixpoint members (indent level : nat) (k : str) (x : pyval) (d : dict)
    (rest : str) : str :=
  flat_map escape_char k ++ 34%N :: 58%N :: 32%N ::
  encode indent (S level) x ++
  match d with
  | [] => newline_indent indent level ++ 125%N :: rest
  | (k', x') :: d' =>
      44%N :: newline_indent indent (S level) ++
      34%N :: members indent level k' x' d' rest
  end.

Lemma members_eq indent level k x d rest :
  members indent level k x d rest =
  flat_map escape_char k ++ 34%N :: 58%N :: 32%N ::
  encode indent (S level) x ++
  match d with
  | [] => newline_indent indent level ++ 125%N :: rest
  | (k', x') :: d' =>
      44%N :: newline_indent indent (S level) ++
      34%N :: members indent level k' x' d' rest
  end.
Proof. destruct d; reflexivity. Qed.

Lemma members_join indent level rest d : forall k x,
  str_join ("," ++ newline_indent indent (S level))
    (map (encode_member indent (S level)) ((k, x) :: d))
  ++ newline_indent indent level ++ 125%N :: rest
  = 34%N :: members indent level k x d rest.
Proof.
  induction d as [|[k' x'] d IH]; intros k x.
  - cbn [map str_join encode_member members]. unfold encode_string, dq.
    rewrite <- !app_assoc. reflexivity.
  - change (map (encode_member indent (S level)) ((k, x) :: (k', x') :: d))
      with (encode_member indent (S level) (k, x)
            :: map (encode_member indent (S level)) ((k', x') :: d)).
    set (tl := map (encode_member indent (S level)) ((k', x') :: d)) in *.
    assert (Htl : exists p q, tl = p :: q) by (cbn; eauto).
    destruct Htl as (p & q & Htl). rewrite Htl at 1.
    rewrite str_join_cons, <- Htl. clear Htl. subst tl. rewrite <- !app_assoc.
    rewrite (IH k' x'). rewrite (members_eq indent level k x).
    cbn [encode_member]. unfold encode_string, dq.
    rewrite <- !app_assoc. reflexivity.
Qed.

Lemma scan_pairs_members indent level rest d : forall k x,
  wf_str k = true -> decodes x ->
  Forall (fun kv => wf_str (fst kv) = true /\ decodes (snd kv)) d ->
  forall fuel, S (weight x + weights (map snd d)) <= fuel ->
  scan_pairs fuel (members indent level k x d rest) = Ok ((k, x) :: d, rest).
Proof.
  induction d as [|[k' x'] d IH]; intros k x Hk Hx Hall fuel Hfuel;
    (destruct fuel as [|fuel]; [lia|]);
    pose proof (weight_pos x) as Hpos;
    rewrite scan_pairs_step, members_eq, (scanstring_encoded k _ Hk);
    cbn [rbind fst snd];
    rewrite (skip_ws_head 58) by reflexivity; rewrite after_head;
    change (skip_ws (32%N :: ?s)) with (skip_ws s);
    rewrite skip_ws_value by apply encode_app_head.
  - rewrite (Hx indent (S level) fuel);
      [|cbn [map weights fold_right] in Hfuel; lia|apply terminated_indent].
    cbn [rbind fst snd]. rewrite skip_ws_indent.
    rewrite (skip_ws_head 125) by reflexivity. rewrite after_head. reflexivity.
  - inversion Hall as [|kv d0 [Hk' Hx'] Hall']; subst. cbn [fst snd] in Hk', Hx'.
    cbn [map snd weights fold_right] in Hfuel. fold (weights (map snd d)) in Hfuel.
    rewrite (Hx indent (S level) fuel); [|lia|reflexivity].
    cbn [rbind fst snd].
    rewrite (skip_ws_head 44) by reflexivity.
    rewrite (after_other 125 44) by discriminate. rewrite after_head.
    rewrite skip_ws_indent. rewrite (skip_ws_head 34) by reflexivity.
    rewrite after_head.
    rewrite (IH k' x' Hk' Hx' Hall' fuel) by lia. reflexivity.
Qed.

(** *** Building the dictionary *)

Lemma dict_set_fresh k x d :
  ~ In k (map fst d) -> dict_set k x d = d ++ [(k, x)].
Proof.
  induction d as [|[k' y] d IH]; intros Hin; [reflexivity|].
  cbn [dict_set map fst In app] in *.
  assert (Hne : str_eqb k k' = false).
  { apply str_eqb_neq. intros ->. apply Hin. now left. }
  rewrite Hne, IH; [reflexivity|]. intros H. apply Hin. now right.
Qed.

Lemma fold_dict_set_nodup pairs : forall acc,
  NoDup (map fst (acc ++ pairs)) ->
  fold_left (fun d kv => dict_set (fst kv) (snd kv) d) pairs acc = acc ++ pairs.
Proof.
  induction pairs as [|[k x] pairs IH]; intros acc Hnd; cbn [fold_left fst snd].
  - now rewrite app_nil_r.
  - rewrite dict_set_fresh.
    + rewrite IH; rewrite <- app_assoc; [reflexivity|exact Hnd].
    + rewrite map_app in Hnd. cbn [map fst] in Hnd.
      apply NoDup_remove_2 in Hnd. intros H. apply Hnd.
      apply in_or_app. now left.
Qed.

Lemma dict_of_pairs_nodup d : NoDup (map fst d) -> dict_of_pairs d = d.
Proof. intros H. unfold dict_of_pairs. now rewrite fold_dict_set_nodup. Qed.

(** *** Every well-formed value decodes *)

Lemma decodes_list l : Forall decodes l -> decodes (VList l).
Proof.
  intros Hall indent level fuel rest Hfuel Hrest.
  rewrite weight_list in Hfuel.
  destruct fuel as [|fuel]; [lia|].
  destruct l as [|x l]; [reflexivity|].
  remember (x :: l) as xs eqn:Exs.
  assert (Hne : xs <> []) by (subst; discriminate).
  assert (E : encode indent level (VList xs) ++ rest =
              91%N :: newline_indent indent (S level) ++
              (str_join ("," ++ newline_indent indent (S level))
                 (map (encode indent (S level)) xs)
               ++ newline_indent indent level ++ 93%N :: rest)).
  { subst xs. cbn [encode]. rewrite <- !app_assoc. reflexivity. }
  rewrite E, scan_once_step. cbn [N.eqb Pos.eqb].
  rewrite skip_ws_indent.
  destruct (join_values_head indent (S level)
              ("," ++ newline_indent indent (S level)) x l
              (newline_indent indent level ++ 93%N :: rest))
    as (c & r & Ej & Hc).
  rewrite <- Exs in Ej.
  rewrite (skip_ws_value _ (ex_intro _ c (ex_intro _ r (conj Ej Hc)))).
  rewrite Ej at 1.
  rewrite after_other by (apply value_head_facts in Hc; tauto).
  rewrite (scan_items_encoded indent level rest xs Hne Hall fuel) by lia.
  reflexivity.
Qed.

Lemma decodes_dict d :
  NoDup (map fst d) ->
  Forall (fun kv => wf_str (fst kv) = true /\ decodes (snd kv)) d ->
  decodes (VDict d).
Proof.
  intros Hnd Hall indent level fuel rest Hfuel Hrest.
  rewrite weight_dict in Hfuel.
  destruct fuel as [|fuel]; [lia|].
  destruct d as [|[k x] d]; [reflexivity|].
  assert (E : encode indent level (VDict ((k, x) :: d)) ++ rest =
              123%N :: newline_indent indent (S level) ++
              (str_join ("," ++ newline_indent indent (S level))
                 (map (encode_member indent (S level)) ((k, x) :: d))
               ++ newline_indent indent level ++ 125%N :: rest)).
  { cbn [encode]. rewrite <- !app_assoc. reflexivity. }
  rewrite E, members_join, scan_once_step. cbn [N.eqb Pos.eqb].
  rewrite skip_ws_indent. rewrite (skip_ws_head 34) by reflexivity.
  rewrite (after_other 125 34) by discriminate. rewrite after_head.
  inversion Hall as [|kv d0 [Hk Hx] Hall']; subst. cbn [fst snd] in Hk, Hx.
  cbn [map snd weights fold_right] in Hfuel. fold (weights (map snd d)) in Hfuel.
  rewrite (scan_pairs_members indent level rest d k x Hk Hx Hall' fuel) by lia.
  cbn [rbind fst snd]. now rewrite dict_of_pairs_nodup.
Qed.

Lemma json_wf_decodes v : json_wf v -> decodes v.
Proof.
  induction v as [|b|z|f|s|l IH|d IH] using pyval_induct; intros Hwf.
  - intros indent level [|fuel] rest Hfuel _; [cbn in Hfuel; lia|reflexivity].
  - intros indent level [|fuel] rest Hfuel _; [cbn in Hfuel; lia|].
    destruct b; reflexivity.
  - intros indent level [|fuel] rest Hfuel Hrest; [cbn in Hfuel; lia|].
    now apply scan_once_int.
  - intros indent level [|fuel] rest Hfuel Hrest; [cbn in Hfuel; lia|].
    inversion Hwf; subst. now apply scan_once_float.
  - intros indent level [|fuel] rest Hfuel Hrest; [cbn in Hfuel; lia|].
    inversion Hwf; subst. now apply scan_once_string.
  - apply decodes_list. inversion Hwf as [| | | | |l' Hl|]; subst.
    rewrite Forall_forall in *. auto.
  - inversion Hwf as [| | | | | |d' Hnd Hd]; subst.
    apply decodes_dict; [exact Hnd|].
    rewrite Forall_forall in *. intros kv Hin.
    destruct (Hd kv Hin) as [Hk Hx]. split; [exact Hk|]. now apply IH.
Qed.

(** *** The length of an encoded value bounds its weight *)

Lemma length_join_values indent level sep l :
  Forall (fun x => weight x <= length (encode indent level x)) l ->
  weights l <= length (str_join sep (map (encode indent level) l)).
Proof.
  induction 1 as [|x l Hx Hall IH]; [cbn; lia|].
  destruct l as [|y l].
  - cbn [map str_join weights fold_right]. lia.
  - change (map (encode indent level) (x :: y :: l))
      with (encode indent level x :: map (encode indent level) (y :: l)).
    set (tl := map (encode indent level) (y :: l)) in *.
    assert (Htl : exists p q, tl = p :: q) by (cbn; eauto).
    destruct Htl as (p & q & Htl). rewrite Htl at 1.
    rewrite str_join_cons, <- Htl. rewrite !length_app.
    cbn [weights fold_right] in *. lia.
Qed.

Lemma length_join_members indent level sep d :
  Forall (fun kv => weight (snd kv) <= length (encode indent level (snd kv))) d ->
  weights (map snd d)
  <= length (str_join sep (map (encode_member indent level) d)).
Proof.
  induction 1 as [|[k x] d Hx Hall IH]; [cbn; lia|].
  cbn [snd] in Hx.
  assert (Hm : weight x <= length (encode_member indent level (k, x))).
  { cbn [encode_member]. rewrite !length_app. lia. }
  destruct d as [|kv d].
  - cbn [map str_join weights fold_right snd]. lia.
  - change (map (encode_member indent level) ((k, x) :: kv :: d))
      with (encode_member indent level (k, x)
            :: map (encode_member indent level) (kv :: d)).
    set (tl := map (encode_member indent level) (kv :: d)) in *.
    assert (Htl : exists p q, tl = p :: q) by (cbn; eauto).
    destruct Htl as (p & q & Htl). rewrite Htl at 1.
    rewrite str_join_cons, <- Htl. rewrite !length_app.
    cbn [map snd weights fold_right] in *. lia.
Qed.

Lemma weight_le_length v : forall indent level,
  weight v <= length (encode indent level v).
Proof.
  induction v as [|b|z|f|s|l IH|d IH] using pyval_induct; intros indent level.
  - cbn. lia.
  - destruct b; cbn; lia.
  - destruct (encode_head indent level (VInt z)) as (c & r & E & _).
    rewrite E. cbn. lia.
  - destruct (encode_head indent level (VFloat f)) as (c & r & E & _).
    rewrite E. cbn. lia.
  - cbn. lia.
  - rewrite weight_list. destruct l as [|x l]; [cbn; lia|].
    remember (x :: l) as xs.
    assert (E : encode indent level (VList xs) =
                91%N :: newline_indent indent (S level) ++
                str_join ("," ++ newline_indent indent (S level))
                  (map (encode indent (S level)) xs)
                ++ newline_indent indent level ++ [93%N]).
    { subst xs. reflexivity. }
    rewrite E. cbn [length]. rewrite !length_app. cbn [length].
    pose proof (length_join_values indent (S level)
                  ("," ++ newline_indent indent (S level)) xs) as Hj.
    assert (Hall : Forall (fun x => weight x <= length (encode indent (S level) x)) xs).
    { rewrite Forall_forall in *. auto. }
    specialize (Hj Hall). lia.
  - rewrite weight_dict. destruct d as [|kv d]; [cbn; lia|].
    remember (kv :: d) as xs.
    assert (E : encode indent level (VDict xs) =
                123%N :: newline_indent indent (S level) ++
                str_join ("," ++ newline_indent indent (S level))
                  (map (encode_member indent (S level)) xs)
                ++ newline_indent indent level ++ [125%N]).
    { subst xs. reflexivity. }
    rewrite E. cbn [length]. rewrite !length_app. cbn [length].
    pose proof (length_join_members indent (S level)
                  ("," ++ newline_indent indent (S level)) xs) as Hj.
    assert (Hall : Forall (fun kv => weight (snd kv)
                             <= length (encode indent (S level) (snd kv))) xs).
    { rewrite Forall_forall in *. auto. }
    specialize (Hj Hall). lia.
Qed.

(** *** [json.loads(json.dumps(v, indent=n))] *)

Lemma loads_dumps v indent : json_wf v -> loads (dumps v indent) = Ok v.
Proof.
  intros Hwf. unfold loads, dumps.
  destruct (encode_head indent 0 v) as (c & r & E & Hc).
  pose proof (weight_le_length v indent 0) as Hlen.
  pose proof (json_wf_decodes v Hwf indent 0
                (S (length (encode indent 0 v))) [] ltac:(lia) eq_refl) as Hd.
  rewrite app_nil_r in Hd.
  rewrite (skip_ws_value _ (ex_intro _ c (ex_intro _ r (conj E Hc)))).
  rewrite Hd. cbn [rbind fst snd skip_ws].
  rewrite E. rewrite after_other by (apply value_head_facts in Hc; tauto).
  reflexivity.
Qed.

End RoundTrip.
End JsonRoundTrip.
(** ** The JSON report read back *)

Module RoundTripFacts.
Import Py Sys Json Validator TextFacts ValidatorFacts ReportFacts.
Import JsonFacts JsonNumFacts JsonTokenFacts JsonRoundTrip.

(** *** Texts of ASCII characters *)

Definition ascii_text (s : str) : bool := forallb (fun c => (c <? 128)%N) s.

Lemma ascii_text_app a b : ascii_text (a ++ b) = ascii_text a && ascii_text b.
Proof. apply forallb_app. Qed.

Lemma ascii_wf_app a b :
  ascii_text a = true -> wf_str b = true -> wf_str (a ++ b) = true.
Proof.
  intros Ha Hb. induction a as [|c a IH]; [exact Hb|].
  cbn [ascii_text forallb] in Ha. apply andb_true_iff in Ha as [Hc Ha].
  apply N.ltb_lt in Hc. cbn [app wf_str]. rewrite (IH Ha), andb_true_r.
  apply andb_true_iff. split; [apply N.leb_le; lia|].
  apply negb_true_iff, andb_false_iff. left.
  unfold is_high_surrogate. apply andb_false_iff. left. apply N.leb_gt. lia.
Qed.

Lemma ascii_wf s : ascii_text s = true -> wf_str s = true.
Proof. intros H. rewrite <- (app_nil_r s). now apply ascii_wf_app. Qed.

Lemma ascii_digits u : ascii_text (digits_of_uint u) = true.
Proof. induction u; cbn; auto. Qed.

Lemma ascii_str_of_Z z : ascii_text (str_of_Z z) = true.
Proof.
  unfold str_of_Z. destruct (Z.to_int z); cbn [ascii_text forallb];
    [|cbn [N.ltb N.compare Pos.compare Pos.compare_cont andb]]; apply ascii_digits.
Qed.

Lemma ascii_repeat c n : (c <? 128)%N = true -> ascii_text (repeat c n) = true.
Proof. intros H. induction n; cbn; [reflexivity|]. now rewrite H. Qed.

Lemma ascii_zero_pad w n : ascii_text (zero_pad w n) = true.
Proof.
  unfold zero_pad, str_of_N. rewrite ascii_text_app, ascii_str_of_Z, andb_true_r.
  now apply ascii_repeat.
Qed.

Lemma ascii_isoformat d : ascii_text (isoformat d) = true.
Proof.
  unfold isoformat. rewrite !ascii_text_app, !ascii_zero_pad.
  destruct (microsecond d =? 0)%N; [reflexivity|].
  rewrite ascii_text_app, ascii_zero_pad. reflexivity.
Qed.

Section Reports.
Context {FT : FloatType} {P : PyPrim}.

(** *** Results are JSON values *)

Lemma json_wf_lookup d k x :
  json_wf (VDict d) -> dict_lookup k d = Some x -> json_wf x.
Proof.
  intros Hwf. inversion Hwf as [| | | | | |d' _ Hall]; subst. clear Hwf.
  induction Hall as [|[k' y] d [_ Hy] _ IH]; cbn [dict_lookup]; [discriminate|].
  destruct (str_eqb k k'); [|exact IH]. intros H. inversion H; subst. exact Hy.
Qed.

Lemma json_wf_literal s : ascii_text s = true -> json_wf (VStr s).
Proof. intros H. constructor. now apply ascii_wf. Qed.

Lemma scene_id_wf d : json_wf (VDict d) -> json_wf (scene_id_of d).
Proof.
  intros Hwf. unfold scene_id_of.
  destruct (dict_lookup "scene_id" d) eqn:E; [eapply json_wf_lookup; eauto|].
  now apply json_wf_literal.
Qed.

Lemma project_id_wf scenes : Forall json_wf scenes -> json_wf (project_id_of scenes).
Proof.
  intros Hall. unfold project_id_of.
  destruct Hall as [|s l Hs _]; [now apply json_wf_literal|].
  destruct s; try now apply json_wf_literal.
  destruct (dict_lookup "project_id" d) eqn:E; [eapply json_wf_lookup; eauto|].
  now apply json_wf_literal.
Qed.

Lemma missing_errors_wf d fields :
  Forall (fun f => wf_str f = true) fields ->
  Forall json_wf (missing_errors d fields).
Proof.
  intros Hall. unfold missing_errors.
  induction Hall as [|f l Hf _ IH]; cbn [filter map]; [constructor|].
  destruct (absent d f); [|exact IH].
  cbn [map]. constructor; [|exact IH].
  constructor. now apply ascii_wf_app.
Qed.

Ltac distinct_keys :=
  vm_compute;
  repeat (constructor; [cbn [In]; intuition discriminate|]); constructor.

Lemma scene_result_wf sid ts ok es :
  json_wf sid -> wf_str ts = true -> Forall json_wf es ->
  json_wf (scene_result sid ts ok es).
Proof.
  intros Hsid Hts Hes. unfold scene_result. constructor; [distinct_keys|].
  repeat (constructor; [split; [reflexivity|cbn [snd]]|]);
    try constructor; auto; constructor.
Qed.

Lemma project_result_wf pid ts n v i rs :
  json_wf pid -> wf_str ts = true -> Forall json_wf rs ->
  json_wf (project_result pid ts n v i rs).
Proof.
  intros Hpid Hts Hrs. unfold project_result. constructor; [distinct_keys|].
  repeat (constructor; [split; [reflexivity|cbn [snd]]|]);
    try constructor; auto; constructor.
Qed.

Section Rules.
Variable self : SceneValidator.
Variable fields : list str.
Hypothesis Hreq : requires (validation_rules self) fields.
Hypothesis Hfields : Forall (fun f => wf_str f = true) fields.

Lemma validate_scene_wf d w r w' :
  json_wf (VDict d) ->
  validate_scene self (VDict d) w = (Ok r, w') -> json_wf r.
Proof.
  intros Hwf H. rewrite (validate_scene_dict self d fields w Hreq) in H.
  inversion H; subst. apply scene_result_wf.
  - now apply scene_id_wf.
  - apply ascii_wf, ascii_isoformat.
  - now apply missing_errors_wf.
Qed.

Lemma mapM_validate_wf scenes : forall w rs w',
  Forall (fun s => is_object s = true /\ json_wf s) scenes ->
  mapM (validate_scene self) scenes w = (Ok rs, w') -> Forall json_wf rs.
Proof.
  induction scenes as [|s l IH]; intros w rs w' Hall H; cbn [mapM] in H.
  - inversion H. constructor.
  - inversion Hall as [|s0 l0 [Hobj Hwf] Hall']; subst.
    unfold bind at 1 in H.
    destruct (validate_scene self s w) as [[y|e] w1] eqn:Es; [|discriminate].
    unfold bind in H.
    destruct (mapM (validate_scene self) l w1) as [[ys|e] w2] eqn:El; [|discriminate].
    inversion H; subst. constructor; [|eapply IH; eauto].
    destruct s; try discriminate Hobj. eapply validate_scene_wf; eauto.
Qed.

Lemma validate_project_wf scenes w r w' :
  Forall (fun s => is_object s = true /\ json_wf s) scenes ->
  validate_project self scenes w = (Ok r, w') -> json_wf r.
Proof.
  intros Hall H.
  assert (Hobj : Forall (fun s => is_object s = true) scenes).
  { rewrite Forall_forall in *. intros s Hs. now apply Hall. }
  assert (Hwf : Forall json_wf scenes).
  { rewrite Forall_forall in *. intros s Hs. now apply Hall. }
  destruct (validate_project_objects self scenes fields w Hreq Hobj)
    as (rs & w1 & w2 & Hm & Hp).
  rewrite Hp in H. inversion H; subst. apply project_result_wf.
  - now apply project_id_wf.
  - apply ascii_wf, ascii_isoformat.
  - eapply mapM_validate_wf; eauto.
Qed.

End Rules.

(** A result of [validate_scene] on a JSON object, or of
    [validate_project] on a list of JSON objects. *)
Definition produced (self : SceneValidator) (r : pyval) : Prop :=
  (exists d w w',
      json_wf (VDict d) /\ validate_scene self (VDict d) w = (Ok r, w'))
  \/ (exists scenes w w',
         Forall (fun s => is_object s = true /\ json_wf s) scenes
         /\ validate_project self scenes w = (Ok r, w')).

Lemma deliver_returns report out w text w' :
  deliver report out w = (Ok text, w') -> text = report.
Proof.
  unfold deliver. destruct (path_given out) as [path|].
  - unfold bind, write_file, log_emit, ret.
    destruct (w_writable w path); intros H; inversion H; reflexivity.
  - unfold ret. intros H. inversion H; reflexivity.
Qed.

(** C8, as the code has it.  With the report format ["json"] and rules
    whose [required_metadata] is a list of field names, every result [r]
    that [validate_scene] returns on a scene object, or
    [validate_project] on a list of scene objects, is given back by
    [json.loads] from the text of [generate_report], provided the scenes
    and the field names are JSON values equal to themselves (no text
    with a high surrogate directly followed by a low one, no NaN) and
    [repr] of a float reads back: without an output path the call
    returns [json.dumps(r, indent=2)], and whatever text a call returns
    parses to a structure equal to [r]. *)
Theorem report_json_round_trip self fields fmt r :
  FloatLaws P ->
  requires (validation_rules self) fields ->
  Forall (fun f => wf_str f = true) fields ->
  method_get (config self) "report_format" (VStr "html") = Ok (VStr fmt) ->
  str_lower fmt = lit "json" ->
  produced self r ->
  (forall w, exists text,
      generate_report self r None w = (Ok text, w) /\ loads text = Ok r)
  /\ (forall out w text w',
         generate_report self r out w = (Ok text, w') -> loads text = Ok r).
Proof.
  intros laws Hreq Hfields Hfmt Hlow Hr.
  assert (Hwf : json_wf r).
  { destruct Hr as [(d & w & w' & Hd & H)|(scenes & w & w' & Hs & H)].
    - eapply validate_scene_wf; eauto.
    - eapply validate_project_wf; eauto. }
  pose proof (loads_dumps laws r 2 Hwf) as Hround.
  split.
  - intros w. exists (dumps r 2). split; [|exact Hround].
    rewrite (generate_report_json self r None w fmt Hfmt Hlow).
    now apply deliver_no_path.
  - intros out w text w' H.
    rewrite (generate_report_json self r out w fmt Hfmt Hlow) in H.
    apply deliver_returns in H. now subst.
Qed.

End Reports.
End RoundTripFacts.


(** ** Concrete runs of the report, the client and the watcher *)

Module Runs.
Import Py Sys TextFacts ValidatorFacts ReportFacts GeminiFacts TriggerFacts.
Import JsonFacts JsonNumFacts JsonTokenFacts JsonRoundTrip RoundTripFacts.


(** With the format ["html"] the report of a scene result is an error,
    not a document. *)
Lemma generate_report_html_raises :
  fst (Validator.generate_report (Toy.validator_with "html")
         (scene_result (VStr "S1") "2024-01-02T12:00:00" false
            [VStr "Missing required metadata: location"])
         None Toy.world0)
  = Raise (mkExn KeyError "' font-family'").
Proof.
  rewrite (generate_report_html _ _ _ _ "html") by reflexivity.
  rewrite html_report_of_scene_result_raises. reflexivity.
Qed.

(** [process_scene_file] on a well-formed scene file: the report fails,
    the handler turns the error into a failed outcome, nothing is
    written. *)
Lemma process_scene_file_fails :
  let out := Trigger.process_scene_file (Toy.trigger_at Toy.new_year)
               Toy.scene_path (Toy.world_watched Toy.morning) in
  fst out = Ok (VDict [(lit "success", VBool false);
                       (lit "error", VStr "' font-family'");
                       (lit "file_path", VStr Toy.scene_path)])
  /\ w_written (snd out) = [].
Proof. vm_compute. split; reflexivity. Qed.

Lemma parse_reply_extracts_json_witness :
  Gemini._parse_dialogue_analysis (api_reply "see {} here") Toy.world0
  = (Ok (VDict [(lit "success", VBool true)]), Toy.world0).
Proof.
  destruct (parse_reply_extracts_json (P := Toy.prim)) as [H _].
  specialize (H (api_reply "see {} here") (lit "see {} here") Toy.world0
                eq_refl eq_refl).
  cbv zeta in H. destruct H as (_ & _ & Hfound & _).
  assert (Hij : (0 <= str_find (lit "see {} here") "{"
                 < str_rfind (lit "see {} here") "}")%Z).
  { vm_compute. split; [discriminate|reflexivity]. }
  specialize (Hfound Hij).
  assert (El : Json.loads (slice (lit "see {} here")
                 (str_find (lit "see {} here") "{")
                 (str_rfind (lit "see {} here") "}" + 1)) = Ok (VDict []))
    by reflexivity.
  rewrite El in Hfound. destruct Hfound as (d & Hd & Hrun).
  inversion Hd; subst. exact Hrun.
Defined.

Lemma no_api_key_no_request_witness :
  let history := [VDict [(lit "scene_id", VStr "S1"); (lit "emotion", VStr "calm")]] in
  exists self w0,
    Gemini.init None "gemini-pro" Toy.world0 = (Ok self, w0)
    /\ fst (Gemini.analyze_dialogue_consistency self "John" "Hello." [] w0)
       = Ok no_key_result
    /\ fst (Gemini.analyze_emotional_continuity self "John" "calm" history w0)
       = Ok no_key_result
    /\ fst (Gemini.analyze_scene_narrative self "A quiet room." history w0)
       = Ok no_key_result
    /\ w_sent (snd (Gemini.analyze_emotional_continuity self "John" "calm" history w0))
       = [].
Proof.
  intros history.
  destruct (no_api_key_no_request None "gemini-pro" Toy.world0)
    as (self & w0 & Hinit & Hsent & Hops).
  - left; reflexivity.
  - left; reflexivity.
  - exists self, w0. split; [exact Hinit|].
    destruct (Hops (lit "John") (lit "Hello.") [] w0) as [[H1 _] _].
    destruct (Hops (lit "John") (lit "calm") history w0) as (_ & (He1 & He2 & _) & _).
    destruct (Hops (lit "John") (lit "A quiet room.") history w0)
      as (_ & _ & (_ & Hn2 & _)).
    split; [exact H1|].
    split; [apply He2; repeat constructor|].
    split; [apply Hn2; repeat constructor|].
    rewrite He1, Hsent. reflexivity.
Defined.

(** Without a key, a history entry that is not an object makes the
    emotion operation raise instead of returning the record. *)
Lemma no_key_history_text_raises :
  exists self w0,
    Gemini.init None "gemini-pro" Toy.world0 = (Ok self, w0)
    /\ Gemini.analyze_emotional_continuity self "John" "calm" [VStr "angry"] w0
       = (Raise (mkExn AttributeError "'str' object has no attribute 'get'"), w0).
Proof.
  do 2 eexists. split; [reflexivity|]. vm_compute. reflexivity.
Qed.

(** A file dated in the future of the clock: its modification time does
    not change, and two scans in a row report it. *)
Lemma unchanged_file_reported_again :
  let first := Trigger.watch_directories (Toy.trigger_at Toy.new_year)
                 (Toy.world_watched Toy.future) in
  let second := Trigger.watch_directories (Toy.trigger_at Toy.noon) (snd first) in
  fst first = Ok ([Toy.entry_at Toy.future], Toy.trigger_at Toy.noon)
  /\ w_mtime (snd first) Toy.scene_path = Ok Toy.future
  /\ fst second = Ok ([Toy.entry_at Toy.future], Toy.trigger_at Toy.later)
  /\ reported Toy.scene_path [Toy.entry_at Toy.future].
Proof.
  cbv zeta. split; [vm_compute; reflexivity|].
  split; [vm_compute; reflexivity|].
  split; [vm_compute; reflexivity|].
  exists (Toy.entry_at Toy.future). split; [left; reflexivity|reflexivity].
Qed.

(** The files of a scan that returns. *)
Definition files_of (out : result (list pyval * Trigger.SceneValidatorTrigger) * world)
    : list pyval :=
  match fst out with
  | Ok (files, _) => files
  | Raise _ => []
  end.

Lemma watch_reports_after_cursor_witness :
  let first := Trigger.watch_directories (Toy.trigger_at Toy.new_year)
                 (Toy.world_watched Toy.morning) in
  let second := Trigger.watch_directories (Toy.trigger_at Toy.noon) (snd first) in
  files_of first = [Toy.entry_at Toy.morning]
  /\ reported Toy.scene_path (files_of first)
  /\ ~ reported Toy.scene_path (files_of second).
Proof.
  cbv zeta.
  set (first := Trigger.watch_directories _ (Toy.world_watched Toy.morning)).
  set (second := Trigger.watch_directories (Toy.trigger_at Toy.noon) (snd first)).
  assert (H1 : first = (Ok (files_of first, Toy.trigger_at Toy.noon), snd first)).
  { rewrite (surjective_pairing first) at 1.
    apply f_equal2; [vm_compute; reflexivity|reflexivity]. }
  assert (H2 : second = (Ok (files_of second, Toy.trigger_at Toy.later), snd second)).
  { rewrite (surjective_pairing second) at 1.
    apply f_equal2; [vm_compute; reflexivity|reflexivity]. }
  split; [vm_compute; reflexivity|].
  destruct (watch_reports_after_cursor _ _ _ _ _ H1) as (_ & _ & Hnext).
  apply (Hnext Toy.scene_path Toy.morning (snd first) (files_of second)
           (Toy.trigger_at Toy.later) (snd second)).
  - exists (VList [VStr "data/scenes"]), [VStr "data/scenes"],
      (VList [VStr "*.json"; VStr "*.xml"]), [VStr "*.json"; VStr "*.xml"],
      (VList []), [], (lit "data/scenes"), (lit "*.json").
    repeat split; try reflexivity; left; reflexivity.
  - reflexivity.
  - reflexivity.
  - vm_compute. reflexivity.
  - reflexivity.
  - exact H2.
Defined.

(** *** The JSON report of the scenario, read back *)

Lemma integral_part_token s :
  forallb (fun c => (c =? 45)%N || is_digit c) s = true ->
  Toy.integral_part (s ++ ".0") = s.
Proof.
  induction s as [|c s IH]; [reflexivity|].
  cbn [forallb app Toy.integral_part]. intros H.
  apply andb_true_iff in H as [Hc Hs]. now rewrite Hc, (IH Hs).
Qed.

Lemma digits_token s :
  all_digits s = true -> forallb (fun c => (c =? 45)%N || is_digit c) s = true.
Proof.
  unfold all_digits. induction s as [|c s IH]; [reflexivity|].
  cbn [forallb]. intros H. apply andb_true_iff in H as [Hc Hs].
  now rewrite Hc, orb_true_r, (IH Hs).
Qed.

Lemma str_of_Z_token z :
  forallb (fun c => (c =? 45)%N || is_digit c) (str_of_Z z) = true.
Proof.
  unfold str_of_Z. destruct (Z.to_int z) as [u|u]; cbn [forallb];
    [|cbn [N.eqb Pos.eqb orb andb]]; apply digits_token, digits_of_uint_digits.
Qed.

Lemma toy_repr_literal z : is_float_literal (str_of_Z z ++ ".0") = true.
Proof.
  unfold is_float_literal.
  assert (Hm : Json.match_integer (str_of_Z z ++ ".0") = Some (str_of_Z z, lit ".0")).
  { destruct (str_of_Z_shape z) as [(ds & E & Hc & _)|(ds & E & Hc & _)]; rewrite E.
    - apply (match_integer_canonical [] ds ".0"); auto.
    - apply (match_integer_canonical [45%N] ds ".0"); auto. }
  rewrite Hm. reflexivity.
Qed.

(** The floats of the example interpreter are printed as number tokens
    that read back. *)
Lemma toy_float_laws : FloatLaws Toy.prim.
Proof.
  split.
  - intros [| | |z] H; try discriminate H. apply toy_repr_literal.
  - intros [| | |z] H; try discriminate H.
    cbn [float_of_literal float_repr Toy.prim Toy.zfloat_repr].
    now rewrite integral_part_token, Z_of_str_of_Z by apply str_of_Z_token.
  - intros [| | |z] H; try discriminate H. reflexivity.
  - intros [| | |z] H; try discriminate H. reflexivity.
Qed.

Lemma report_json_round_trip_witness :
  let self := Toy.validator_with "json" in
  let r := scene_result (VStr "S1") "2024-01-02T12:00:00" false
             [VStr "Missing required metadata: location"] in
  produced self r
  /\ exists text,
       Validator.generate_report self r None Toy.world0 = (Ok text, Toy.world0)
       /\ Json.loads text = Ok r.
Proof.
  intros self r.
  assert (Hp : produced self r).
  { left. exists [(lit "scene_id", VStr "S1"); (lit "timestamp", VStr "t")],
                 Toy.world0,
                 (snd (Validator.validate_scene self Toy.scene_S1 Toy.world0)).
    split; [|vm_compute; reflexivity].
    constructor.
    - vm_compute. repeat (constructor; [cbn [In]; intuition discriminate|]).
      constructor.
    - repeat (constructor; [split; [reflexivity|constructor; reflexivity]|]).
      constructor. }
  split; [exact Hp|].
  assert (Hreq : requires (Validator.validation_rules self)
                   [lit "scene_id"; lit "timestamp"; lit "location"]).
  { eexists. split; reflexivity. }
  destruct (report_json_round_trip self _ "json" r toy_float_laws Hreq) as [H _].
  - repeat (constructor; [reflexivity|]). constructor.
  - reflexivity.
  - reflexivity.
  - exact Hp.
  - exact (H Toy.world0).
Defined.

(** A scene id that holds a surrogate pair as two code points is written
    as two escapes, which [json.loads] reads as one character: the
    report of this result does not parse back to it. *)
Lemma surrogate_pair_not_read_back :
  let paired : str := [55357%N; 56832%N] in
  let scene := VDict [(lit "scene_id", VStr paired);
                      (lit "timestamp", VStr "t");
                      (lit "location", VStr "studio")] in
  let self := Toy.validator_with "json" in
  let r := scene_result (VStr paired) "2024-01-02T12:00:00" true [] in
  let r' := scene_result (VStr [128512%N]) "2024-01-02T12:00:00" true [] in
  fst (Validator.validate_scene self scene Toy.world0) = Ok r
  /\ fst (Validator.generate_report self r None Toy.world0) = Ok (Json.dumps r 2)
  /\ Json.loads (Json.dumps r 2) = Ok r'
  /\ r' <> r.
Proof.
  cbv zeta. split; [vm_compute; reflexivity|].
  split; [vm_compute; reflexivity|].
  split; [vm_compute; reflexivity|].
  intros H. apply (f_equal (fun v => py_getitem v (VStr "scene_id"))) in H.
  vm_compute in H. discriminate H.
Qed.

End Runs.
(** ** More worlds to run the model in *)

Module Worlds.
Import Py Sys.

(** A world in which no file can be read, written or created. *)
Definition locked_world : world :=
  mkWorld (fun _ => Toy.noon) 0 [] (fun _ => None) (fun _ => false) (fun _ _ => [])
    (fun p => Raise (mkExn OSError p)) (fun p => Raise (mkExn OSError p))
    (fun _ => false) (fun _ => false) []
    (fun _ => Raise (mkExn RequestException [])) [].

(** A world with one readable file, in which every path can be written. *)
Definition world_with_file (path text : str) : world :=
  mkWorld (fun n => match n with O => Toy.noon | _ => Toy.later end) 0 []
    (fun _ => None) (fun _ => false) (fun _ _ => [])
    (fun p => Raise (mkExn FileNotFoundError p))
    (fun p => if str_eqb p path then Ok text else Raise (mkExn FileNotFoundError p))
    (fun _ => true) (fun _ => true) []
    (fun _ => Raise (mkExn RequestException [])) [].

(** A world whose endpoint answers every request with [reply]. *)
Definition world_replying (reply : result pyval) : world :=
  mkWorld (fun _ => Toy.noon) 0 [] (fun _ => None) (fun _ => false) (fun _ _ => [])
    (fun p => Raise (mkExn FileNotFoundError p))
    (fun p => Raise (mkExn FileNotFoundError p))
    (fun _ => true) (fun _ => true) []
    (fun _ => reply) [].

End Worlds.

(** ** Reports on disk *)

Module ReportWriting.
Import Py Sys Validator TextFacts ValidatorFacts ReportFacts.
Section Facts.
Context {FT : FloatType} {P : PyPrim}.

(** One lookup of [_generate_html_report]: it raises, or the report goes
    on with its value. *)
Ltac step_result :=
  match goal with
  | |- exists e, rbind ?m _ = Raise e =>
      destruct m; cbn [rbind]; [|eexists; reflexivity]
  end.

(** Every path through [_generate_html_report] ends in an exception. *)
Ltac html_raises :=
  unfold _generate_html_report; repeat step_result;
  eexists; apply html_template_unformattable; reflexivity.

(** X1.  The HTML report is never produced, whatever it is asked for: either a
    lookup in the results raises, or the template does. *)
Theorem html_report_never_returns r :
  exists e, _generate_html_report r = Raise e.
Proof.
  unfold _generate_html_report.
  destruct (method_get r "scene_results" (VList [])) as [scenes|e];
    cbn [rbind]; [|eexists; reflexivity].
  destruct (py_iter scenes) as [items|e]; cbn [rbind]; [|eexists; reflexivity].
  destruct (scene_blocks items) as [blocks|e]; cbn [rbind]; [|eexists; reflexivity].
  repeat step_result.
  eexists. apply html_template_unformattable. reflexivity.
Qed.

(** Either the call raises before there is a report text and leaves the
    world as it was, or it goes on to deliver a text, after a warning
    for an unknown format. *)
Lemma generate_report_cases self r out w :
  (exists e, generate_report self r out w = (Raise e, w))
  \/ (exists report l, generate_report self r out w
                       = deliver report out (with_log (w_log w ++ l) w)).
Proof.
  assert (Hw : with_log (w_log w ++ []) w = w)
    by (rewrite app_nil_r; destruct w; reflexivity).
  destruct (method_get (config self) "report_format" (VStr "html")) as [fmt|e] eqn:Ef;
    [|left; unfold generate_report, bind, lift; rewrite Ef; eauto].
  destruct (method_lower fmt) as [ft|e] eqn:El;
    [|left; unfold generate_report, bind, lift; rewrite Ef; cbv beta iota;
      rewrite El; eauto].
  destruct (str_eqb ft "html") eqn:Eh; [|destruct (str_eqb ft "json") eqn:Ej].
  - left. assert (Hr : exists e, _generate_html_report r = Raise e) by html_raises.
    destruct Hr as [e Eg]. exists e.
    unfold generate_report, bind, lift. rewrite Ef. cbv beta iota.
    rewrite El. cbv beta iota. rewrite Eh, Eg. reflexivity.
  - right. exists (Json.dumps r 2), []. rewrite Hw.
    unfold generate_report, bind at 1, lift. rewrite Ef.
    unfold bind at 1. rewrite El. rewrite Eh, Ej. reflexivity.
  - right. eexists (Json.dumps r 2), [_].
    unfold generate_report, bind at 1, lift. rewrite Ef.
    unfold bind at 1. rewrite El. rewrite Eh, Ej. reflexivity.
Qed.

(** X2.  The file holds what the call returns: a call that returns with an
    output path has written one file, at that path, with the returned
    text; without a path, or with the empty path, it has written
    nothing. *)
Theorem generate_report_file_is_report self r out w text w' :
  generate_report self r out w = (Ok text, w') ->
  w_written w' =
  w_written w ++ match path_given out with
                 | Some path => [(path, text)]
                 | None => []
                 end.
Proof.
  intros H. destruct (generate_report_cases self r out w) as [[e He]|(rep & l & Hd)].
  - rewrite He in H. discriminate.
  - rewrite Hd in H. unfold deliver in H.
    destruct (path_given out) as [path|].
    + unfold bind, write_file, log_emit, ret in H. cbn [w_writable with_log] in H.
      destruct (w_writable w path); inversion H; subst. reflexivity.
    + unfold ret in H. inversion H; subst. cbn. now rewrite app_nil_r.
Qed.


End Facts.

Lemma generate_report_file_is_report_witness :
  let r := scene_result (VStr "S1") "2024-01-02T12:00:00" true [] in
  let out := generate_report (Toy.validator_with "json") r (Some (lit "r.json")) Toy.world0 in
  w_written (snd out) = [(lit "r.json", Json.dumps r 2)].
Proof.
  intros r out.
  apply (generate_report_file_is_report (Toy.validator_with "json") r
           (Some (lit "r.json")) Toy.world0 (Json.dumps r 2) (snd out)).
  vm_compute. reflexivity.
Defined.


End ReportWriting.

(** ** The validator on inputs it was not written for *)

Module ValidatorEdges.
Import Py Sys Validator TextFacts ValidatorFacts.
Section Facts.
Context {FT : FloatType} {P : PyPrim}.

Lemma foldM_app {A B} (f : B -> A -> M B) l1 l2 : forall b w,
  foldM f (l1 ++ l2) b w =
  match foldM f l1 b w with
  | (Ok b', w') => foldM f l2 b' w'
  | (Raise e, w') => (Raise e, w')
  end.
Proof.
  induction l1 as [|x l1 IH]; intros b w; cbn [app foldM]; [reflexivity|].
  unfold bind. destruct (f b x w) as [[b'|e] w1]; [apply IH|reflexivity].
Qed.

Lemma tally_scene_not_object self results v w :
  is_object v = false ->
  tally_scene self results v w = (Raise (no_attribute v "get"), w).
Proof.
  intros Hv. unfold tally_scene, bind.
  now rewrite (validate_scene_not_object self v w Hv).
Qed.

(** The loop over the scenes stops at the first value that is not an
    object. *)
Lemma tally_stops self fields pre v post pid ts n w :
  requires (validation_rules self) fields ->
  Forall (fun s => is_object s = true) pre ->
  is_object v = false ->
  exists w',
    foldM (tally_scene self) (pre ++ v :: post) (project_result pid ts n 0 0 []) w
    = (Raise (no_attribute v "get"), w').
Proof.
  intros Hreq Hpre Hv. rewrite foldM_app.
  destruct (foldM_tally self fields Hreq pre Hpre pid ts n 0%Z 0%Z [] w)
    as (rs & w1 & _ & Hf).
  rewrite Hf. cbn [foldM]. unfold bind at 1.
  rewrite tally_scene_not_object by exact Hv. eauto.
Qed.

Lemma validate_project_stops self fields pre v post w :
  requires (validation_rules self) fields ->
  Forall (fun s => is_object s = true) pre ->
  is_object v = false ->
  exists w',
    validate_project self (pre ++ v :: post) w = (Raise (no_attribute v "get"), w').
Proof.
  intros Hreq Hpre Hv. unfold validate_project.
  unfold bind at 1. unfold log_emit at 1.
  destruct pre as [|s pre].
  - cbn [app]. unfold bind at 1, lift.
    destruct v; try discriminate Hv; eexists; reflexivity.
  - inversion Hpre as [|s0 l0 Hs Hpre']; subst.
    destruct s as [| | | | | |d]; try discriminate Hs.
    cbn [app]. unfold bind at 1, lift at 1. cbn [method_get].
    unfold bind at 1, datetime_now at 1. unfold bind at 1.
    match goal with
    | |- context [foldM _ _ (VDict [(_, ?pid); (_, VStr ?ts); (_, VInt ?n); _; _; _; _])] =>
        fold (project_result pid ts n 0 0 [])
    end.
    change (VDict d :: pre ++ v :: post) with ((VDict d :: pre) ++ v :: post).
    match goal with
    | |- context [foldM _ _ (project_result ?pid ?ts ?n 0 0 []) ?w0] =>
        destruct (tally_stops self fields (VDict d :: pre) v post pid ts n w0
                    Hreq Hpre Hv) as [w' Hf]
    end.
    rewrite Hf. eauto.
Qed.

(** X4.  A project with a scene that is not an object is not validated at all:
    the scenes before it are validated and logged, then
    [scene_data.get] raises [AttributeError] and no result is
    returned. *)
Theorem validate_project_non_object self fields pre v post w :
  requires (validation_rules self) fields ->
  Forall (fun s => is_object s = true) pre ->
  is_object v = false ->
  fst (validate_project self (pre ++ v :: post) w) = Raise (no_attribute v "get").
Proof.
  intros Hreq Hpre Hv.
  destruct (validate_project_stops self fields pre v post w Hreq Hpre Hv) as [w' H].
  now rewrite H.
Qed.

(** X5.  Rules without [scene_structure], or whose [scene_structure] has no
    [required_metadata], make every validation raise the [KeyError] of
    the lookup: the scene is announced in the log, the clock is read, and
    no result is returned. *)
Theorem validate_scene_incomplete_rules self d w e :
  py_getitem (validation_rules self) (VStr "scene_structure") = Raise e
  \/ (exists structure,
        py_getitem (validation_rules self) (VStr "scene_structure") = Ok structure
        /\ py_getitem structure (VStr "required_metadata") = Raise e) ->
  validate_scene self (VDict d) w = (Raise e, started (scene_id_of d) w).
Proof.
  intros H. rewrite validate_scene_unfold. cbn [method_get].
  fold (scene_id_of d). unfold required_fields.
  destruct H as [H|(st & H1 & H2)].
  - now rewrite H.
  - rewrite H1. cbn [rbind]. now rewrite H2.
Qed.

End Facts.

Lemma validate_project_non_object_witness :
  fst (validate_project (Toy.validator_with "json")
         [Toy.scene_S1; VStr "S2"; Toy.scene_S1] Toy.world0)
  = Raise (no_attribute (VStr "S2") "get").
Proof.
  apply (validate_project_non_object (Toy.validator_with "json")
           [lit "scene_id"; lit "timestamp"; lit "location"]
           [Toy.scene_S1] (VStr "S2") [Toy.scene_S1] Toy.world0).
  - eexists. split; reflexivity.
  - repeat constructor.
  - reflexivity.
Defined.

Lemma validate_scene_incomplete_rules_witness :
  fst (validate_scene (mkValidator (VDict []) (VDict [])) (VDict []) Toy.world0)
  = Raise (key_error (VStr "scene_structure")).
Proof.
  rewrite (validate_scene_incomplete_rules (mkValidator (VDict []) (VDict []))
             [] Toy.world0 (key_error (VStr "scene_structure"))).
  - reflexivity.
  - left. reflexivity.
Defined.

End ValidatorEdges.

(** ** What the decoder raises *)

Module JsonErrors.
Import Py Json.

(** A failure of the decoder is a [JSONDecodeError]. *)
Definition decode_failure {A} (r : result A) : Prop :=
  match r with
  | Raise e => exn_cls e = JSONDecodeError
  | Ok _ => True
  end.

Lemma decode_failure_bind {A B} (m : result A) (k : A -> result B) :
  decode_failure m -> (forall a, decode_failure (k a)) -> decode_failure (rbind m k).
Proof. destruct m; cbn [rbind decode_failure]; auto. Qed.

Ltac decode_cases IH :=
  repeat first
    [ exact I
    | reflexivity
    | apply decode_failure_bind; [apply IH; cbn [length]; lia | intros ?]
    | match goal with
      | |- decode_failure (if ?b then _ else _) => destruct b
      | |- decode_failure (match ?x with _ => _ end) => destruct x
      end ].

Lemma scanstring_failure : forall n s, length s <= n -> decode_failure (scanstring s).
Proof.
  induction n as [|n IHn]; intros s Hlen.
  - destruct s; [reflexivity|cbn in Hlen; lia].
  - assert (IH : forall s', length s' < length s -> decode_failure (scanstring s'))
      by (intros s' H; apply IHn; lia).
    clear IHn Hlen. destruct s as [|c s1]; [reflexivity|].
    cbn [scanstring]. decode_cases IH.
Qed.

Section Scanner.
Context {FT : FloatType} {P : PyPrim}.

Lemma scan_failure fuel :
  (forall s, decode_failure (scan_once fuel s))
  /\ (forall s, decode_failure (scan_items fuel s))
  /\ (forall s, decode_failure (scan_pairs fuel s)).
Proof.
  induction fuel as [|fuel (IH1 & IH2 & IH3)]; [repeat split; reflexivity|].
  repeat split; intros s.
  - destruct s as [|c s']; [reflexivity|]. rewrite JsonSteps.scan_once_step.
    repeat first
      [ exact I | reflexivity
      | apply decode_failure_bind;
          [first [apply IH2 | apply IH3 | eapply scanstring_failure; reflexivity]
          | intros ?]
      | match goal with
        | |- decode_failure (if ?b then _ else _) => destruct b
        | |- decode_failure (match ?x with _ => _ end) => destruct x
        end ].
  - rewrite JsonSteps.scan_items_step.
    repeat first
      [ exact I | reflexivity
      | apply decode_failure_bind; [first [apply IH1 | apply IH2] | intros ?]
      | match goal with
        | |- decode_failure (match ?x with _ => _ end) => destruct x
        end ].
  - rewrite JsonSteps.scan_pairs_step.
    repeat first
      [ exact I | reflexivity
      | apply decode_failure_bind;
          [first [apply IH1 | apply IH3 | eapply scanstring_failure; reflexivity]
          | intros ?]
      | match goal with
        | |- decode_failure (match ?x with _ => _ end) => destruct x
        end ].
Qed.

(** [json.loads] returns or raises [JSONDecodeError], nothing else. *)
Lemma loads_failure s e : loads s = Raise e -> exn_cls e = JSONDecodeError.
Proof.
  intros H. assert (D : decode_failure (loads s)); [|now rewrite H in D].
  unfold loads. destruct (after 65279 s); [reflexivity|].
  apply decode_failure_bind; [apply scan_failure|].
  intros r. destruct (skip_ws (snd r)); [exact I|reflexivity].
Qed.

End Scanner.
End JsonErrors.

(** ** Construction *)

Module ConstructionFacts.
Import Py Sys Validator TextFacts ValidatorFacts ReportFacts JsonErrors.
Section Facts.
Context {FT : FloatType} {P : PyPrim}.

(** A file that is not there. *)
Definition missing (w : world) (path : str) : Prop :=
  exists e, w_read w path = Raise e /\ exn_cls e = FileNotFoundError.

Definition environ_or (w : world) (name default : str) : pyval :=
  VStr (match w_environ w name with Some s => s | None => default end).

(** The configuration [_load_config] falls back to. *)
Definition default_config (w : world) : pyval :=
  VDict [(lit "api_key", environ_or w "GEMINI_API_KEY" []);
         (lit "project_id", environ_or w "GOOGLE_CLOUD_PROJECT" []);
         (lit "storage_bucket", environ_or w "STORAGE_BUCKET" "media-automation-tools");
         (lit "validation_rules_path", VStr "config/validation_rules.json");
         (lit "report_format", VStr "html");
         (lit "verbose_logging", VBool true)].

Definition warn (text : str) (w : world) : world :=
  with_log (w_log w ++ [mkLog logger WARNING text]) w.

Lemma load_config_default path w :
  missing w path ->
  _load_config path w =
  (Ok (default_config w),
   warn ("Config file not found at " ++ path ++ ", using defaults") w).
Proof.
  intros (e & He & Hc). unfold _load_config, try_except, load_json, bind at 1.
  rewrite He, Hc. reflexivity.
Qed.


(** X6.  A configuration file that is there decides alone: [_load_config]
    returns what [json.load] makes of its text and raises what
    [json.load] raises, without a log record; the defaults are not used
    for a malformed file. *)
Theorem load_config_present path w text :
  w_read w path = Ok text ->
  _load_config path w = (Json.loads text, w).
Proof.
  intros H. unfold _load_config, try_except, load_json, bind, lift. rewrite H.
  destruct (Json.loads text) as [v|e] eqn:E; [reflexivity|].
  now rewrite (loads_failure text e E).
Qed.


(** The path of the rules in a configuration. *)
Definition rules_path_of (config : dict) : pyval :=
  match dict_lookup "validation_rules_path" config with
  | Some p => p
  | None => VStr "config/validation_rules.json"
  end.

Lemma load_rules_default config path w :
  rules_path_of config = VStr path ->
  missing w path ->
  _load_validation_rules (VDict config) w =
  (Ok default_rules,
   warn ("Validation rules file not found at " ++ path ++ ", using defaults") w)
  /\ requires default_rules [lit "scene_id"; lit "timestamp"; lit "location"].
Proof.
  intros Hp (e & He & Hc). split; [|eexists; split; reflexivity].
  unfold _load_validation_rules, bind at 1, lift at 1. cbn [method_get].
  fold (rules_path_of config). rewrite Hp.
  unfold try_except, load_json, bind, lift. cbn [open_path].
  rewrite He, Hc. reflexivity.
Qed.


(** X7.  A configuration file that holds a JSON value other than an object
    makes the constructor raise [AttributeError]: the rules path is
    looked up with [get]. *)
Theorem init_config_not_object path w text v :
  w_read w path = Ok text ->
  Json.loads text = Ok v ->
  is_object v = false ->
  init path w = (Raise (no_attribute v "get"), w).
Proof.
  intros Hr Hl Hv. unfold init, bind at 1.
  unfold _load_config, try_except, load_json, bind at 1, lift at 1. rewrite Hr.
  unfold bind at 1. rewrite Hl.
  unfold _load_validation_rules, bind at 1, lift at 1.
  destruct v; try discriminate Hv; reflexivity.
Qed.

(** The world after a construction that found neither file. *)
Definition constructed_by_default (path : str) (w : world) : world :=
  with_log (w_log w ++
    [mkLog logger WARNING ("Config file not found at " ++ path ++ ", using defaults");
     mkLog logger WARNING
       ("Validation rules file not found at config/validation_rules.json, using defaults");
     mkLog logger INFO "SceneValidator initialized"]) w.

Lemma init_defaults path w :
  missing w path ->
  missing w "config/validation_rules.json" ->
  init path w =
  (Ok (mkValidator (default_config w) default_rules), constructed_by_default path w).
Proof.
  intros Hc Hr. unfold init, bind at 1. rewrite (load_config_default path w Hc).
  unfold bind at 1.
  destruct (load_rules_default
              [(lit "api_key", environ_or w "GEMINI_API_KEY" []);
               (lit "project_id", environ_or w "GOOGLE_CLOUD_PROJECT" []);
               (lit "storage_bucket",
                environ_or w "STORAGE_BUCKET" "media-automation-tools");
               (lit "validation_rules_path", VStr "config/validation_rules.json");
               (lit "report_format", VStr "html");
               (lit "verbose_logging", VBool true)]
              "config/validation_rules.json"
              (warn ("Config file not found at " ++ path ++ ", using defaults") w)
              eq_refl) as [H _].
  { destruct Hr as (e & He & Hcls). exists e. split; [exact He|exact Hcls]. }
  fold (default_config w) in H. rewrite H.
  unfold bind, log_emit, ret, constructed_by_default, warn, with_log.
  cbn [w_log w_clock w_tick w_environ w_exists w_glob w_mtime w_read
       w_makedirs w_writable w_written w_post w_sent].
  rewrite <- !app_assoc. reflexivity.
Qed.

(** X8.  A validator constructed where neither file exists validates against
    the default rules, and can produce no report: its format is ["html"],
    whose template cannot be formatted, so that every call of
    [generate_report] raises and writes nothing. *)
Theorem init_defaults_no_report path w :
  str_lower "html" = lit "html" ->
  missing w path ->
  missing w "config/validation_rules.json" ->
  exists self w0,
    init path w = (Ok self, w0)
    /\ requires (validation_rules self) [lit "scene_id"; lit "timestamp"; lit "location"]
    /\ forall r out w1, exists e, generate_report self r out w1 = (Raise e, w1).
Proof.
  intros Hlow Hc Hr. eexists; eexists. split; [apply (init_defaults path w Hc Hr)|].
  split; [eexists; split; reflexivity|].
  intros r out w1.
  rewrite (generate_report_html _ r out w1 "html"); [|reflexivity|exact Hlow].
  unfold _generate_html_report.
  repeat match goal with
         | |- exists e, match rbind ?m _ with _ => _ end = _ =>
             destruct m; cbn [rbind]; [|eexists; reflexivity]
         end.
  rewrite html_template_unformattable by reflexivity. eauto.
Qed.

End Facts.

(** A world without any file. *)
Lemma world0_missing path : missing Toy.world0 path.
Proof. eexists. split; reflexivity. Qed.


Lemma load_config_present_witness :
  fst (_load_config Toy.scene_path (Toy.world_watched Toy.noon)) = Ok Toy.scene_S1.
Proof.
  rewrite (load_config_present Toy.scene_path (Toy.world_watched Toy.noon)
             Toy.scene_S1_text eq_refl).
  reflexivity.
Defined.


Lemma init_config_not_object_witness :
  init "config/config.json" (Worlds.world_with_file "config/config.json" "[]")
  = (Raise (no_attribute (VList []) "get"),
     Worlds.world_with_file "config/config.json" "[]").
Proof.
  apply (init_config_not_object "config/config.json"
           (Worlds.world_with_file "config/config.json" "[]") "[]" (VList []));
    reflexivity.
Defined.


Lemma init_defaults_no_report_witness :
  exists self w0,
    init "config/config.json" Toy.world0 = (Ok self, w0)
    /\ exists e, generate_report self Toy.scene_S1 None w0 = (Raise e, w0).
Proof.
  destruct (init_defaults_no_report (P := Toy.prim) "config/config.json" Toy.world0 eq_refl
              (world0_missing _) (world0_missing _))
    as (self & w0 & Hi & _ & Hg).
  exists self, w0. split; [exact Hi|]. apply Hg.
Defined.

End ConstructionFacts.

(** ** The web endpoints *)

Module EndpointFacts.
Import Py Sys TextFacts ValidatorFacts ValidatorEdges.
Section Facts.
Context {FT : FloatType} {P : PyPrim}.

(** The answer to a failed call. *)
Definition failure (e : exn) : Api.response :=
  Api.jsonify_with (VDict [(lit "error", VStr (exn_msg e))]) 500.

Definition error_logged (text : str) (w : world) : world :=
  with_log (w_log w ++ [mkLog Api.logger ERROR text]) w.

Lemma validate_scene_endpoint_unfold validator req w :
  Api.validate_scene validator req w =
  match req with
  | Raise e => (Ok (failure e), error_logged ("Error validating scene: " ++ exn_msg e) w)
  | Ok scene_data =>
      if py_truth scene_data then
        match Validator.validate_scene validator scene_data w with
        | (Ok results, w') => (Ok (Api.jsonify results), w')
        | (Raise e, w') =>
            (Ok (failure e), error_logged ("Error validating scene: " ++ exn_msg e) w')
        end
      else
        (Ok (Api.jsonify_with (VDict [(lit "error", VStr "No scene data provided")]) 400),
         w)
  end.
Proof.
  unfold Api.validate_scene, try_except, bind at 1, lift.
  destruct req as [v|e]; [|reflexivity].
  destruct (py_truth v); cbn [negb]; [|reflexivity].
  unfold bind. destruct (Validator.validate_scene validator v w) as [[r|e] w'];
    reflexivity.
Qed.

Lemma validate_project_endpoint_unfold validator req w :
  Api.validate_project validator req w =
  match req with
  | Raise e => (Ok (failure e), error_logged ("Error validating project: " ++ exn_msg e) w)
  | Ok (VList (scene :: scenes)) =>
      match Validator.validate_project validator (scene :: scenes) w with
      | (Ok results, w') => (Ok (Api.jsonify results), w')
      | (Raise e, w') =>
          (Ok (failure e), error_logged ("Error validating project: " ++ exn_msg e) w')
      end
  | Ok _ =>
      (Ok (Api.jsonify_with
             (VDict [(lit "error",
                      VStr "Invalid project data. Expected array of scenes")]) 400),
       w)
  end.
Proof.
  unfold Api.validate_project, try_except, bind at 1, lift at 1.
  destruct req as [v|e]; [|reflexivity].
  destruct v as [|b|z|f|s|l|d]; cbn [py_truth Api.is_list negb orb].
  - reflexivity.
  - destruct b; reflexivity.
  - destruct (z =? 0)%Z; reflexivity.
  - destruct (float_truth f); reflexivity.
  - destruct s; reflexivity.
  - destruct l as [|scene scenes]; [reflexivity|]. cbn [negb orb py_iter].
    unfold bind, lift.
    destruct (Validator.validate_project validator (scene :: scenes) w)
      as [[r|e] w']; reflexivity.
  - destruct d; reflexivity.
Qed.

(** X9.  Neither validation endpoint raises: whatever the request and the
    validator, a response is returned, with status 200, 400 or 500. *)
Theorem endpoints_always_answer validator req w :
  (exists resp w',
      Api.validate_scene validator req w = (Ok resp, w')
      /\ In (Api.status resp) [200; 400; 500]%Z)
  /\ (exists resp w',
         Api.validate_project validator req w = (Ok resp, w')
         /\ In (Api.status resp) [200; 400; 500]%Z).
Proof.
  split.
  - rewrite validate_scene_endpoint_unfold.
    destruct req as [v|e]; [|do 2 eexists; split; [reflexivity|cbn; auto]].
    destruct (py_truth v); [|do 2 eexists; split; [reflexivity|cbn; auto]].
    destruct (Validator.validate_scene validator v w) as [[r|e] w'];
      do 2 eexists; (split; [reflexivity|cbn; auto]).
  - rewrite validate_project_endpoint_unfold.
    destruct req as [v|e]; [|do 2 eexists; split; [reflexivity|cbn; auto]].
    destruct v as [| | | | |[|scene scenes]|];
      try (do 2 eexists; split; [reflexivity|cbn; auto]).
    destruct (Validator.validate_project validator (scene :: scenes) w)
      as [[r|e] w']; do 2 eexists; (split; [reflexivity|cbn; auto]).
Qed.

(** X10.  A falsy body is answered with 400 without being validated, and the
    world stays as it was: [null], [false], [0], the empty string and
    the empty array, but also the empty object, although it is a
    scene. *)
Theorem scene_endpoint_rejects_falsy validator v w :
  py_truth v = false ->
  Api.validate_scene validator (Ok v) w =
  (Ok (Api.jsonify_with (VDict [(lit "error", VStr "No scene data provided")]) 400), w).
Proof. intros H. rewrite validate_scene_endpoint_unfold. now rewrite H. Qed.

(** X11.  A non-empty object is answered with 200 and the result
    [validate_scene] gives for it. *)
Theorem scene_endpoint_validates validator d fields w :
  requires (Validator.validation_rules validator) fields ->
  d <> [] ->
  Api.validate_scene validator (Ok (VDict d)) w =
  (Ok (Api.jsonify
         (scene_result (scene_id_of d) (isoformat (w_clock w (w_tick w)))
            (no_errors (missing_errors d fields)) (missing_errors d fields))),
   finished (scene_id_of d) w).
Proof.
  intros Hreq Hd. rewrite validate_scene_endpoint_unfold.
  destruct d as [|kv d]; [contradiction|]. cbn [py_truth].
  now rewrite (validate_scene_dict validator (kv :: d) fields w Hreq).
Qed.

(** X12.  A truthy body that is not an object is answered with 500 and the
    text of the [AttributeError] that [validate_scene] raises, which is
    logged. *)
Theorem scene_endpoint_not_object validator v w :
  py_truth v = true ->
  is_object v = false ->
  Api.validate_scene validator (Ok v) w =
  (Ok (failure (no_attribute v "get")),
   error_logged ("Error validating scene: " ++ exn_msg (no_attribute v "get")) w).
Proof.
  intros Ht Ho. rewrite validate_scene_endpoint_unfold, Ht.
  now rewrite (validate_scene_not_object validator v w Ho).
Qed.

(** X13.  Only a non-empty array is validated as a project: every other body
    is answered with 400 and the world stays as it was. *)
Theorem project_endpoint_rejects validator v w :
  (forall scene scenes, v <> VList (scene :: scenes)) ->
  Api.validate_project validator (Ok v) w =
  (Ok (Api.jsonify_with
         (VDict [(lit "error", VStr "Invalid project data. Expected array of scenes")])
         400), w).
Proof.
  intros H. rewrite validate_project_endpoint_unfold.
  destruct v as [| | | | |[|scene scenes]|]; try reflexivity.
  exfalso. exact (H scene scenes eq_refl).
Qed.

(** X14.  A non-empty array of objects is answered with 200 and a project
    result whose counters add up to the number of scenes. *)
Theorem project_endpoint_validates validator scene scenes fields w :
  requires (Validator.validation_rules validator) fields ->
  Forall (fun s => is_object s = true) (scene :: scenes) ->
  exists rs valid invalid w',
    Api.validate_project validator (Ok (VList (scene :: scenes))) w =
    (Ok (Api.jsonify
           (project_result (project_id_of (scene :: scenes))
              (isoformat (w_clock w (w_tick w)))
              (Z.of_nat (S (length scenes))) valid invalid rs)), w')
    /\ length rs = S (length scenes)
    /\ (valid + invalid = Z.of_nat (S (length scenes)))%Z.
Proof.
  intros Hreq Hall.
  destruct (validate_project_objects validator (scene :: scenes) fields w Hreq Hall)
    as (rs & w1 & w' & Hm & Hp).
  exists rs, (Z.of_nat (count_valid rs)), (Z.of_nat (count_invalid rs)), w'.
  pose proof (mapM_length _ _ _ _ _ Hm) as Hlen. cbn [length] in Hlen, Hp.
  split; [|split; [exact Hlen|]].
  - rewrite validate_project_endpoint_unfold. now rewrite Hp.
  - rewrite <- Hlen, <- (count_valid_invalid rs). lia.
Qed.

(** X15.  An array with an element that is not an object is answered with 500
    and the text of the [AttributeError]; no partial result is
    returned. *)
Theorem project_endpoint_not_object validator fields pre v post w :
  requires (Validator.validation_rules validator) fields ->
  Forall (fun s => is_object s = true) pre ->
  is_object v = false ->
  fst (Api.validate_project validator (Ok (VList (pre ++ v :: post))) w)
  = Ok (failure (no_attribute v "get")).
Proof.
  intros Hreq Hpre Hv.
  destruct (validate_project_stops validator fields pre v post w Hreq Hpre Hv)
    as [w' H].
  rewrite validate_project_endpoint_unfold.
  destruct (pre ++ v :: post) as [|scene scenes] eqn:E;
    [destruct pre; discriminate E|].
  rewrite H. reflexivity.
Qed.

(** X16.  The configuration endpoint leaves out [api_key] and nothing else:
    every other key is bound as in the configuration. *)
Theorem get_config_hides_api_key validator config :
  Validator.config validator = VDict config ->
  exists safe,
    Api.get_config validator = Ok (Api.jsonify (VDict safe))
    /\ dict_lookup "api_key" safe = None
    /\ forall k, k <> lit "api_key" -> dict_lookup k safe = dict_lookup k config.
Proof.
  intros Hc. unfold Api.get_config. rewrite Hc. cbn [Api.method_items rbind].
  eexists. split; [reflexivity|]. cbn [existsb]. clear Hc. split.
  - induction config as [|[k x] config IH]; [reflexivity|]. cbn [filter fst].
    rewrite orb_false_r.
    destruct (str_eqb k "api_key") eqn:E; cbn [negb]; [exact IH|].
    cbn [dict_lookup]. rewrite (proj2 (str_eqb_neq _ _)); [exact IH|].
    apply str_eqb_neq in E. congruence.
  - intros k Hk. induction config as [|[k' x] config IH]; [reflexivity|].
    cbn [filter fst]. rewrite orb_false_r.
    destruct (str_eqb k' "api_key") eqn:E; cbn [negb dict_lookup].
    + apply str_eqb_eq in E. subst k'.
      rewrite (proj2 (str_eqb_neq _ _) Hk). exact IH.
    + destruct (str_eqb k k'); [reflexivity|exact IH].
Qed.

End Facts.

Lemma scene_endpoint_rejects_falsy_witness :
  Api.validate_scene (Toy.validator_with "json") (Ok (VDict [])) Toy.world0
  = (Ok (Api.mkResponse 400 (VDict [(lit "error", VStr "No scene data provided")])),
     Toy.world0).
Proof.
  apply (scene_endpoint_rejects_falsy (Toy.validator_with "json") (VDict [])
           Toy.world0 eq_refl).
Defined.

Lemma scene_endpoint_validates_witness :
  fst (Api.validate_scene (Toy.validator_with "json") (Ok Toy.scene_S1) Toy.world0)
  = Ok (Api.jsonify
          (scene_result (VStr "S1") "2024-01-02T12:00:00" false
             [VStr "Missing required metadata: location"])).
Proof.
  unfold Toy.scene_S1.
  rewrite (scene_endpoint_validates (Toy.validator_with "json") _
             [lit "scene_id"; lit "timestamp"; lit "location"] Toy.world0).
  - reflexivity.
  - eexists. split; reflexivity.
  - discriminate.
Defined.

Lemma scene_endpoint_not_object_witness :
  fst (Api.validate_scene (Toy.validator_with "json") (Ok (VList [VInt 1])) Toy.world0)
  = Ok (Api.mkResponse 500
          (VDict [(lit "error", VStr "'list' object has no attribute 'get'")])).
Proof.
  now rewrite (scene_endpoint_not_object (Toy.validator_with "json") (VList [VInt 1])
                 Toy.world0 eq_refl eq_refl).
Defined.

Lemma project_endpoint_rejects_witness :
  Api.validate_project (Toy.validator_with "json") (Ok Toy.scene_S1) Toy.world0
  = (Ok (Api.mkResponse 400
           (VDict [(lit "error",
                    VStr "Invalid project data. Expected array of scenes")])),
     Toy.world0).
Proof.
  apply (project_endpoint_rejects (Toy.validator_with "json") Toy.scene_S1 Toy.world0).
  intros scene scenes H. discriminate H.
Defined.

Lemma project_endpoint_validates_witness :
  exists rs valid invalid w',
    Api.validate_project (Toy.validator_with "json")
      (Ok (VList [Toy.scene_S1; Toy.scene_S1])) Toy.world0 =
    (Ok (Api.jsonify
           (project_result (VStr "unknown") "2024-01-02T12:00:00" 2 valid invalid rs)),
     w')
    /\ length rs = 2
    /\ (valid + invalid = 2)%Z.
Proof.
  apply (project_endpoint_validates (Toy.validator_with "json") Toy.scene_S1
           [Toy.scene_S1] [lit "scene_id"; lit "timestamp"; lit "location"] Toy.world0).
  - eexists. split; reflexivity.
  - repeat constructor.
Defined.

Lemma project_endpoint_not_object_witness :
  fst (Api.validate_project (Toy.validator_with "json")
         (Ok (VList [Toy.scene_S1; VInt 7])) Toy.world0)
  = Ok (Api.mkResponse 500
          (VDict [(lit "error", VStr "'int' object has no attribute 'get'")])).
Proof.
  apply (project_endpoint_not_object (Toy.validator_with "json")
           [lit "scene_id"; lit "timestamp"; lit "location"]
           [Toy.scene_S1] (VInt 7) [] Toy.world0).
  - eexists. split; reflexivity.
  - repeat constructor.
  - reflexivity.
Defined.

Lemma get_config_hides_api_key_witness :
  let validator :=
    Validator.mkValidator
      (VDict [(lit "api_key", VStr "secret"); (lit "report_format", VStr "json")])
      Validator.default_rules in
  exists safe,
    Api.get_config validator = Ok (Api.jsonify (VDict safe))
    /\ dict_lookup "api_key" safe = None
    /\ dict_lookup "report_format" safe = Some (VStr "json").
Proof.
  intros validator.
  destruct (get_config_hides_api_key validator
              [(lit "api_key", VStr "secret"); (lit "report_format", VStr "json")]
              eq_refl) as (safe & H & Hkey & Hrest).
  exists safe. split; [exact H|]. split; [exact Hkey|].
  rewrite Hrest; [reflexivity|discriminate].
Defined.

End EndpointFacts.

(** ** The client with a key *)

Module ClientFacts.
Import Py Sys Gemini TextFacts ValidatorFacts GeminiFacts.
Section Facts.
Context {FT : FloatType} {P : PyPrim}.

(** The key an analyzer is built with: the argument when it is not
    empty, the environment variable when that is not empty, none
    otherwise. *)
Definition chosen_key (key : option str) (w : world) : option str :=
  match key with
  | Some (c :: s) => Some (c :: s)
  | _ => match w_environ w "GEMINI_API_KEY" with
         | Some (c :: s) => Some (c :: s)
         | _ => None
         end
  end.

Definition log_initialized (model_name : str) : log_record :=
  mkLog logger INFO ("Initialized Gemini analyzer with model: " ++ model_name).

Definition log_no_key : log_record :=
  mkLog logger WARNING "No Gemini API key provided. Set GEMINI_API_KEY env variable.".

(** X17.  A non-empty key argument wins over the environment, an empty one
    counts as none; the constructor always returns, and warns exactly
    when neither source gives a key. *)
Theorem init_key_choice key model_name w :
  exists self w0,
    init key model_name w = (Ok self, w0)
    /\ model self = model_name
    /\ match chosen_key key w with
       | Some k =>
           api_key self = VStr k
           /\ w_log w0 = w_log w ++ [log_initialized model_name]
       | None =>
           py_truth (api_key self) = false
           /\ w_log w0 = w_log w ++ [log_no_key; log_initialized model_name]
       end.
Proof.
  unfold init, chosen_key.
  destruct key as [[|c s]|]; unfold bind, ret, environ_get, log_emit;
    cbn [py_truth];
    try (destruct (w_environ w "GEMINI_API_KEY") as [[|c s]|]; cbn [py_truth]);
    do 2 eexists; (split; [reflexivity|]); (split; [reflexivity|]);
    (split; [reflexivity|]); cbn [w_log with_log]; now rewrite <- ?app_assoc.
Qed.

(** The request [_call_gemini_api] sends. *)
Definition request_of (self : GeminiAnalyzer) (prompt : str) : http_request :=
  mkReq (base_url self ++ ":generateContent?key=" ++ py_str (api_key self))
    (request_data prompt).

Definition call_failed (e : exn) (w : world) : world :=
  with_log (w_log w ++ [mkLog logger ERROR ("Error calling Gemini API: " ++ exn_msg e)])
    w.

Lemma call_with_key self prompt w :
  py_truth (api_key self) = true ->
  _call_gemini_api self prompt w =
  let w1 := with_sent (w_sent w ++ [request_of self prompt]) w in
  match w_post w (request_of self prompt) with
  | Ok reply => (Ok reply, w1)
  | Raise e =>
      if is_request_exception (exn_cls e)
      then (Ok (VDict [(lit "error", VStr (exn_msg e))]), call_failed e w1)
      else (Raise e, w1)
  end.
Proof.
  intros Hk. unfold _call_gemini_api. rewrite Hk. cbn [negb].
  unfold try_except, http_post. fold (request_of self prompt).
  destruct (w_post w (request_of self prompt)) as [reply|e]; [reflexivity|].
  destruct (is_request_exception (exn_cls e)); reflexivity.
Qed.

(** X18.  With a key, a call sends exactly one request, to the model's
    [generateContent] address with the key in the query and the prompt
    in the body; it returns the reply, turns a request error into an
    [error] record, and lets any other exception through. *)
Theorem call_sends_one_request self prompt w :
  py_truth (api_key self) = true ->
  let out := _call_gemini_api self prompt w in
  w_sent (snd out) = w_sent w ++ [request_of self prompt]
  /\ match w_post w (request_of self prompt) with
     | Ok reply => fst out = Ok reply
     | Raise e =>
         if is_request_exception (exn_cls e)
         then fst out = Ok (VDict [(lit "error", VStr (exn_msg e))])
         else fst out = Raise e
     end.
Proof.
  intros Hk out. subst out. rewrite (call_with_key self prompt w Hk). cbv zeta.
  destruct (w_post w (request_of self prompt)) as [reply|e]; [split; reflexivity|].
  destruct (is_request_exception (exn_cls e)); split; reflexivity.
Qed.

(** X19.  A request error does not make an analysis raise: it comes back as
    [success: false] with the text of the error, after one request. *)
Theorem analysis_reports_request_error self character current previous w e :
  py_truth (api_key self) = true ->
  let prompt := _create_dialogue_prompt character current previous in
  w_post w (request_of self prompt) = Raise e ->
  exn_cls e = RequestException ->
  let out := analyze_dialogue_consistency self character current previous w in
  fst out = Ok (VDict [(lit "success", VBool false); (lit "error", VStr (exn_msg e))])
  /\ w_sent (snd out) = w_sent w ++ [request_of self prompt].
Proof.
  intros Hk prompt Hp Hc out. subst out. unfold analyze_dialogue_consistency, bind.
  fold prompt. rewrite (call_with_key self prompt w Hk). cbv zeta.
  rewrite Hp, Hc. cbn [is_request_exception]. rewrite parse_unfold.
  split; reflexivity.
Qed.


(** *** The history a prompt shows *)

Lemma last_five_app {A} (pre l : list A) :
  length l = 5 -> last_five (pre ++ l) = l.
Proof.
  intros Hl. unfold last_five, slice, clamp_index. rewrite length_app, Hl.
  cbn [Z.ltb Z.compare].
  destruct (Z.of_nat (length pre + 5) <? 0)%Z eqn:E; [apply Z.ltb_lt in E; lia|].
  rewrite Z.min_id.
  replace (Z.max 0 (Z.of_nat (length pre + 5) + -5)) with (Z.of_nat (length pre))
    by lia.
  rewrite Nat2Z.id.
  replace (Z.to_nat (Z.of_nat (length pre + 5) - Z.of_nat (length pre))) with 5 by lia.
  rewrite skipn_app, skipn_all, Nat.sub_diag. cbn [skipn app].
  rewrite <- Hl. apply firstn_all.
Qed.

(** X21.  Only the last five entries of a history reach the prompt: what comes
    before them changes none of the three prompts, not even by an
    error. *)
Theorem prompts_show_last_five character current pre l :
  length l = 5 ->
  _create_dialogue_prompt character current (pre ++ l)
  = _create_dialogue_prompt character current l
  /\ _create_emotion_prompt character current (pre ++ l)
     = _create_emotion_prompt character current l
  /\ _create_narrative_prompt current (pre ++ l)
     = _create_narrative_prompt current l.
Proof.
  intros Hl.
  unfold _create_dialogue_prompt, _create_emotion_prompt, _create_narrative_prompt.
  pose proof (last_five_app [] l Hl) as Hself. cbn [app] in Hself.
  rewrite (last_five_app pre l Hl), Hself.
  repeat split; reflexivity.
Qed.

Lemma result_map_stops {A B} (f : A -> result B) pre v post e :
  (forall x, In x pre -> exists y, f x = Ok y) ->
  f v = Raise e ->
  result_map f (pre ++ v :: post) = Raise e.
Proof.
  intros Hpre Hv. induction pre as [|x pre IH]; cbn [app result_map].
  - now rewrite Hv.
  - destruct (Hpre x (or_introl eq_refl)) as [y ->]. cbn [rbind].
    rewrite IH; [reflexivity|]. intros x' Hx'. apply Hpre. now right.
Qed.

(** X22.  An entry of the emotion or scene history that is not an object, among
    the last five, makes the analysis raise [AttributeError] before the
    key is looked at: nothing is logged and no request is sent. *)
Theorem history_entry_not_object self character current previous objs v rest w :
  last_five previous = objs ++ v :: rest ->
  Forall (fun x => is_object x = true) objs ->
  is_object v = false ->
  analyze_emotional_continuity self character current previous w
  = (Raise (no_attribute v "get"), w)
  /\ analyze_scene_narrative self current previous w
     = (Raise (no_attribute v "get"), w).
Proof.
  intros Hl Hobjs Hv.
  unfold analyze_emotional_continuity, analyze_scene_narrative, bind, lift,
    _create_emotion_prompt, _create_narrative_prompt.
  rewrite Hl.
  rewrite (result_map_stops emotion_line objs v rest (no_attribute v "get")),
          (result_map_stops scene_line objs v rest (no_attribute v "get")).
  - split; reflexivity.
  - intros x Hx. rewrite Forall_forall in Hobjs. specialize (Hobjs x Hx).
    destruct x; try discriminate. eexists. reflexivity.
  - destruct v; try discriminate; reflexivity.
  - intros x Hx. rewrite Forall_forall in Hobjs. specialize (Hobjs x Hx).
    destruct x; try discriminate. eexists. reflexivity.
  - destruct v; try discriminate; reflexivity.
Qed.

End Facts.

(** An analyzer with a key. *)
Definition keyed : GeminiAnalyzer :=
  mkAnalyzer (VStr "k") "gemini-pro"
    "https://generativelanguage.googleapis.com/v1beta/models/gemini-pro".

Lemma call_sends_one_request_witness :
  let w := Worlds.world_replying (Ok (VDict [])) in
  let out := _call_gemini_api keyed "hello" w in
  w_sent (snd out) = [request_of keyed "hello"] /\ fst out = Ok (VDict []).
Proof.
  intros w out.
  exact (call_sends_one_request keyed "hello" w eq_refl).
Defined.

Lemma analysis_reports_request_error_witness :
  let w := Worlds.world_replying (Raise (mkExn RequestException "503")) in
  let out := analyze_dialogue_consistency keyed "John" "Hello." [] w in
  fst out = Ok (VDict [(lit "success", VBool false); (lit "error", VStr "503")])
  /\ w_sent (snd out)
     = [request_of keyed (_create_dialogue_prompt "John" "Hello." [])].
Proof.
  intros w out.
  exact (analysis_reports_request_error keyed "John" "Hello." [] w
           (mkExn RequestException "503") eq_refl eq_refl eq_refl).
Defined.


Lemma prompts_show_last_five_witness :
  let l := [VStr "a"; VStr "b"; VStr "c"; VStr "d"; VStr "e"] in
  _create_dialogue_prompt "John" "Hello." (VStr "z" :: l)
  = _create_dialogue_prompt "John" "Hello." l.
Proof.
  intros l.
  exact (proj1 (prompts_show_last_five "John" "Hello." [VStr "z"] l eq_refl)).
Defined.

Lemma history_entry_not_object_witness :
  analyze_emotional_continuity keyed "John" "calm" [VDict []; VStr "angry"]
    Toy.world0
  = (Raise (no_attribute (VStr "angry") "get"), Toy.world0).
Proof.
  exact (proj1 (history_entry_not_object keyed "John" "calm"
                  [VDict []; VStr "angry"] [VDict []] (VStr "angry") []
                  Toy.world0 eq_refl ltac:(repeat constructor) eq_refl)).
Defined.

End ClientFacts.

(** ** Processing a scene file *)

Module ProcessingFacts.
Import Py Sys Trigger TextFacts ValidatorFacts ReportFacts TriggerFacts.
Import JsonFacts JsonRoundTrip RoundTripFacts.
Section Facts.
Context {FT : FloatType} {P : PyPrim}.

Lemma bind_returns {A B} (m : M A) (k : A -> M B) w b w' :
  bind m k w = (Ok b, w') ->
  exists a w1, m w = (Ok a, w1) /\ k a w1 = (Ok b, w').
Proof.
  unfold bind. destruct (m w) as [[a|e] w1]; [eauto|discriminate].
Qed.

(** The outcome for a file that could not be processed. *)
Definition failed (file_path : str) (e : exn) : pyval :=
  VDict [(lit "success", VBool false);
         (lit "error", VStr (exn_msg e));
         (lit "file_path", VStr file_path)].

Definition failure_logged (file_path : str) (e : exn) (w : world) : world :=
  with_log (w_log w ++
              [mkLog logger ERROR
                 ("Error processing scene file " ++ file_path ++ ": " ++ exn_msg e)]) w.

Lemma process_unfold self file_path w :
  process_scene_file self file_path w =
  match process_body self file_path w with
  | (Ok r, w') => (Ok r, w')
  | (Raise e, w') => (Ok (failed file_path e), failure_logged file_path e w')
  end.
Proof.
  unfold process_scene_file, try_except.
  destruct (process_body self file_path w) as [[r|e] w']; reflexivity.
Qed.

Lemma process_body_returns self file_path w r w' :
  process_body self file_path w = (Ok r, w') ->
  exists rest, r = VDict ((lit "success", VBool true) :: rest).
Proof.
  unfold process_body. cbv zeta. intros H.
  repeat (apply bind_returns in H as (? & ? & _ & H)).
  unfold ret in H. inversion H. eauto.
Qed.

(** X23.  [process_scene_file] never raises: whatever the file, the
    configuration and the world, it returns a record whose [success] is
    a boolean. *)
Theorem process_scene_file_always_returns self file_path w :
  exists d b w',
    process_scene_file self file_path w = (Ok (VDict d), w')
    /\ dict_lookup "success" d = Some (VBool b).
Proof.
  rewrite process_unfold.
  destruct (process_body self file_path w) as [[r|e] w'] eqn:E.
  - destruct (process_body_returns _ _ _ _ _ E) as [rest ->].
    do 3 eexists. split; reflexivity.
  - do 3 eexists. split; reflexivity.
Qed.

(** X24.  A file that cannot be read, or whose text is not JSON, is
    reported as a failure with the text of the error; one record is
    logged and nothing else changes: the clock is not read and nothing
    is written. *)
Theorem process_scene_file_unreadable self file_path w e :
  w_read w file_path = Raise e
  \/ (exists text, w_read w file_path = Ok text /\ Json.loads text = Raise e) ->
  process_scene_file self file_path w
  = (Ok (failed file_path e), failure_logged file_path e w).
Proof.
  intros H. rewrite process_unfold. unfold process_body, bind at 1.
  destruct H as [H|(text & H & Hl)]; rewrite H; [reflexivity|].
  unfold bind at 1, lift at 1. rewrite Hl. reflexivity.
Qed.

Lemma process_body_report self file_path w r w' :
  process_body self file_path w = (Ok r, w') ->
  exists results path w1 report w2,
    Validator.generate_report (validator self) results path w1 = (Ok report, w2).
Proof.
  unfold process_body. cbv zeta. intros H.
  do 6 (apply bind_returns in H as (? & ? & _ & H)).
  apply bind_returns in H as (report & w2 & Hg & _). eauto 6.
Qed.

Lemma process_body_html_raises self file_path w fmt :
  method_get (Validator.config (validator self)) "report_format" (VStr "html")
  = Ok (VStr fmt) ->
  str_lower fmt = lit "html" ->
  exists e w', process_body self file_path w = (Raise e, w').
Proof.
  intros Hfmt Hlow.
  destruct (process_body self file_path w) as [[r|e] w'] eqn:E; [|eauto].
  destruct (process_body_report _ _ _ _ _ E) as (results & path & w1 & report & w2 & Hg).
  rewrite (generate_report_html _ results path w1 fmt Hfmt Hlow) in Hg.
  destruct (Validator._generate_html_report results) as [html|e] eqn:Eh;
    [|discriminate Hg].
  exfalso. revert Eh. unfold Validator._generate_html_report.
  repeat match goal with
         | |- rbind ?m _ = Ok _ -> False =>
             destruct m; cbn [rbind]; [|discriminate]
         end.
  rewrite html_template_unformattable by reflexivity. discriminate.
Qed.

(** X25.  With the format ["html"] no scene file is ever processed
    successfully: the report cannot be generated, so that every call
    returns [success: false]. *)
Theorem process_scene_file_html_fails self file_path w fmt :
  method_get (Validator.config (validator self)) "report_format" (VStr "html")
  = Ok (VStr fmt) ->
  str_lower fmt = lit "html" ->
  exists e w',
    process_scene_file self file_path w = (Ok (failed file_path e), w').
Proof.
  intros Hfmt Hlow.
  destruct (process_body_html_raises self file_path w fmt Hfmt Hlow) as (e & w' & H).
  exists e, (failure_logged file_path e w').
  rewrite process_unfold. now rewrite H.
Qed.


(** *** A scene file processed to a JSON report *)

(** The path of the report: the scene id and the clock reading taken
    before the validation. *)
Definition report_path_of (d : dict) (w : world) : str :=
  "reports" ++ "/" ++ "validation_" ++ py_str (scene_id_of d) ++ "_"
  ++ strftime_compact (w_clock w (w_tick w)) ++ ".html".

(** The result the validation inside [process_scene_file] gives: its
    timestamp is the next clock reading. *)
Definition results_of (d : dict) (fields : list str) (w : world) : pyval :=
  scene_result (scene_id_of d) (isoformat (w_clock w (S (w_tick w))))
    (no_errors (missing_errors d fields)) (missing_errors d fields).

(** The record returned for a processed file. *)
Definition processed (d : dict) (fields : list str) (w : world) : pyval :=
  VDict [(lit "success", VBool true);
         (lit "scene_id", scene_id_of d);
         (lit "valid", VBool (no_errors (missing_errors d fields)));
         (lit "report_path", VStr (report_path_of d w));
         (lit "error_count", VInt (Z.of_nat (length (missing_errors d fields))));
         (lit "warning_count", VInt 0)].

Lemma send_notification_result sid ts ok es report_path w :
  exists l, _send_notification (scene_result sid ts ok es) report_path w
            = (Ok tt, with_log (w_log w ++ l) w).
Proof.
  unfold _send_notification, scene_result, bind, lift, log_emit.
  cbn [method_get dict_lookup str_eqb py_iter w_log with_log].
  eexists [_; _; _]. unfold with_log. cbn. rewrite <- !app_assoc. reflexivity.
Qed.

Lemma deliver_written report path w :
  Validator.path_given (Some path) = Some path ->
  w_writable w path = true ->
  deliver report (Some path) w =
  (Ok report,
   with_log (w_log w ++ [mkLog Validator.logger INFO ("Report written to " ++ path)])
     (with_written (w_written w ++ [(path, report)]) w)).
Proof.
  intros Hp Hw. unfold deliver. rewrite Hp.
  unfold bind, write_file, log_emit, ret. rewrite Hw. reflexivity.
Qed.

Lemma process_body_json self file_path w text d fields fmt notify :
  w_read w file_path = Ok text ->
  Json.loads text = Ok (VDict d) ->
  w_makedirs w "reports" = true ->
  requires (Validator.validation_rules (validator self)) fields ->
  method_get (Validator.config (validator self)) "report_format" (VStr "html")
  = Ok (VStr fmt) ->
  str_lower fmt = lit "json" ->
  w_writable w (report_path_of d w) = true ->
  trigger_setting self "notification_on_validation" (VBool true) = Ok notify ->
  exists w',
    process_body self file_path w = (Ok (processed d fields w), w')
    /\ w_written w' =
       w_written w ++ [(report_path_of d w, Json.dumps (results_of d fields w) 2)].
Proof.
  intros Hread Hloads Hmk Hreq Hfmt Hlow Hwr Hnot.
  unfold process_body. cbv zeta.
  unfold bind at 1. rewrite Hread.
  unfold bind at 1, lift at 1. rewrite Hloads.
  unfold bind at 1, makedirs at 1. rewrite Hmk.
  unfold bind at 1, lift at 1. cbn [method_get]. fold (scene_id_of d).
  unfold bind at 1, datetime_now at 1.
  fold (report_path_of d w).
  set (w1 := with_tick (S (w_tick w)) w).
  unfold bind at 1. rewrite (validate_scene_dict _ d fields w1 Hreq).
  change (w_clock w1 (w_tick w1)) with (w_clock w (S (w_tick w))).
  fold (results_of d fields w).
  set (w2 := finished (scene_id_of d) w1).
  unfold bind at 1.
  rewrite (generate_report_json _ _ (Some (report_path_of d w)) w2 fmt Hfmt Hlow).
  rewrite (deliver_written _ (report_path_of d w) w2 eq_refl Hwr).
  set (w3 := with_log _ (with_written _ w2)).
  unfold bind at 1, lift at 1. rewrite Hnot.
  assert (Hw3 : w_written w3 =
                w_written w ++ [(report_path_of d w, Json.dumps (results_of d fields w) 2)])
    by reflexivity.
  clearbody w3. clear w1 w2.
  unfold bind at 1.
  assert (Hn : exists l,
             (if py_truth notify
              then _send_notification (results_of d fields w) (report_path_of d w)
              else ret tt) w3 = (Ok tt, with_log (w_log w3 ++ l) w3)).
  { destruct (py_truth notify).
    - apply send_notification_result.
    - exists []. unfold ret. rewrite app_nil_r. destruct w3; reflexivity. }
  destruct Hn as [l ->].
  unfold bind, log_emit, lift, ret, results_of, scene_result.
  cbn [method_get dict_lookup str_eqb py_iter].
  eexists. split; [reflexivity|]. cbn [w_written with_log]. exact Hw3.
Qed.

(** X26.  A scene file that holds a JSON object is processed to a JSON report
    when the format is ["json"], the report directory can be created and
    the report path written: the record says [success], carries the
    verdict and the number of errors of the validation, and exactly one
    file is written, the report, at a path made of the scene id and the
    clock reading taken before the validation, with the suffix
    [.html]. *)
Theorem process_scene_file_json self file_path w text d fields fmt notify :
  w_read w file_path = Ok text ->
  Json.loads text = Ok (VDict d) ->
  w_makedirs w "reports" = true ->
  requires (Validator.validation_rules (validator self)) fields ->
  method_get (Validator.config (validator self)) "report_format" (VStr "html")
  = Ok (VStr fmt) ->
  str_lower fmt = lit "json" ->
  w_writable w (report_path_of d w) = true ->
  trigger_setting self "notification_on_validation" (VBool true) = Ok notify ->
  let out := process_scene_file self file_path w in
  fst out = Ok (processed d fields w)
  /\ w_written (snd out) =
     w_written w ++ [(report_path_of d w, Json.dumps (results_of d fields w) 2)].
Proof.
  intros Hread Hloads Hmk Hreq Hfmt Hlow Hwr Hnot out. subst out.
  destruct (process_body_json self file_path w text d fields fmt notify
              Hread Hloads Hmk Hreq Hfmt Hlow Hwr Hnot) as (w' & Hb & Hw).
  rewrite process_unfold, Hb. split; [reflexivity|exact Hw].
Qed.

(** X27.  The report file of a processed scene, read back as JSON, is
    the validation result: the result [validate_scene] returns for the
    scene right after the clock reading of the report path, whose
    [valid] flag and whose number of [errors] are the verdict and the
    error count of the returned record.  The scene and the field names
    are JSON values equal to themselves, as for the round trip of a
    report. *)
Theorem processed_report_reads_back self file_path w text d fields fmt notify :
  FloatLaws P ->
  json_wf (VDict d) ->
  Forall (fun f => wf_str f = true) fields ->
  w_read w file_path = Ok text ->
  Json.loads text = Ok (VDict d) ->
  w_makedirs w "reports" = true ->
  requires (Validator.validation_rules (validator self)) fields ->
  method_get (Validator.config (validator self)) "report_format" (VStr "html")
  = Ok (VStr fmt) ->
  str_lower fmt = lit "json" ->
  w_writable w (report_path_of d w) = true ->
  trigger_setting self "notification_on_validation" (VBool true) = Ok notify ->
  let out := process_scene_file self file_path w in
  exists content results valid errors,
    fst (Validator.validate_scene (validator self) (VDict d)
           (with_tick (S (w_tick w)) w)) = Ok results
    /\ w_written (snd out) = w_written w ++ [(report_path_of d w, content)]
    /\ Json.loads content = Ok results
    /\ py_getitem results (VStr "valid") = Ok (VBool valid)
    /\ py_getitem results (VStr "errors") = Ok (VList errors)
    /\ fst out =
       Ok (VDict [(lit "success", VBool true);
                  (lit "scene_id", scene_id_of d);
                  (lit "valid", VBool valid);
                  (lit "report_path", VStr (report_path_of d w));
                  (lit "error_count", VInt (Z.of_nat (length errors)));
                  (lit "warning_count", VInt 0)]).
Proof.
  intros laws Hwf Hfields Hread Hloads Hmk Hreq Hfmt Hlow Hwr Hnot out. subst out.
  destruct (process_body_json self file_path w text d fields fmt notify
              Hread Hloads Hmk Hreq Hfmt Hlow Hwr Hnot) as (w' & Hb & Hw).
  exists (Json.dumps (results_of d fields w) 2), (results_of d fields w),
    (no_errors (missing_errors d fields)), (missing_errors d fields).
  rewrite process_unfold, Hb. cbn [fst snd].
  split; [now rewrite (validate_scene_dict _ d fields _ Hreq)|].
  split; [exact Hw|]. split.
  - apply (loads_dumps laws). apply scene_result_wf.
    + now apply scene_id_wf.
    + apply ascii_wf, ascii_isoformat.
    + now apply missing_errors_wf.
  - repeat split; reflexivity.
Qed.

End Facts.
(** A trigger whose validator writes JSON reports. *)
Definition json_trigger : SceneValidatorTrigger :=
  mkTrigger (VDict []) (Toy.validator_with "json") Toy.new_year.

Definition scene_world : world :=
  Worlds.world_with_file Toy.scene_path Toy.scene_S1_text.

Lemma process_scene_file_unreadable_witness :
  process_scene_file json_trigger Toy.scene_path Worlds.locked_world
  = (Ok (failed Toy.scene_path (mkExn OSError Toy.scene_path)),
     failure_logged Toy.scene_path (mkExn OSError Toy.scene_path) Worlds.locked_world).
Proof.
  apply (process_scene_file_unreadable json_trigger Toy.scene_path Worlds.locked_world).
  left. reflexivity.
Defined.

Lemma process_scene_file_html_fails_witness :
  exists e w',
    process_scene_file (Toy.trigger_at Toy.new_year) Toy.scene_path scene_world
    = (Ok (failed Toy.scene_path e), w').
Proof.
  apply (process_scene_file_html_fails (Toy.trigger_at Toy.new_year) Toy.scene_path
           scene_world "html"); reflexivity.
Defined.

Lemma scene_S1_wf :
  json_wf (VDict [(lit "scene_id", VStr "S1"); (lit "timestamp", VStr "t")]).
Proof.
  constructor.
  - vm_compute. repeat (constructor; [cbn [In]; intuition discriminate|]).
    constructor.
  - repeat (constructor; [split; [reflexivity|constructor; reflexivity]|]).
    constructor.
Qed.

Lemma process_scene_file_json_witness :
  let out := process_scene_file json_trigger Toy.scene_path scene_world in
  fst out =
  Ok (VDict [(lit "success", VBool true);
             (lit "scene_id", VStr "S1");
             (lit "valid", VBool false);
             (lit "report_path", VStr "reports/validation_S1_20240102_120000.html");
             (lit "error_count", VInt 1);
             (lit "warning_count", VInt 0)])
  /\ map fst (w_written (snd out)) = [lit "reports/validation_S1_20240102_120000.html"].
Proof.
  intros out.
  destruct (process_scene_file_json json_trigger Toy.scene_path scene_world
              Toy.scene_S1_text
              [(lit "scene_id", VStr "S1"); (lit "timestamp", VStr "t")]
              [lit "scene_id"; lit "timestamp"; lit "location"] "json" (VBool true))
    as [H1 H2]; try reflexivity.
  - eexists. split; reflexivity.
  - fold out in H1, H2. rewrite H1, H2. split; reflexivity.
Defined.

Lemma processed_report_reads_back_witness :
  let out := process_scene_file json_trigger Toy.scene_path scene_world in
  let results := scene_result (VStr "S1") "2024-01-02T12:00:00.000007" false
                   [VStr "Missing required metadata: location"] in
  exists content,
    w_written (snd out)
    = [(lit "reports/validation_S1_20240102_120000.html", content)]
    /\ Json.loads content = Ok results.
Proof.
  intros out results.
  destruct (processed_report_reads_back json_trigger Toy.scene_path scene_world
              Toy.scene_S1_text
              [(lit "scene_id", VStr "S1"); (lit "timestamp", VStr "t")]
              [lit "scene_id"; lit "timestamp"; lit "location"] "json" (VBool true)
              Runs.toy_float_laws scene_S1_wf)
    as (content & results' & valid & errors & Hv & Hw & Hl & _); try reflexivity.
  - repeat (constructor; [reflexivity|]). constructor.
  - eexists. split; reflexivity.
  - exists content. split; [exact Hw|]. rewrite Hl.
    rewrite <- Hv. vm_compute. reflexivity.
Defined.

End ProcessingFacts.
(** ** What a scan leaves out *)

Module WatcherFacts.
Import Py Sys Trigger TextFacts TriggerFacts.
Section Facts.
Context {FT : FloatType} {P : PyPrim}.

Definition missing_directory (dir : str) : log_record :=
  mkLog logger WARNING ("Watch directory does not exist: " ++ dir).

Lemma scan_missing_directories self patterns ignore w dirs : forall files l,
  (forall dir, In dir dirs -> w_exists w dir = false) ->
  foldM (scan_directory self patterns ignore) (map VStr dirs) files
    (with_log (w_log w ++ l) w)
  = (Ok files, with_log (w_log w ++ l ++ map missing_directory dirs) w).
Proof.
  induction dirs as [|dir dirs IH]; intros files l Hex; cbn [map foldM].
  - now rewrite app_nil_r.
  - unfold bind at 1. unfold scan_directory at 1.
    unfold bind at 1, lift at 1. cbn [as_path].
    unfold bind at 1. cbn [w_exists with_log].
    rewrite (Hex dir (or_introl eq_refl)).
    unfold bind at 1, log_emit at 1, ret at 1. cbn [w_log with_log].
    fold (missing_directory dir).
    replace (with_log ((w_log w ++ l) ++ [missing_directory dir])
               (with_log (w_log w ++ l) w))
      with (with_log (w_log w ++ (l ++ [missing_directory dir])) w)
      by (rewrite app_assoc; reflexivity).
    rewrite IH by (intros d Hd; apply Hex; now right).
    now rewrite <- app_assoc.
Qed.

(** X28.  Watch directories that do not exist are skipped with one warning
    each: the scan returns no file, does not look at the patterns, and
    still moves the cursor to the clock reading. *)
Theorem watch_missing_directories self w dirs patterns ignore :
  trigger_setting self "watch_directories" (VList [VStr "data/scenes"])
  = Ok (VList (map VStr dirs)) ->
  trigger_setting self "watch_file_patterns" (VList [VStr "*.json"; VStr "*.xml"])
  = Ok patterns ->
  trigger_setting self "ignore_patterns" (VList []) = Ok ignore ->
  (forall dir, In dir dirs -> w_exists w dir = false) ->
  watch_directories self w =
  (Ok ([], mkTrigger (config self) (validator self) (w_clock w (w_tick w))),
   with_tick (S (w_tick w)) (with_log (w_log w ++ map missing_directory dirs) w)).
Proof.
  intros Hd Hp Hi Hex. unfold watch_directories.
  unfold bind at 1, lift at 1. rewrite Hd.
  unfold bind at 1, lift at 1. rewrite Hp.
  unfold bind at 1, lift at 1. rewrite Hi.
  unfold bind at 1, lift at 1. cbn [py_iter].
  unfold bind at 1.
  pose proof (scan_missing_directories self patterns ignore w dirs [] [] Hex) as H.
  rewrite app_nil_r in H. cbn [app] in H.
  replace (with_log (w_log w) w) with w in H by (destruct w; reflexivity).
  rewrite H. reflexivity.
Qed.

(** *** Ignored files *)

Section Ignoring.
Variable ignores : list str.

(** An entry for a path that matches none of the ignore patterns. *)
Definition not_ignored (entry : pyval) : Prop :=
  exists path mt,
    entry = VDict [(lit "path", VStr path);
                   (lit "modified_time", VStr (isoformat mt))]
    /\ forall pat, In pat ignores -> path_match path pat = false.

Lemma any_match_none path : forall pats,
  any_match path (map VStr pats) = Ok false ->
  forall pat, In pat pats -> path_match path pat = false.
Proof.
  induction pats as [|p pats IH]; intros H pat Hin; [contradiction|].
  cbn [map any_match as_path rbind] in H.
  destruct (path_match path p) eqn:E; [discriminate|].
  destruct Hin as [<-|Hin]; [exact E|now apply IH].
Qed.

Variable w0 : world.
Variable self : SceneValidatorTrigger.

Lemma scan_file_skips files path :
  Forall not_ignored files ->
  keeps w0 (scan_file self (VList (map VStr ignores)) files path)
    (Forall not_ignored).
Proof.
  intros Hinv. unfold scan_file.
  eapply keeps_bind; [apply keeps_lift|]. intros pats Hpats.
  cbn [py_iter] in Hpats. inversion Hpats; subst pats.
  eapply keeps_bind; [apply keeps_lift|]. intros [|] Hm.
  - now apply keeps_ret.
  - eapply keeps_bind with (post := fun _ => True).
    + intros w Hw. destruct (w_mtime w path); auto.
    + intros mt _. destruct (dt_gtb mt (last_check_time self)).
      * eapply keeps_bind; [apply keeps_log|]. intros _ _.
        apply keeps_ret. apply Forall_app. split; [exact Hinv|].
        constructor; [|constructor]. exists path, mt. split; [reflexivity|].
        now apply any_match_none.
      * now apply keeps_ret.
Qed.

Lemma scan_directory_skips patterns files directory :
  Forall not_ignored files ->
  keeps w0 (scan_directory self patterns (VList (map VStr ignores)) files directory)
    (Forall not_ignored).
Proof.
  intros Hinv. unfold scan_directory.
  eapply keeps_bind; [apply keeps_lift|]. intros dir _.
  eapply keeps_bind; [apply keeps_exists|]. intros [|] _.
  - eapply keeps_bind; [apply keeps_lift|]. intros pats _.
    apply keeps_foldM; [|exact Hinv]. intros b x Hb. unfold scan_pattern.
    eapply keeps_bind; [apply keeps_lift|]. intros pat _.
    eapply keeps_bind; [apply keeps_glob|]. intros paths _.
    apply keeps_foldM; [|exact Hb]. intros b' x' Hb'. now apply scan_file_skips.
  - eapply keeps_bind; [apply keeps_log|]. intros _ _. now apply keeps_ret.
Qed.

End Ignoring.

(** X29.  A file whose path matches one of the ignore patterns is never
    reported by a scan, however recent it is. *)
Theorem watch_skips_ignored self w ignores files self' w' :
  trigger_setting self "ignore_patterns" (VList []) = Ok (VList (map VStr ignores)) ->
  watch_directories self w = (Ok (files, self'), w') ->
  forall path pat,
    reported path files -> In pat ignores -> path_match path pat = false.
Proof.
  intros Hi H path pat (entry & Hin & Hpath) Hpat.
  assert (Hall : Forall (not_ignored ignores) files).
  { unfold watch_directories in H.
    apply ProcessingFacts.bind_returns in H as (watch_dirs & w1 & _ & H).
    apply ProcessingFacts.bind_returns in H as (patterns & w2 & _ & H).
    apply ProcessingFacts.bind_returns in H as (ig & w3 & Hig & H).
    unfold lift in Hig. rewrite Hi in Hig. inversion Hig; subst ig w3.
    apply ProcessingFacts.bind_returns in H as (dirs & w4 & _ & H).
    apply ProcessingFacts.bind_returns in H as (fs & w5 & Hf & H).
    apply ProcessingFacts.bind_returns in H as (now & w6 & _ & H).
    unfold ret in H. inversion H; subst.
    assert (K : keeps w4
              (foldM (scan_directory self patterns (VList (map VStr ignores))) dirs [])
              (Forall (not_ignored ignores))).
    { apply keeps_foldM; [|constructor].
      intros b x Hb. now apply scan_directory_skips. }
    specialize (K w4). rewrite Hf in K. apply K.
    exists (w_log w4). destruct w4; reflexivity. }
  rewrite Forall_forall in Hall.
  destruct (Hall entry Hin) as (p & mt & -> & Hnone).
  cbn in Hpath. inversion Hpath; subst. now apply Hnone.
Qed.

End Facts.

Lemma watch_missing_directories_witness :
  fst (watch_directories (Toy.trigger_at Toy.new_year) Toy.world0)
  = Ok ([], mkTrigger (VDict []) (Toy.validator_with "html") Toy.noon).
Proof.
  rewrite (watch_missing_directories (Toy.trigger_at Toy.new_year) Toy.world0
             [lit "data/scenes"] (VList [VStr "*.json"; VStr "*.xml"]) (VList []));
    reflexivity.
Defined.

(** A trigger that ignores backup files. *)
Definition ignoring_trigger : SceneValidatorTrigger :=
  mkTrigger (VDict [(lit "trigger", VDict [(lit "ignore_patterns",
                                             VList [VStr "*.bak"])])])
    (Toy.validator_with "json") Toy.new_year.

Lemma watch_skips_ignored_witness :
  let files := [Toy.entry_at Toy.morning] in
  fst (watch_directories ignoring_trigger (Toy.world_watched Toy.morning))
  = Ok (files, mkTrigger (config ignoring_trigger) (validator ignoring_trigger) Toy.noon)
  /\ reported Toy.scene_path files
  /\ path_match Toy.scene_path "*.bak" = false.
Proof.
  intros files.
  assert (Hrep : reported Toy.scene_path files).
  { exists (Toy.entry_at Toy.morning). split; [now left|reflexivity]. }
  split; [vm_compute; reflexivity|]. split; [exact Hrep|].
  apply (watch_skips_ignored ignoring_trigger (Toy.world_watched Toy.morning)
           [lit "*.bak"] files
           (mkTrigger (config ignoring_trigger) (validator ignoring_trigger) Toy.noon)
           (snd (watch_directories ignoring_trigger (Toy.world_watched Toy.morning)))
           eq_refl);
    [vm_compute; reflexivity|exact Hrep|now left].
Defined.

End WatcherFacts.

(** ** A trigger built without configuration files *)

Module TriggerConstruction.
Import Py Sys Trigger TextFacts ValidatorFacts ConstructionFacts ProcessingFacts.
Section Facts.
Context {FT : FloatType} {P : PyPrim}.

(** The settings [_load_config] of the trigger falls back to. *)
Definition default_settings : pyval :=
  VDict [(lit "trigger", VDict [
     (lit "watch_interval_seconds", VInt 60);
     (lit "watch_directories", VList [VStr "data/scenes"]);
     (lit "watch_file_patterns", VList [VStr "*.json"; VStr "*.xml"]);
     (lit "ignore_patterns", VList [VStr "*_temp.json"; VStr "*.bak"]);
     (lit "trigger_on_metadata_change", VBool true);
     (lit "notification_on_validation", VBool true)])].

Lemma trigger_load_config_default path w :
  missing w path ->
  _load_config path w =
  (Ok default_settings,
   with_log (w_log w ++
               [mkLog logger WARNING
                  ("Config file not found at " ++ path ++ ", using defaults")]) w).
Proof.
  intros (e & He & Hc).
  unfold _load_config, try_except, Validator.load_json, bind at 1.
  rewrite He, Hc. reflexivity.
Qed.

Lemma missing_with_log w l path : missing w path -> missing (with_log l w) path.
Proof. intros H. exact H. Qed.

(** X30.  Where neither the configuration nor the rules file exists, the
    constructor of the trigger returns: the cursor is the clock reading
    of the construction, backup and temporary files are ignored, and the
    validator is the default one, whose format is ["html"]; every scene
    file given to this trigger is therefore reported as failed. *)
Theorem trigger_init_defaults path w :
  str_lower "html" = lit "html" ->
  missing w path ->
  missing w "config/validation_rules.json" ->
  exists self w0,
    init path w = (Ok self, w0)
    /\ last_check_time self = w_clock w (w_tick w)
    /\ trigger_setting self "ignore_patterns" (VList [])
       = Ok (VList [VStr "*_temp.json"; VStr "*.bak"])
    /\ forall file_path w1, exists e w1',
         process_scene_file self file_path w1 = (Ok (failed file_path e), w1').
Proof.
  intros Hlow Hc Hr. unfold init. unfold bind at 1.
  rewrite (trigger_load_config_default path w Hc).
  unfold bind at 1.
  rewrite (init_defaults path _ (missing_with_log w _ path Hc)
             (missing_with_log w _ _ Hr)).
  unfold bind at 1, datetime_now at 1. unfold bind, log_emit, ret.
  do 2 eexists. split; [reflexivity|]. split; [reflexivity|]. split; [reflexivity|].
  intros file_path w1.
  match goal with
  | |- exists e w1', process_scene_file ?self _ _ = _ =>
      destruct (process_body_html_raises self file_path w1 "html" eq_refl Hlow)
        as (e & w1' & H)
  end.
  exists e, (failure_logged file_path e w1').
  rewrite process_unfold. now rewrite H.
Qed.

End Facts.

Lemma trigger_init_defaults_witness :
  exists self w0,
    init "config/config.json" Toy.world0 = (Ok self, w0)
    /\ last_check_time self = Toy.noon
    /\ exists e w1,
         process_scene_file self Toy.scene_path (Toy.world_watched Toy.morning)
         = (Ok (failed Toy.scene_path e), w1).
Proof.
  destruct (trigger_init_defaults (P := Toy.prim) "config/config.json" Toy.world0
              eq_refl (world0_missing _) (world0_missing _))
    as (self & w0 & Hi & Hc & _ & Hp).
  exists self, w0. split; [exact Hi|]. split; [exact Hc|]. apply Hp.
Defined.

End TriggerConstruction.

